(** * Real-Matrix: the answer evaluator of [code/evaluator.py]

    A shallow embedding of the answer normaliser, the unit extractor, the
    matcher and the aggregate metrics of [evaluator.py], and the theorems
    that settle what the specification says about them.

    Conventions of the model.
    - A Python [str] is a [string] whose characters are the code points
      0..255 (ASCII and Latin-1); the degree sign is the single character
      176.  Character classes ([\d], [\s], [str.lower], [re.IGNORECASE]) are
      Python's, restricted to this range.
    - A Python [float] is an IEEE-754 binary64 value [float]: every
      arithmetic operation is the exact rational result rounded once to
      nearest, ties to even ([round_float]).
      The arithmetic is checked against [SpecFloat] on sample values, and
      the facts about rounding are proved over the real numbers.
    - Exceptions are explicit: a computation returns [Ok v] or [Raise e].
    - A Python [dict] is an association list in insertion order; the
      dictionaries the evaluator builds itself are built by assignment. *)

From Stdlib Require Import ZArith NArith List Bool Ascii String Lia.
From Stdlib Require Import DecimalString DecimalPos Reals Lra SpecFloat.
Import ListNotations.

Local Open Scope string_scope.
Local Open Scope Z_scope.

(* ================================================================== *)
(** * Exceptions *)

Inductive exn : Type :=
| ValueError
| OverflowError.

Inductive result (A : Type) : Type :=
| Ok (v : A)
| Raise (e : exn).

Arguments Ok {A} v.
Arguments Raise {A} e.

Definition bind {A B : Type} (c : result A) (k : A -> result B) : result B :=
  match c with
  | Ok v => k v
  | Raise e => Raise e
  end.

Notation "x <- c ;; k" := (bind c (fun x => k))
  (at level 61, c at next level, right associativity).

(** [try: body except ValueError: pass], where [body] ends by assigning its
    value to a variable that holds [dflt] before the [try]. *)
Definition except_ValueError {A : Type} (body : result A) (dflt : A) : result A :=
  match body with
  | Raise ValueError => Ok dflt
  | other => other
  end.

(** A conversion that can only fail with [ValueError]. *)
Definition or_ValueError {A : Type} (o : option A) : result A :=
  match o with
  | Some v => Ok v
  | None => Raise ValueError
  end.

(* ================================================================== *)
(** * Python strings *)

Module Str.

Definition code (c : ascii) : N := N_of_ascii c.

(** [\d] and [str.isdecimal] below code point 256: the ASCII digits. *)
Definition isdigit (c : ascii) : bool :=
  ((48 <=? code c) && (code c <=? 57))%N.

(** [\s] and the characters [str.strip] and [str.split] remove, below
    code point 256: TAB..CR, FS..US, SPACE, NEL and NBSP. *)
Definition isspace (c : ascii) : bool :=
  let n := code c in
  (((9 <=? n) && (n <=? 13)) || ((28 <=? n) && (n <=? 32))
   || (n =? 133) || (n =? 160))%N.

(** [str.lower] on one character: A..Z, and the Latin-1 capitals
    192..222 except the multiplication sign 215. *)
Definition lower_char (c : ascii) : ascii :=
  let n := code c in
  if (((65 <=? n) && (n <=? 90))
      || ((192 <=? n) && (n <=? 222) && negb (n =? 215)))%N
  then ascii_of_N (n + 32) else c.

Fixpoint lower (s : string) : string :=
  match s with
  | "" => ""
  | String c s' => String (lower_char c) (lower s')
  end.

(** Drop the leading characters that satisfy [p]. *)
Fixpoint lstrip_by (p : ascii -> bool) (s : string) : string :=
  match s with
  | "" => ""
  | String c s' => if p c then lstrip_by p s' else s
  end.

(** Drop the trailing characters that satisfy [p]. *)
Fixpoint rstrip_by (p : ascii -> bool) (s : string) : string :=
  match s with
  | "" => ""
  | String c s' =>
      match rstrip_by p s' with
      | "" => if p c then "" else String c ""
      | r => String c r
      end
  end.

Definition lstrip : string -> string := lstrip_by isspace.
Definition rstrip : string -> string := rstrip_by isspace.

(** [s.strip()] *)
Definition strip (s : string) : string := lstrip (rstrip s).

(** [s.rstrip(ch)] for a one-character argument. *)
Definition rstrip_char (ch : ascii) : string -> string :=
  rstrip_by (fun c => Ascii.eqb c ch).

(** [s.split()]: the maximal runs of non-space characters.  [cur] is the
    run being read. *)
Fixpoint split_from (cur : string) (s : string) : list string :=
  match s with
  | "" => if String.eqb cur "" then [] else [cur]
  | String c s' =>
      if isspace c
      then (if String.eqb cur "" then split_from "" s'
            else cur :: split_from "" s')
      else split_from (cur ++ String c "") s'
  end.

Definition split (s : string) : list string := split_from "" s.

(** [sep.join(parts)]. *)
Fixpoint join (sep : string) (parts : list string) : string :=
  match parts with
  | [] => ""
  | [p] => p
  | p :: rest => p ++ sep ++ join sep rest
  end.

(** [sub in s]. *)
Fixpoint contains (sub s : string) : bool :=
  prefix sub s ||
  match s with
  | "" => false
  | String _ s' => contains sub s'
  end.

(** [ch in s] for one character. *)
Fixpoint has_char (ch : ascii) (s : string) : bool :=
  match s with
  | "" => false
  | String c s' => Ascii.eqb c ch || has_char ch s'
  end.

(** Every character of [s] satisfies [p]. *)
Fixpoint forall_chars (p : ascii -> bool) (s : string) : bool :=
  match s with
  | "" => true
  | String c s' => p c && forall_chars p s'
  end.

(** [not s]: the empty string is falsy. *)
Definition is_empty (s : string) : bool :=
  match s with "" => true | _ => false end.

Fixpoint repeat (c : ascii) (n : nat) : string :=
  match n with
  | O => ""
  | S n' => String c (repeat c n')
  end.

End Str.

(* ================================================================== *)
(** * The regular expressions of the evaluator

    The patterns of [evaluator.py] only use literals, optional literals and
    ordered alternation, all under [re.IGNORECASE].  An optional character
    is taken whenever it is there; the white space before a group is taken
    whole, since no alternative starts with a space. *)

Module Re.

Inductive item : Type :=
| Lit (c : ascii)    (** the character [c], in either case *)
| Opt (c : ascii)    (** [c?] *)
| End.               (** [$] *)

Definition ci_eqb (c p : ascii) : bool :=
  Ascii.eqb (Str.lower_char c) (Str.lower_char p).

(** [$]: the end of the string, or just before a final newline. *)
Definition at_end (s : string) : bool :=
  match s with
  | "" => true
  | String c "" => Ascii.eqb c (ascii_of_N 10)
  | _ => false
  end.

(** Match the items at the start of [s]: the matched text and the rest. *)
Fixpoint match_items (p : list item) (s : string) : option (string * string) :=
  match p with
  | [] => Some ("", s)
  | Lit a :: p' =>
      match s with
      | String c s' =>
          if ci_eqb c a then
            match match_items p' s' with
            | Some (m, r) => Some (String c m, r)
            | None => None
            end
          else None
      | "" => None
      end
  | Opt a :: p' =>
      match s with
      | String c s' =>
          if ci_eqb c a then
            match match_items p' s' with
            | Some (m, r) => Some (String c m, r)
            | None => match_items p' s
            end
          else match_items p' s
      | "" => match_items p' s
      end
  | End :: p' => if at_end s then match_items p' s else None
  end.

Fixpoint lits (w : string) : list item :=
  match w with
  | "" => []
  | String c w' => Lit c :: lits w'
  end.

(** Ordered alternation [(a1|a2|...)]: the first alternative that matches. *)
Fixpoint first_alt (alts : list (list item)) (s : string) : option (string * string) :=
  match alts with
  | [] => None
  | a :: alts' =>
      match match_items a s with
      | Some r => Some r
      | None => first_alt alts' s
      end
  end.

(** [[\d.]] *)
Definition isnumch (c : ascii) : bool := Str.isdigit c || Ascii.eqb c ".".

(** The longest prefix of characters satisfying [p], and the rest. *)
Fixpoint span (p : ascii -> bool) (s : string) : string * string :=
  match s with
  | "" => ("", "")
  | String c s' =>
      if p c then let '(a, b) := span p s' in (String c a, b)
      else ("", s)
  end.

Definition degree_sign : ascii := ascii_of_N 176.

(** [(mm|cm|m|km|kg|g|mg|s|ms|rad/s\^?2?|m/s\^?2?|m/s|N|J|W|Hz|\xb0|degrees?)],
    the unit group of [normalize_answer], in the order of the source; the
    degree sign is written [\xb0] here. *)
Definition normalize_units : list (list item) :=
  [ lits "mm"; lits "cm"; lits "m"; lits "km"; lits "kg"; lits "g";
    lits "mg"; lits "s"; lits "ms";
    (lits "rad/s" ++ [Opt "^"%char; Opt "2"%char])%list;
    (lits "m/s" ++ [Opt "^"%char; Opt "2"%char])%list;
    lits "m/s"; lits "N"; lits "J"; lits "W"; lits "Hz";
    [Lit degree_sign];
    (lits "degree" ++ [Opt "s"%char])%list ].

(** The unit group of [extract_number_and_unit]: the same, then [|cm|mm]. *)
Definition extract_units : list (list item) :=
  (normalize_units ++ [ lits "cm"; lits "mm" ])%list.

(** [re.search(r'([\d.]+)\s*(units)?', s, re.IGNORECASE)]: [None] when [s]
    has no digit and no dot; otherwise group 1 is the first maximal run of
    digits and dots and group 2 the unit found after the white space that
    follows it, if any. *)
Fixpoint search_number_unit (units : list (list item)) (s : string)
  : option (string * option string) :=
  match s with
  | "" => None
  | String c s' =>
      if isnumch c then
        let '(num_str, rest) := span isnumch s in
        Some (num_str, option_map fst (first_alt units (Str.lstrip rest)))
      else search_number_unit units s'
  end.

(** [re.sub(r'^\$', '', s)] *)
Definition sub_leading_dollar (s : string) : string :=
  match s with
  | String c s' => if Ascii.eqb c "$" then s' else s
  | "" => ""
  end.

(** [re.sub(r'^USD\s*', '', s, flags=re.IGNORECASE)] *)
Definition sub_leading_usd (s : string) : string :=
  match match_items (lits "USD") s with
  | Some (_, rest) => Str.lstrip rest
  | None => s
  end.

(** [(dollars?|USD|units?)$], every alternative followed by the [$]. *)
Definition suffix_words : list (list item) :=
  [ (lits "dollar" ++ [Opt "s"%char; End])%list;
    (lits "USD" ++ [End])%list;
    (lits "unit" ++ [Opt "s"%char; End])%list ].

(** [re.sub(r'\s*(dollars?|USD|units?)$', '', s, flags=re.IGNORECASE)]:
    the match at the leftmost position from which the pattern matches is
    removed; what stays after it is empty, or the final newline. *)
Fixpoint sub_trailing_words (s : string) : string :=
  match first_alt suffix_words (Str.lstrip s) with
  | Some (_, rest) => rest
  | None =>
      match s with
      | "" => ""
      | String c s' => String c (sub_trailing_words s')
      end
  end.

End Re.

(* ================================================================== *)
(** * Python floats (IEEE-754 binary64) *)

Module Float.

(** [Ffin neg m e] is the number [(-1)^neg * m * 2^e] with [0 <= m]; the
    zeros are [Ffin _ 0 emin].  [round_float] returns values in canonical
    form: [m < 2^53], [emin <= e <= emax], and [2^52 <= m] unless
    [e = emin]. *)
Inductive float : Type :=
| Fnan
| Finf (neg : bool)
| Ffin (neg : bool) (m e : Z).

Definition emin : Z := -1074.
Definition emax : Z := 971.

(** [a / b] rounded to the nearest integer, ties to even
    ([0 <= a], [0 < b]). *)
Definition rhe (a b : Z) : Z :=
  let q := a / b in
  match 2 * (a mod b) ?= b with
  | Lt => q
  | Gt => q + 1
  | Eq => if Z.even q then q else q + 1
  end.

(** The fraction [(n / d) / 2^e]. *)
Definition scale2 (n d e : Z) : Z * Z :=
  if 0 <=? e then (n, d * 2 ^ e) else (n * 2 ^ (- e), d).

(** [floor (log2 (n / d))] for [0 < n], [0 < d]. *)
Definition ilog2_frac (n d : Z) : Z :=
  let k0 := Z.log2 n - Z.log2 d in
  let '(a, b) := scale2 n d k0 in
  if b <=? a then k0 else k0 - 1.

(** The rational [n / d] ([0 <= n], [0 < d]) with sign [neg], rounded to
    the nearest binary64 value, ties to even; infinity on overflow. *)
Definition round_float (neg : bool) (n d : Z) : float :=
  if n =? 0 then Ffin neg 0 emin
  else
    let e := Z.max (ilog2_frac n d - 52) emin in
    let '(a, b) := scale2 n d e in
    let m := rhe a b in
    let '(m', e') := if m =? 2 ^ 53 then (2 ^ 52, e + 1) else (m, e) in
    if emax <? e' then Finf neg else Ffin neg m' e'.

(** [m * 2^e], rounded. *)
Definition round_m2e (neg : bool) (m e : Z) : float :=
  let '(n, d) := scale2 m 1 (- e) in round_float neg n d.

(** The signed integers [(a, b)] with [x = a * 2^e0] and [y = b * 2^e0]. *)
Definition align (s : bool) (m e : Z) (t : bool) (m' e' : Z) : Z * Z * Z :=
  let e0 := Z.min e e' in
  let sg (neg : bool) (v : Z) := if neg then - v else v in
  (sg s (m * 2 ^ (e - e0)), sg t (m' * 2 ^ (e' - e0)), e0).

(** The same value in the Standard Library's specification of IEEE-754. *)
Definition to_spec (x : float) : spec_float :=
  match x with
  | Fnan => S754_nan
  | Finf s => S754_infinity s
  | Ffin s (Zpos p) e => S754_finite s p e
  | Ffin s _ _ => S754_zero s
  end.

(** [float(z)] for an [int] within range, and the [int] operand of a
    mixed operation. *)
Definition of_Z (z : Z) : float := round_float (z <? 0) (Z.abs z) 1.

(** [a / b] on two [int]s, [b <> 0]: the quotient, rounded once. *)
Definition int_truediv (a b : Z) : float :=
  round_float (xorb (a <? 0) (b <? 0)) (Z.abs a) (Z.abs b).

(** [x * y] *)
Definition mul (x y : float) : float :=
  match x, y with
  | Fnan, _ | _, Fnan => Fnan
  | Finf s, Finf t => Finf (xorb s t)
  | Finf s, Ffin t m _ | Ffin t m _, Finf s =>
      if m =? 0 then Fnan else Finf (xorb s t)
  | Ffin s m e, Ffin t m' e' => round_m2e (xorb s t) (m * m') (e + e')
  end.

(** [x / y].  Python raises [ZeroDivisionError] on a zero divisor; the
    evaluator only divides by the literals 100, 1000 and 1000000. *)
Definition div (x y : float) : float :=
  match x, y with
  | Fnan, _ | _, Fnan => Fnan
  | Finf _, Finf _ => Fnan
  | Finf s, Ffin t _ _ => Finf (xorb s t)
  | Ffin s _ _, Finf t => Ffin (xorb s t) 0 emin
  | Ffin s m e, Ffin t m' e' =>
      if m' =? 0 then (if m =? 0 then Fnan else Finf (xorb s t))
      else let '(n, d) := scale2 m m' (e' - e) in round_float (xorb s t) n d
  end.

(** [x - y] *)
Definition sub (x y : float) : float :=
  match x, y with
  | Fnan, _ | _, Fnan => Fnan
  | Finf s, Finf t => if Bool.eqb s t then Fnan else Finf s
  | Finf s, Ffin _ _ _ => Finf s
  | Ffin _ _ _, Finf t => Finf (negb t)
  | Ffin s m e, Ffin t m' e' =>
      let '(a, b, e0) := align s m e t m' e' in
      let z := a - b in
      if z =? 0 then Ffin (s && negb t) 0 emin
      else round_m2e (z <? 0) (Z.abs z) e0
  end.

(** [abs(x)] *)
Definition abs (x : float) : float :=
  match x with
  | Fnan => Fnan
  | Finf _ => Finf false
  | Ffin _ m e => Ffin false m e
  end.

(** [x < y] *)
Definition ltb (x y : float) : bool :=
  match x, y with
  | Fnan, _ | _, Fnan => false
  | Finf s, Finf t => s && negb t
  | Finf s, Ffin _ _ _ => s
  | Ffin _ _ _, Finf t => negb t
  | Ffin s m e, Ffin t m' e' =>
      let '(a, b, _) := align s m e t m' e' in a <? b
  end.

(** [int(x)]: truncation towards zero. *)
Definition to_int (x : float) : result Z :=
  match x with
  | Fnan => Raise ValueError
  | Finf _ => Raise OverflowError
  | Ffin s m e =>
      let a := if 0 <=? e then m * 2 ^ e else m / 2 ^ (- e) in
      Ok (if s then - a else a)
  end.

(** [x == i] for an [int] [i]: the comparison is exact. *)
Definition eq_int (x : float) (i : Z) : bool :=
  match x with
  | Fnan | Finf _ => false
  | Ffin s m e =>
      let v := if s then - m else m in
      if 0 <=? e then v * 2 ^ e =? i else v =? i * 2 ^ (- e)
  end.

(** [str(i)] for an [int]. *)
Definition str_of_Z (i : Z) : string := NilZero.string_of_int (Z.to_int i).

Definition digit_char (d : Z) : ascii := ascii_of_N (48 + Z.to_N d).

(** The last [k] decimal digits of [r], zero padded. *)
Fixpoint pad_digits (k : nat) (r : Z) : string :=
  match k with
  | O => ""
  | S k' => pad_digits k' (r / 10) ++ String (digit_char (r mod 10)) ""
  end.

(** [m * 2^e] in millionths, rounded to the nearest integer, ties to even. *)
Definition millionths (m e : Z) : Z :=
  if 0 <=? e then m * 2 ^ e * 10 ^ 6 else rhe (m * 10 ^ 6) (2 ^ (- e)).

(** [f"{x:.6f}"]: the exact value rounded to six decimals, ties to even. *)
Definition format_6f (x : float) : string :=
  match x with
  | Fnan => "nan"
  | Finf s => if s then "-inf" else "inf"
  | Ffin s m e =>
      let q := millionths m e in
      (if s then "-" else "") ++ str_of_Z (q / 10 ^ 6) ++ "." ++ pad_digits 6 (q mod 10 ^ 6)
  end.

(** The value of a run of decimal digits, read from the left; [None] when a
    character is not a digit. *)
Fixpoint digits_acc (acc : Z) (s : string) : option Z :=
  match s with
  | "" => Some acc
  | String c r =>
      if Str.isdigit c then digits_acc (10 * acc + (Z.of_N (Str.code c) - 48)) r
      else None
  end.

Definition digits_value (s : string) : option Z := digits_acc 0 s.

(** [n * 10^sc], rounded. *)
Definition of_decimal (neg : bool) (n sc : Z) : float :=
  if 0 <=? sc then round_float neg (n * 10 ^ sc) 1
  else round_float neg n (10 ^ (- sc)).

Definition take_sign (s : string) : bool * string :=
  match s with
  | String c r =>
      if Ascii.eqb c "-" then (true, r)
      else if Ascii.eqb c "+" then (false, r)
      else (false, s)
  | "" => (false, "")
  end.

(** The exponent part [e[+-]digits]; absent when [s] is empty. *)
Definition parse_exponent (s : string) : option Z :=
  match s with
  | "" => Some 0
  | String c r =>
      if Re.ci_eqb c "e" then
        let '(neg, ds) := take_sign r in
        if Str.is_empty ds then None
        else option_map (fun v => if neg then - v else v) (digits_value ds)
      else None
  end.

(** An unsigned decimal literal: [digits[.digits][exponent]] or
    [.digits[exponent]]. *)
Definition parse_decimal (neg : bool) (s : string) : option float :=
  let '(ip, r1) := Re.span Str.isdigit s in
  let '(fp, r2) :=
    match r1 with
    | String c r => if Ascii.eqb c "." then Re.span Str.isdigit r else ("", r1)
    | "" => ("", "")
    end in
  if Str.is_empty ip && Str.is_empty fp then None
  else
    match digits_value (ip ++ fp), parse_exponent r2 with
    | Some n, Some ex => Some (of_decimal neg n (ex - Z.of_nat (String.length fp)))
    | _, _ => None
    end.

(** The white space [float()] and [int()] skip at both ends of a string:
    [\s] without the separators FS..US. *)
Definition isspace_num (c : ascii) : bool :=
  Str.isspace c && negb ((28 <=? Str.code c) && (Str.code c <=? 31))%N.

Definition strip_num (s : string) : string :=
  Str.lstrip_by isspace_num (Str.rstrip_by isspace_num s).

(** Underscores are allowed between two digits only; they are dropped.
    [prev] is the character before [s]. *)
Fixpoint drop_underscores (prev : ascii) (s : string) : option string :=
  match s with
  | "" => if Ascii.eqb prev "_" then None else Some ""
  | String c s' =>
      if Ascii.eqb c "_" then
        if Str.isdigit prev then drop_underscores c s' else None
      else if Ascii.eqb prev "_" && negb (Str.isdigit c) then None
      else option_map (String c) (drop_underscores c s')
  end.

(** [float(s)] for a string: [None] stands for [ValueError]. *)
Definition of_string (s : string) : option float :=
  match drop_underscores zero (strip_num s) with
  | None => None
  | Some t =>
      let '(neg, body) := take_sign t in
      let low := Str.lower body in
      if String.eqb low "inf" || String.eqb low "infinity" then Some (Finf neg)
      else if String.eqb low "nan" then Some Fnan
      else parse_decimal neg body
  end.

(** [int(s)] for a string: an optional sign and digits, underscores
    between digits; [None] stands for [ValueError]. *)
Definition int_of_string (s : string) : option Z :=
  match drop_underscores zero (strip_num s) with
  | None => None
  | Some t =>
      let '(neg, body) := take_sign t in
      if Str.is_empty body then None
      else option_map (fun v => if neg then - v else v) (digits_value body)
  end.

End Float.

(* ================================================================== *)
(** * [evaluator.py]: normaliser, unit extractor, matcher *)

(** [answer_type in ['integer', 'float']] *)
Definition is_numeric_type (answer_type : string) : bool :=
  String.eqb answer_type "integer" || String.eqb answer_type "float".

(** The truth value of a regex group or of a unit: [None] and the empty
    string are falsy. *)
Definition truthy (o : option string) : bool :=
  match o with
  | Some s => negb (Str.is_empty s)
  | None => false
  end.

(** The formatting step that both numeric branches of [normalize_answer]
    spell out: [str(int(num))] when [num == int(num)], and otherwise
    [f"{num:.6f}".rstrip('0').rstrip('.')]. *)
Definition format_number (num : Float.float) : result string :=
  i <- Float.to_int num ;;
  if Float.eq_int num i then Ok (Float.str_of_Z i)
  else Ok (Str.rstrip_char "." (Str.rstrip_char "0" (Float.format_6f num))).

(** The unit conversions written inside [normalize_answer]. *)
Definition normalize_convert (num : Float.float) (unit : option string) : Float.float :=
  if truthy unit then
    let unit_lower := Str.lower (match unit with Some u => u | None => "" end) in
    if String.eqb unit_lower "km" then Float.mul num (Float.of_Z 1000)
    else if String.eqb unit_lower "cm" then Float.div num (Float.of_Z 100)
    else if String.eqb unit_lower "mm" then Float.div num (Float.of_Z 1000)
    else if String.eqb unit_lower "g" then Float.div num (Float.of_Z 1000)
    else if String.eqb unit_lower "mg" then Float.div num (Float.of_Z 1000000)
    else if String.eqb unit_lower "ms" then Float.div num (Float.of_Z 1000)
    else num
  else num.

(** The first four steps of [normalize_answer]: strip, drop a leading [$]
    and [USD], drop a trailing unit word, collapse the white space. *)
Definition clean_answer (answer : string) : string :=
  let answer := Str.strip answer in
  let answer := Re.sub_leading_dollar answer in
  let answer := Re.sub_leading_usd answer in
  let answer := Re.sub_trailing_words answer in
  Str.join " " (Str.split answer).

(** The numeric handling of [normalize_answer], on the cleaned answer. *)
Definition normalize_number (answer : string) : result string :=
  match Re.search_number_unit Re.normalize_units answer with
  | Some (num_str, g2) =>
      let unit := if truthy g2 then g2 else None in
      except_ValueError
        (num <- or_ValueError (Float.of_string num_str) ;;
         format_number (normalize_convert num unit))
        answer
  | None =>
      except_ValueError
        (if Str.has_char "." answer then
           num <- or_ValueError (Float.of_string answer) ;;
           format_number num
         else
           num <- or_ValueError (Float.int_of_string answer) ;;
           Ok (Float.str_of_Z num))
        answer
  end.

Definition normalize_answer (answer : string) (answer_type : string) : result string :=
  if Str.is_empty answer then Ok ""
  else
    let answer := clean_answer answer in
    answer <- (if is_numeric_type answer_type then normalize_number answer
               else Ok answer) ;;
    Ok (Str.lower answer).

Definition extract_number_and_unit (answer : string)
  : option Float.float * option string :=
  let plain :=
    match Float.of_string (Str.strip answer) with
    | Some num => (Some num, None)
    | None => (None, None)
    end in
  match Re.search_number_unit Re.extract_units answer with
  | Some (g1, g2) =>
      match Float.of_string g1 with
      | Some num => (Some num, if truthy g2 then option_map Str.lower g2 else None)
      | None => plain
      end
  | None => plain
  end.

Definition convert_to_base_unit (value : Float.float) (unit : option string) : Float.float :=
  if negb (truthy unit) then value
  else
    let unit := Str.lower (match unit with Some u => u | None => "" end) in
    if String.eqb unit "km" then Float.mul value (Float.of_Z 1000)
    else if String.eqb unit "cm" then Float.div value (Float.of_Z 100)
    else if String.eqb unit "mm" then Float.div value (Float.of_Z 1000)
    else if String.eqb unit "g" then Float.div value (Float.of_Z 1000)
    else if String.eqb unit "mg" then Float.div value (Float.of_Z 1000000)
    else if String.eqb unit "ms" then Float.div value (Float.of_Z 1000)
    else value.

(** The literal [0.001]. *)
Definition tolerance : Float.float := Float.of_decimal false 1 (-3).

(** [abs(x - y) < 0.001] *)
Definition close (x y : Float.float) : bool :=
  Float.ltb (Float.abs (Float.sub x y)) tolerance.

(** The numeric comparison of [answers_match] on the extracted numbers:
    the block under [if num1 is not None and num2 is not None]. *)
Definition numbers_match (num1 : Float.float) (unit1 : option string)
                         (num2 : Float.float) (unit2 : option string) : bool :=
  if close num1 num2 then true
  else if truthy unit1 || truthy unit2 then
    let base1 := if truthy unit1 then convert_to_base_unit num1 unit1 else num1 in
    let base2 := if truthy unit2 then convert_to_base_unit num2 unit2 else num2 in
    if close base1 base2 then true
    else if truthy unit1 && negb (truthy unit2) then
      close (convert_to_base_unit num1 unit1) num2
    else if truthy unit2 && negb (truthy unit1) then
      close num1 (convert_to_base_unit num2 unit2)
    else false
  else false.

(** The fallback of [answers_match]: the normalised strings as floats. *)
Definition fallback_match (norm1 norm2 : string) : bool :=
  match Float.of_string norm1 with
  | None => false
  | Some num1 =>
      match Float.of_string norm2 with
      | None => false
      | Some num2 => close num1 num2
      end
  end.

(** [answers_match] once both normalised forms are known. *)
Definition match_normalized (answer1 answer2 norm1 norm2 answer_type : string) : bool :=
  if String.eqb norm1 norm2 then true
  else if
    (if is_numeric_type answer_type then
       let '(num1, unit1) := extract_number_and_unit answer1 in
       let '(num2, unit2) := extract_number_and_unit answer2 in
       (match num1, num2 with
        | Some n1, Some n2 => numbers_match n1 unit1 n2 unit2
        | _, _ => false
        end)
       || fallback_match norm1 norm2
     else false)
  then true
  else if String.eqb answer_type "string" then
    Str.contains norm1 norm2 || Str.contains norm2 norm1
  else false.

Definition answers_match (answer1 answer2 answer_type : string) : result bool :=
  norm1 <- normalize_answer answer1 answer_type ;;
  norm2 <- normalize_answer answer2 answer_type ;;
  Ok (match_normalized answer1 answer2 norm1 norm2 answer_type).

(* ================================================================== *)
(** * [evaluator.py]: the aggregate metrics *)

(** A Python [dict] with string keys, in insertion order. *)
Definition dict (V : Type) : Type := list (string * V).

Fixpoint dict_get {V : Type} (d : dict V) (k : string) : option V :=
  match d with
  | [] => None
  | (k', v) :: d' => if String.eqb k' k then Some v else dict_get d' k
  end.

(** [k in d] *)
Definition dict_mem {V : Type} (d : dict V) (k : string) : bool :=
  match dict_get d k with Some _ => true | None => false end.

(** [d[k] = v]: an existing key keeps its place. *)
Fixpoint dict_set {V : Type} (d : dict V) (k : string) (v : V) : dict V :=
  match d with
  | [] => [(k, v)]
  | (k', v') :: d' =>
      if String.eqb k' k then (k', v) :: d' else (k', v') :: dict_set d' k v
  end.

Definition dict_keys {V : Type} (d : dict V) : list string := map fst d.

(** A loop whose body may raise. *)
Fixpoint for_each {A S : Type} (body : S -> A -> result S) (xs : list A) (st : S) : result S :=
  match xs with
  | [] => Ok st
  | x :: xs' => st' <- body st x ;; for_each body xs' st'
  end.

(** A list comprehension whose expression may raise. *)
Fixpoint map_result {A B : Type} (f : A -> result B) (xs : list A) : result (list B) :=
  match xs with
  | [] => Ok []
  | x :: xs' => y <- f x ;; ys <- map_result f xs' ;; Ok (y :: ys)
  end.

(** One entry of [problems], as [load_problems] builds it. *)
Record problem : Type := {
  correct_answer : string;
  answer_type : string;
  category : string;
  problem_text : string
}.

(** A first-stage or refined solution: only [final_answer] is read. *)
Record solution : Type := { final_answer : option string }.

(** A final result: only [judgment.winning_answer] is read. *)
Record judgment : Type := { winning_answer : option string }.
Record final_result : Type := { result_judgment : option judgment }.

(** [solution.get('final_answer', '')] *)
Definition get_final_answer (s : solution) : string :=
  match final_answer s with Some a => a | None => "" end.

(** [result_data.get('judgment', {}).get('winning_answer', '')] *)
Definition get_winning_answer (r : final_result) : string :=
  match result_judgment r with
  | Some j => match winning_answer j with Some a => a | None => "" end
  | None => ""
  end.

(** The literal [0.0]. *)
Definition zero_float : Float.float := Float.Ffin false 0 Float.emin.

(** [len(xs)] *)
Definition len {A : Type} (xs : list A) : Z := Z.of_nat (List.length xs).

(* ------------------------------------------------------------------ *)
(** ** [calculate_system_metrics] *)

Record category_metrics : Type := {
  cat_total : Z;
  cat_correct : Z;
  cat_accuracy : Float.float
}.

Record system_metrics : Type := {
  total_problems : Z;
  processed_problems : Z;
  correct_final_answers : Z;
  overall_accuracy : Float.float;
  by_category : dict category_metrics
}.

(** The body of the loop over [results.items()]; the state is
    [(correct_count, metrics['by_category'])]. *)
Definition system_step (problems : dict problem)
    (st : Z * dict category_metrics) (item : string * final_result)
  : result (Z * dict category_metrics) :=
  let '(correct_count, by_cat) := st in
  let '(problem_id, result_data) := item in
  match dict_get problems problem_id with
  | None => Ok st
  | Some p =>
      let winning := get_winning_answer result_data in
      ok1 <- answers_match winning (correct_answer p) (answer_type p) ;;
      let correct_count := if ok1 then correct_count + 1 else correct_count in
      let by_cat :=
        if dict_mem by_cat (category p) then by_cat
        else dict_set by_cat (category p)
               {| cat_total := 0; cat_correct := 0; cat_accuracy := zero_float |} in
      let bump_total (c : category_metrics) :=
        {| cat_total := cat_total c + 1; cat_correct := cat_correct c;
           cat_accuracy := cat_accuracy c |} in
      let bump_correct (c : category_metrics) :=
        {| cat_total := cat_total c; cat_correct := cat_correct c + 1;
           cat_accuracy := cat_accuracy c |} in
      let update (f : category_metrics -> category_metrics) (d : dict category_metrics) :=
        match dict_get d (category p) with
        | Some c => dict_set d (category p) (f c)
        | None => d
        end in
      let by_cat := update bump_total by_cat in
      ok2 <- answers_match winning (correct_answer p) (answer_type p) ;;
      Ok (correct_count, if ok2 then update bump_correct by_cat else by_cat)
  end.

(** The last loop: [cat_data['accuracy'] = cat_data['correct'] / cat_data['total']]. *)
Definition set_category_accuracy (c : category_metrics) : category_metrics :=
  if 0 <? cat_total c then
    {| cat_total := cat_total c; cat_correct := cat_correct c;
       cat_accuracy := Float.int_truediv (cat_correct c) (cat_total c) |}
  else c.

Definition calculate_system_metrics (problems : dict problem) (results : dict final_result)
  : result system_metrics :=
  st <- for_each (system_step problems) results (0, []) ;;
  let '(correct_count, by_cat) := st in
  Ok {| total_problems := len problems;
        processed_problems := len results;
        correct_final_answers := correct_count;
        overall_accuracy :=
          if 0 <? len results then Float.int_truediv correct_count (len results)
          else zero_float;
        by_category := map (fun kv => (fst kv, set_category_accuracy (snd kv))) by_cat |}.

(* ------------------------------------------------------------------ *)
(** ** [calculate_improvement_rate] *)

Record improvement_metrics : Type := {
  total_with_refinement : Z;
  improved : Z;
  worsened : Z;
  unchanged : Z;
  improvement_rate : Float.float
}.

(** [{solver_id: s.get('final_answer', '') for solver_id, s in d.items()}],
    built by assignment as in the source. *)
Definition answers_of (d : dict solution) : dict string :=
  fold_left (fun acc kv => dict_set acc (fst kv) (get_final_answer (snd kv))) d [].

(** The body of [for solver_id in original_answers]; the state is
    [(any_improved, any_worsened)]. *)
Definition score_solver (p : problem) (refined_answers : dict string)
    (flags : bool * bool) (item : string * string) : result (bool * bool) :=
  let '(any_improved, any_worsened) := flags in
  let '(solver_id, original) := item in
  let refined :=
    match dict_get refined_answers solver_id with
    | Some r => r
    | None => original
    end in
  original_correct <- answers_match original (correct_answer p) (answer_type p) ;;
  refined_correct <- answers_match refined (correct_answer p) (answer_type p) ;;
  if negb original_correct && refined_correct then Ok (true, any_worsened)
  else if original_correct && negb refined_correct then Ok (any_improved, true)
  else Ok (any_improved, any_worsened).

(** The counters of [metrics] before the final ratio. *)
Definition improvement_counts : Type := (Z * Z * Z * Z)%type.

(** The body of [for problem_id in stage1_solutions]. *)
Definition improvement_step (problems : dict problem)
    (refined_solutions : dict (dict solution))
    (st : improvement_counts) (item : string * dict solution)
  : result improvement_counts :=
  let '(total, imp, wors, unch) := st in
  let '(problem_id, solutions) := item in
  match dict_get problems problem_id, dict_get refined_solutions problem_id with
  | Some p, Some refined =>
      let original_answers := answers_of solutions in
      let refined_answers := answers_of refined in
      flags <- for_each (score_solver p refined_answers) original_answers (false, false) ;;
      let '(any_improved, any_worsened) := flags in
      if any_improved then Ok (total + 1, imp + 1, wors, unch)
      else if any_worsened then Ok (total + 1, imp, wors + 1, unch)
      else Ok (total + 1, imp, wors, unch + 1)
  | _, _ => Ok st
  end.

Definition calculate_improvement_rate (problems : dict problem)
    (stage1_solutions refined_solutions : dict (dict solution))
  : result improvement_metrics :=
  st <- for_each (improvement_step problems refined_solutions) stage1_solutions (0, 0, 0, 0) ;;
  let '(total, imp, wors, unch) := st in
  Ok {| total_with_refinement := total;
        improved := imp;
        worsened := wors;
        unchanged := unch;
        improvement_rate :=
          if 0 <? total then Float.int_truediv imp total else zero_float |}.

(* ------------------------------------------------------------------ *)
(** ** [calculate_consensus_rate] *)

Record consensus_metrics : Type := {
  total : Z;
  full_consensus : Z;
  partial_consensus : Z;
  no_consensus : Z;
  consensus_rate : Float.float
}.

(** [len(set(xs))] *)
Definition count_unique (xs : list string) : nat :=
  List.length (nodup string_dec xs).

Definition consensus_counts : Type := (Z * Z * Z * Z)%type.

(** The body of [for problem_id in stage1_solutions]; [results] is [None]
    when the caller passes no results. *)
Definition consensus_step (problems : dict problem) (results : option (dict final_result))
    (st : consensus_counts) (item : string * dict solution)
  : result consensus_counts :=
  let '(tot, full, part, none) := st in
  let '(problem_id, solutions) := item in
  match dict_get problems problem_id with
  | None => Ok st
  | Some p =>
      if match results with
         | Some rs => negb (dict_mem rs problem_id)
         | None => false
         end
      then Ok st
      else
        let answers := map (fun kv => get_final_answer (snd kv)) solutions in
        normalized <- map_result (fun a => normalize_answer a (answer_type p)) answers ;;
        let unique_answers := count_unique normalized in
        if Nat.eqb unique_answers 1 then Ok (tot + 1, full + 1, part, none)
        else if Nat.eqb unique_answers 2 then Ok (tot + 1, full, part + 1, none)
        else Ok (tot + 1, full, part, none + 1)
  end.

Definition calculate_consensus_rate (problems : dict problem)
    (stage1_solutions : dict (dict solution)) (results : option (dict final_result))
  : result consensus_metrics :=
  st <- for_each (consensus_step problems results) stage1_solutions (0, 0, 0, 0) ;;
  let '(tot, full, part, none) := st in
  Ok {| total := tot;
        full_consensus := full;
        partial_consensus := part;
        no_consensus := none;
        consensus_rate :=
          if 0 <? tot then Float.int_truediv full tot else zero_float |}.

(* ================================================================== *)
(** * Sample data and reference counts *)

(** The floats 1.0005 and 5.0. *)
Definition f_1_0005 : Float.float := Float.of_decimal false 10005 (-4).
Definition f_5 : Float.float := Float.of_Z 5.

(** The answer made of 309 nines: a number above the largest float. *)
Definition huge_answer : string := Str.repeat "9" 309.

Definition math_001 : problem :=
  {| correct_answer := "34"; answer_type := "integer";
     category := "math"; problem_text := "" |}.

Definition one_problem : dict problem := [ ("math_001", math_001) ].

Definition answered (a : string) : final_result :=
  {| result_judgment := Some {| winning_answer := Some a |} |}.

(** Two results, the second for a problem that is not in [problems]. *)
Definition two_results : dict final_result :=
  [ ("math_001", answered "34"); ("math_999", answered "34") ].

(** The number of results the loop of [calculate_system_metrics] evaluates:
    those whose problem id is in [problems]. *)
Definition evaluated_results (problems : dict problem) (results : dict final_result) : Z :=
  len (filter (fun kv => dict_mem problems (fst kv)) results).

(** The solvers of [original_answers] that have a refined answer. *)
Definition with_refined (refined_answers : dict string) (original_answers : dict string)
  : dict string :=
  filter (fun kv => dict_mem refined_answers (fst kv)) original_answers.

(** Only the first solver has a refined candidate. *)
Definition refined_math_001 : dict solution :=
  [ ("solver_1", {| final_answer := Some "34" |}) ].

Definition stage1_math_001 : dict solution :=
  [ ("solver_1", {| final_answer := Some "35" |});
    ("solver_2", {| final_answer := Some "34" |}) ].


(** Characters that are no digit, and that are neither digit nor dot. *)
Definition not_digit (c : ascii) : bool := negb (Str.isdigit c).
Definition not_numch (c : ascii) : bool := negb (Re.isnumch c).

(** The three outcomes of the consensus classification. *)
Inductive consensus : Type :=
| FullConsensus
| PartialConsensus
| NoConsensus.

Definition consensus_eqb (c c' : consensus) : bool :=
  match c, c' with
  | FullConsensus, FullConsensus
  | PartialConsensus, PartialConsensus
  | NoConsensus, NoConsensus => true
  | _, _ => false
  end.

(** The classification by the number of distinct normalised answers. *)
Definition classify_unique (unique_answers : nat) : consensus :=
  if Nat.eqb unique_answers 1 then FullConsensus
  else if Nat.eqb unique_answers 2 then PartialConsensus
  else NoConsensus.

(** The first-stage answers of one problem, normalised and classified. *)
Definition classify_problem (ps : problem * dict solution) : result consensus :=
  let '(p, solutions) := ps in
  normalized <- map_result (fun a => normalize_answer a (answer_type p))
                           (map (fun kv => get_final_answer (snd kv)) solutions) ;;
  Ok (classify_unique (count_unique normalized)).

(** The problems the loop of [calculate_consensus_rate] does not skip:
    those of [stage1_solutions] that are in [problems], and in [results]
    when results are passed. *)
Fixpoint consensus_eligible (problems : dict problem) (results : option (dict final_result))
    (stage1_solutions : dict (dict solution)) : list (problem * dict solution) :=
  match stage1_solutions with
  | [] => []
  | (problem_id, solutions) :: rest =>
      let tail := consensus_eligible problems results rest in
      match dict_get problems problem_id with
      | None => tail
      | Some p =>
          if match results with
             | Some rs => dict_mem rs problem_id
             | None => true
             end
          then (p, solutions) :: tail
          else tail
      end
  end.

Definition count_class (c : consensus) (classes : list consensus) : Z :=
  len (filter (consensus_eqb c) classes).

(** The metrics that a list of classified problems gives. *)
Definition consensus_of_classes (classes : list consensus) : consensus_metrics :=
  {| total := len classes;
     full_consensus := count_class FullConsensus classes;
     partial_consensus := count_class PartialConsensus classes;
     no_consensus := count_class NoConsensus classes;
     consensus_rate :=
       if 0 <? len classes
       then Float.int_truediv (count_class FullConsensus classes) (len classes)
       else zero_float |}.

(** The total the specification describes: the eligible problems whose
    first-stage candidates come from exactly three agents. *)
Definition consensus_total_spec (problems : dict problem) (results : option (dict final_result))
    (stage1_solutions : dict (dict solution)) : Z :=
  len (filter (fun ps => Nat.eqb (List.length (snd ps)) 3)
              (consensus_eligible problems results stage1_solutions)).

Definition solved (a : string) : solution := {| final_answer := Some a |}.

(** One problem answered by two agents only. *)
Definition stage1_two_agents : dict (dict solution) :=
  [ ("math_001", [ ("solver_1", solved "34"); ("solver_2", solved "34") ]) ].

(** One problem answered by three agents, two of them agreeing. *)
Definition stage1_34_34_35 : dict (dict solution) :=
  [ ("math_001", [ ("solver_1", solved "34"); ("solver_2", solved "34");
                   ("solver_3", solved "35") ]) ].

Definition stage1_1_1_1 : dict (dict solution) :=
  [ ("math_001", [ ("solver_1", solved "1"); ("solver_2", solved "1");
                   ("solver_3", solved "1") ]) ].

(* ================================================================== *)
(** * The real value of a float *)

(** [2^e] as a real number. *)
Definition bpow (e : Z) : R := powerRZ 2 e.

(** The value of the non-negative float with mantissa [m] and exponent [e]. *)
Definition F2R (m e : Z) : R := (IZR m * bpow e)%R.

(** [M] is an integer nearest to the real [w], and even when [w] is
    half-way between two integers. *)
Definition nearest_even (w : R) (M : Z) : Prop :=
  (Rabs (IZR M - w) <= / 2 /\ (Rabs (IZR M - w) = / 2 -> Z.even M = true))%R.

(** A finite, non-negative binary64 value. *)
Definition finite_nonneg (x : Float.float) : Prop :=
  exists m e : Z,
    x = Float.Ffin false m e /\ 0 <= m < 2 ^ 53 /\ Float.emin <= e <= Float.emax.

(** A non-negative binary64 value that is not [nan]. *)
Definition nonneg_number (x : Float.float) : Prop :=
  x = Float.Finf false \/ finite_nonneg x.


(* ================================================================== *)
(** * [evaluator.py]: the majority vote and the judge *)

(** [Counter(xs)]: the number of occurrences of every element, keyed in
    the order of first occurrence. *)
Definition Counter (xs : list string) : dict Z :=
  fold_left
    (fun counts x =>
       dict_set counts x (match dict_get counts x with
                          | Some n => n + 1
                          | None => 1
                          end))
    xs [].

(** [max(items, key=count)], starting from [best]: a later item replaces
    the best one only with a strictly greater count. *)
Fixpoint max_item (best : string * Z) (items : dict Z) : string * Z :=
  match items with
  | [] => best
  | it :: rest => if snd best <? snd it then max_item it rest else max_item best rest
  end.

(** [counts.most_common(1)[0][0]].  On an empty counter Python raises
    [IndexError]; both uses in the evaluator have a counter that is not
    empty. *)
Definition most_common_first (counts : dict Z) : string :=
  match counts with
  | [] => ""
  | it :: rest => fst (max_item it rest)
  end.

(** The number of occurrences of [x] in [xs]. *)
Definition occurrences (x : string) (xs : list string) : Z :=
  len (filter (String.eqb x) xs).

(* ------------------------------------------------------------------ *)
(** ** [calculate_majority_vote_baseline] *)

Record baseline_metrics : Type := {
  baseline_answers : dict string;
  baseline_correct : Z;
  baseline_total : Z;
  baseline_accuracy : Float.float
}.

(** The body of [for problem_id in stage1_solutions]; the state is
    [(baseline_results, correct)]. *)
Definition majority_step (problems : dict problem) (results : option (dict final_result))
    (st : dict string * Z) (item : string * dict solution)
  : result (dict string * Z) :=
  let '(baseline_results, correct) := st in
  let '(problem_id, solutions) := item in
  match dict_get problems problem_id with
  | None => Ok st
  | Some p =>
      if match results with
         | Some rs => negb (dict_mem rs problem_id)
         | None => false
         end
      then Ok st
      else
        let answers := map (fun kv => get_final_answer (snd kv)) solutions in
        normalized <- map_result (fun a => normalize_answer a (answer_type p)) answers ;;
        let answer_counts := Counter normalized in
        match answer_counts with
        | [] => Ok st
        | _ :: _ =>
            let majority_answer := most_common_first answer_counts in
            let baseline_results := dict_set baseline_results problem_id majority_answer in
            ok <- answers_match majority_answer (correct_answer p) (answer_type p) ;;
            Ok (baseline_results, if ok then correct + 1 else correct)
        end
  end.

Definition calculate_majority_vote_baseline (problems : dict problem)
    (stage1_solutions : dict (dict solution)) (results : option (dict final_result))
  : result baseline_metrics :=
  st <- for_each (majority_step problems results) stage1_solutions ([], 0) ;;
  let '(baseline_results, correct) := st in
  Ok {| baseline_answers := baseline_results;
        baseline_correct := correct;
        baseline_total := len baseline_results;
        baseline_accuracy :=
          match baseline_results with
          | [] => zero_float
          | _ :: _ => Float.int_truediv correct (len baseline_results)
          end |}.

(* ------------------------------------------------------------------ *)
(** ** [calculate_judge_accuracy] *)

Record judge_metrics : Type := {
  total_disagreements : Z;
  judge_correct : Z;
  judge_accuracy : Float.float;
  majority_vote_correct : Z;
  majority_vote_accuracy : Float.float
}.

(** The body of [for problem_id in results]; the state is
    [(total_disagreements, judge_correct, majority_vote_correct)], and
    [results[problem_id]] is the value of the item. *)
Definition judge_step (problems : dict problem) (stage1_solutions : dict (dict solution))
    (st : Z * Z * Z) (item : string * final_result) : result (Z * Z * Z) :=
  let '(tot, jc, mc) := st in
  let '(problem_id, result_data) := item in
  match dict_get problems problem_id, dict_get stage1_solutions problem_id with
  | Some p, Some solutions =>
      let answers := map (fun kv => get_final_answer (snd kv)) solutions in
      normalized <- map_result (fun a => normalize_answer a (answer_type p)) answers ;;
      let unique_answers := count_unique normalized in
      if Nat.ltb 1 unique_answers then
        let winning_answer := get_winning_answer result_data in
        judge_ok <- answers_match winning_answer (correct_answer p) (answer_type p) ;;
        let majority_answer := most_common_first (Counter normalized) in
        majority_ok <- answers_match majority_answer (correct_answer p) (answer_type p) ;;
        Ok (tot + 1,
            if judge_ok then jc + 1 else jc,
            if majority_ok then mc + 1 else mc)
      else Ok st
  | _, _ => Ok st
  end.

Definition calculate_judge_accuracy (problems : dict problem)
    (results : dict final_result) (stage1_solutions : dict (dict solution))
  : result judge_metrics :=
  st <- for_each (judge_step problems stage1_solutions) results (0, 0, 0) ;;
  let '(tot, jc, mc) := st in
  Ok {| total_disagreements := tot;
        judge_correct := jc;
        judge_accuracy := if 0 <? tot then Float.int_truediv jc tot else zero_float;
        majority_vote_correct := mc;
        majority_vote_accuracy :=
          if 0 <? tot then Float.int_truediv mc tot else zero_float |}.

(* ------------------------------------------------------------------ *)
(** ** Sums over the categories, and the tests of the improvement loop *)

(** The sum of [f] over the values of a dictionary. *)
Definition dict_sum {V : Type} (f : V -> Z) (d : dict V) : Z :=
  fold_right (fun kv acc => f (snd kv) + acc) 0 d.

(** The entry of a category after one more evaluated result, correct or
    not; [old] is the entry before, if there is one. *)
Definition count_result (old : option category_metrics) (ok : bool) : category_metrics :=
  let c := match old with
           | Some c => c
           | None => {| cat_total := 0; cat_correct := 0; cat_accuracy := zero_float |}
           end in
  {| cat_total := cat_total c + 1;
     cat_correct := if ok then cat_correct c + 1 else cat_correct c;
     cat_accuracy := cat_accuracy c |}.

(** The refined answer the improvement loop compares with [original]. *)
Definition refined_or_original (refined_answers : dict string) (item : string * string)
  : string :=
  match dict_get refined_answers (fst item) with
  | Some r => r
  | None => snd item
  end.

(** A solver whose answer went from incorrect to correct. *)
Definition solver_improved (p : problem) (refined_answers : dict string)
    (item : string * string) : bool :=
  match answers_match (snd item) (correct_answer p) (answer_type p),
        answers_match (refined_or_original refined_answers item)
                      (correct_answer p) (answer_type p) with
  | Ok original_correct, Ok refined_correct => negb original_correct && refined_correct
  | _, _ => false
  end.

(** A solver whose answer went from correct to incorrect. *)
Definition solver_worsened (p : problem) (refined_answers : dict string)
    (item : string * string) : bool :=
  match answers_match (snd item) (correct_answer p) (answer_type p),
        answers_match (refined_or_original refined_answers item)
                      (correct_answer p) (answer_type p) with
  | Ok original_correct, Ok refined_correct => original_correct && negb refined_correct
  | _, _ => false
  end.

(** The problems of the first stage that [calculate_improvement_rate]
    scores: those in [problems] and in the refined collection. *)
Definition improvement_eligible (problems : dict problem)
    (refined_solutions stage1_solutions : dict (dict solution)) : dict (dict solution) :=
  filter (fun kv => dict_mem problems (fst kv) && dict_mem refined_solutions (fst kv))
         stage1_solutions.

Definition two_problems_stage1 : dict (dict solution) :=
  [ ("math_001", [ ("solver_1", solved "35"); ("solver_2", solved "34");
                   ("solver_3", solved "34 ways") ]);
    ("math_999", [ ("solver_1", solved "1") ]) ].

(** What [normalize_answer] returns for a non-numeric answer type. *)
Definition normal_form (answer : string) : string :=
  if Str.is_empty answer then "" else Str.lower (clean_answer answer).

(** Two solvers of one problem: the first goes from 35 to the correct 34,
    the second from 34 to 35. *)
Definition stage1_mixed : dict (dict solution) :=
  [ ("math_001", [ ("solver_1", solved "35"); ("solver_2", solved "34") ]) ].

Definition refined_mixed : dict (dict solution) :=
  [ ("math_001", [ ("solver_1", solved "34"); ("solver_2", solved "35") ]) ].

(** The first-stage answers of one problem, as the loops collect them. *)
Definition stage1_answers (solutions : dict solution) : list string :=
  map (fun kv => get_final_answer (snd kv)) solutions.

(** The problems for which [calculate_majority_vote_baseline] records an
    answer: those of the first stage that are in [problems], in [results]
    when results are passed, and have at least one solution. *)
Definition baseline_eligible (problems : dict problem) (results : option (dict final_result))
    (stage1_solutions : dict (dict solution)) : dict (dict solution) :=
  filter (fun kv =>
            dict_mem problems (fst kv)
            && match results with
               | Some rs => dict_mem rs (fst kv)
               | None => true
               end
            && match snd kv with
               | [] => false
               | _ :: _ => true
               end)
         stage1_solutions.

(* ------------------------------------------------------------------ *)
(** ** The tests behind the counters *)

(** Whether [answer] matches the correct answer of [p]; false when the
    matcher raises. *)
Definition is_correct (p : problem) (answer : string) : bool :=
  match answers_match answer (correct_answer p) (answer_type p) with
  | Ok b => b
  | Raise _ => false
  end.

(** A result whose problem is known and of category [c]. *)
Definition evaluated_in (problems : dict problem) (c : string)
    (item : string * final_result) : bool :=
  match dict_get problems (fst item) with
  | Some p => String.eqb (category p) c
  | None => false
  end.

(** A result whose problem is known and whose winning answer is correct. *)
Definition winning_answer_correct (problems : dict problem)
    (item : string * final_result) : bool :=
  match dict_get problems (fst item) with
  | Some p => is_correct p (get_winning_answer (snd item))
  | None => false
  end.

(** The normalised first-stage answers of a problem. *)
Definition normalized_answers (p : problem) (solutions : dict solution)
  : result (list string) :=
  map_result (fun a => normalize_answer a (answer_type p)) (stage1_answers solutions).

(** A result on whose problem the first-stage solvers disagree: the
    problem is known, has first-stage solutions, and these normalise to
    more than one distinct answer. *)
Definition disagreement (problems : dict problem) (stage1_solutions : dict (dict solution))
    (item : string * final_result) : bool :=
  match dict_get problems (fst item), dict_get stage1_solutions (fst item) with
  | Some p, Some solutions =>
      match normalized_answers p solutions with
      | Ok normalized => Nat.ltb 1 (count_unique normalized)
      | Raise _ => false
      end
  | _, _ => false
  end.

(** The most common normalised answer of [solutions] is correct for [p]. *)
Definition plurality_correct (p : problem) (solutions : dict solution) : bool :=
  match normalized_answers p solutions with
  | Ok normalized => is_correct p (most_common_first (Counter normalized))
  | Raise _ => false
  end.

(** A result for whose problem the most common first-stage answer is
    correct. *)
Definition majority_vote_right (problems : dict problem)
    (stage1_solutions : dict (dict solution)) (item : string * final_result) : bool :=
  match dict_get problems (fst item), dict_get stage1_solutions (fst item) with
  | Some p, Some solutions => plurality_correct p solutions
  | _, _ => false
  end.

(** A first-stage entry whose problem is known and whose most common
    answer is correct. *)
Definition entry_plurality_correct (problems : dict problem)
    (entry : string * dict solution) : bool :=
  match dict_get problems (fst entry) with
  | Some p => plurality_correct p (snd entry)
  | None => false
  end.

(** A first-stage entry with a solver that improved, and one with a
    solver that worsened, against the refined solutions of its problem. *)
Definition entry_improved (problems : dict problem) (refined_solutions : dict (dict solution))
    (entry : string * dict solution) : bool :=
  match dict_get problems (fst entry), dict_get refined_solutions (fst entry) with
  | Some p, Some refined =>
      existsb (solver_improved p (answers_of refined)) (answers_of (snd entry))
  | _, _ => false
  end.

Definition entry_worsened (problems : dict problem) (refined_solutions : dict (dict solution))
    (entry : string * dict solution) : bool :=
  match dict_get problems (fst entry), dict_get refined_solutions (fst entry) with
  | Some p, Some refined =>
      existsb (solver_worsened p (answers_of refined)) (answers_of (snd entry))
  | _, _ => false
  end.

(** The total and the correct count of a category in [d], zero when the
    category is not there. *)
Definition total_in (d : dict category_metrics) (c : string) : Z :=
  match dict_get d c with Some e => cat_total e | None => 0 end.

Definition correct_in (d : dict category_metrics) (c : string) : Z :=
  match dict_get d c with Some e => cat_correct e | None => 0 end.

(* ------------------------------------------------------------------ *)
(** ** The whole-string parse of [normalize_answer] *)

(** The [else] branch of the numeric handling of [normalize_answer]
    ("No unit, just try to parse as number"), on the cleaned answer. *)
Definition parse_plain_number (answer : string) : result string :=
  except_ValueError
    (if Str.has_char "." answer then
       num <- or_ValueError (Float.of_string answer) ;;
       format_number num
     else
       num <- or_ValueError (Float.int_of_string answer) ;;
       Ok (Float.str_of_Z num))
    answer.

(* ------------------------------------------------------------------ *)
(** ** The solvers that have a refined candidate *)

(** A first-stage entry with a solver, among those that have a refined
    candidate, that improved; and one with such a solver that worsened. *)
Definition refined_solver_improved (problems : dict problem)
    (refined_solutions : dict (dict solution)) (entry : string * dict solution) : bool :=
  match dict_get problems (fst entry), dict_get refined_solutions (fst entry) with
  | Some p, Some refined =>
      existsb (solver_improved p (answers_of refined))
              (with_refined (answers_of refined) (answers_of (snd entry)))
  | _, _ => false
  end.

Definition refined_solver_worsened (problems : dict problem)
    (refined_solutions : dict (dict solution)) (entry : string * dict solution) : bool :=
  match dict_get problems (fst entry), dict_get refined_solutions (fst entry) with
  | Some p, Some refined =>
      existsb (solver_worsened p (answers_of refined))
              (with_refined (answers_of refined) (answers_of (snd entry)))
  | _, _ => false
  end.

(* ------------------------------------------------------------------ *)
(** ** More sample data *)

Definition math_002 : problem :=
  {| correct_answer := "1"; answer_type := "integer";
     category := "math"; problem_text := "" |}.

Definition two_known_problems : dict problem :=
  [ ("math_001", math_001); ("math_002", math_002) ].

(** Two problems answered by three agents each: 34, 34, 35 and 1, 1, 1. *)
Definition stage1_two_known : dict (dict solution) :=
  [ ("math_001", [ ("solver_1", solved "34"); ("solver_2", solved "34");
                   ("solver_3", solved "35") ]);
    ("math_002", [ ("solver_1", solved "1"); ("solver_2", solved "1");
                   ("solver_3", solved "1") ]) ].

(** Only the first problem reached a final result. *)
Definition results_math_001 : dict final_result := [ ("math_001", answered "34") ].

(** A problem that nobody answered. *)
Definition stage1_unanswered : dict (dict solution) := [ ("math_001", []) ].

(** A refined collection that knows the problem but refined no solver. *)
Definition refined_nobody : dict (dict solution) := [ ("math_001", []) ].
(* ================================================================== *)
(** * Properties of the float operations *)

Section FloatFacts.

Import Float.

(** The sign given to [round_float] only ends up in the sign of the result. *)
Lemma abs_round_float (s s' : bool) (n d : Z) :
  abs (round_float s n d) = abs (round_float s' n d).
Proof.
  unfold round_float.
  destruct (n =? 0); [reflexivity|].
  destruct (scale2 n d _) as [a b].
  destruct (if rhe a b =? 2 ^ 53 then _ else _) as [m' e'].
  destruct (emax <? e'); reflexivity.
Qed.

Lemma abs_round_m2e (s s' : bool) (m e : Z) :
  abs (round_m2e s m e) = abs (round_m2e s' m e).
Proof.
  unfold round_m2e. destruct (scale2 m 1 (- e)). apply abs_round_float.
Qed.

(** [abs(x - y) == abs(y - x)], bit for bit. *)
Lemma abs_sub_comm (x y : float) : abs (sub x y) = abs (sub y x).
Proof.
  destruct x as [|s|s m e], y as [|t|t m' e']; simpl; try reflexivity.
  - destruct s, t; reflexivity.
  - unfold align. rewrite (Z.min_comm e' e).
    set (a := if s then _ else _). set (b := if t then _ else _).
    replace (b - a) with (- (a - b)) by lia.
    destruct (Z.eqb_spec (a - b) 0) as [E|E].
    + rewrite E. reflexivity.
    + destruct (Z.eqb_spec (- (a - b)) 0) as [E'|E']; [lia|].
      rewrite Z.abs_opp. apply abs_round_m2e.
Qed.

End FloatFacts.

(** The arithmetic agrees with [SpecFloat] at binary64 on the values the
    examples of the specification go through. *)
Example float_agrees_with_SpecFloat :
  Float.to_spec (Float.sub f_1_0005 (Float.of_Z 1))
  = SFsub 53 1024 (Float.to_spec f_1_0005) (Float.to_spec (Float.of_Z 1))
  /\ Float.to_spec (Float.sub (Float.of_Z 1) f_1_0005)
     = SFsub 53 1024 (Float.to_spec (Float.of_Z 1)) (Float.to_spec f_1_0005)
  /\ Float.to_spec (Float.mul f_5 (Float.of_Z 1000))
     = SFmul 53 1024 (Float.to_spec f_5) (Float.to_spec (Float.of_Z 1000))
  /\ Float.to_spec (Float.div f_5 (Float.of_Z 100))
     = SFdiv 53 1024 (Float.to_spec f_5) (Float.to_spec (Float.of_Z 100))
  /\ Float.to_spec (Float.div f_1_0005 (Float.of_Z 1000000))
     = SFdiv 53 1024 (Float.to_spec f_1_0005) (Float.to_spec (Float.of_Z 1000000))
  /\ Float.to_spec tolerance
     = SFdiv 53 1024 (Float.to_spec (Float.of_Z 1)) (Float.to_spec (Float.of_Z 1000))
  /\ Float.ltb (Float.abs (Float.sub f_1_0005 (Float.of_Z 1))) tolerance
     = SFltb (SFabs (SFsub 53 1024 (Float.to_spec f_1_0005) (Float.to_spec (Float.of_Z 1))))
             (Float.to_spec tolerance).
Proof. repeat split; vm_compute; reflexivity. Qed.

(* ================================================================== *)
(** * The matcher is symmetric *)

Lemma close_sym (x y : Float.float) : close x y = close y x.
Proof. unfold close. now rewrite abs_sub_comm. Qed.

Lemma numbers_match_sym (n1 : Float.float) (u1 : option string)
                        (n2 : Float.float) (u2 : option string) :
  numbers_match n1 u1 n2 u2 = numbers_match n2 u2 n1 u1.
Proof.
  unfold numbers_match.
  rewrite (close_sym n2 n1).
  destruct (close n1 n2); [reflexivity|].
  destruct (truthy u1), (truthy u2); simpl; try reflexivity.
  - rewrite (close_sym (convert_to_base_unit n2 u2)). reflexivity.
  - rewrite (close_sym n2). reflexivity.
  - rewrite (close_sym (convert_to_base_unit n2 u2)). reflexivity.
Qed.

Lemma fallback_match_sym (norm1 norm2 : string) :
  fallback_match norm1 norm2 = fallback_match norm2 norm1.
Proof.
  unfold fallback_match.
  destruct (Float.of_string norm1), (Float.of_string norm2); try reflexivity.
  apply close_sym.
Qed.

Lemma match_normalized_sym (a1 a2 n1 n2 t : string) :
  match_normalized a1 a2 n1 n2 t = match_normalized a2 a1 n2 n1 t.
Proof.
  unfold match_normalized.
  rewrite (String.eqb_sym n2 n1).
  destruct (String.eqb n1 n2); [reflexivity|].
  rewrite (fallback_match_sym n2 n1), (orb_comm (Str.contains n2 n1)).
  destruct (is_numeric_type t); [|reflexivity].
  destruct (extract_number_and_unit a1) as [[x1|] u1],
           (extract_number_and_unit a2) as [[x2|] u2]; try reflexivity.
  now rewrite (numbers_match_sym x2 u2 x1 u1).
Qed.

(** [except ValueError] lets nothing but [OverflowError] through. *)
Lemma except_ValueError_raises {A : Type} (body : result A) (dflt : A) (e : exn) :
  except_ValueError body dflt = Raise e -> e = OverflowError.
Proof.
  destruct body as [v|[|]]; simpl; intros H; inversion H; reflexivity.
Qed.

Lemma normalize_answer_raises (a t : string) (e : exn) :
  normalize_answer a t = Raise e -> e = OverflowError.
Proof.
  unfold normalize_answer.
  destruct (Str.is_empty a); [discriminate|].
  destruct (is_numeric_type t); [|discriminate].
  unfold normalize_number.
  destruct (Re.search_number_unit _ _) as [[num_str g2]|];
    match goal with
    | |- context [except_ValueError ?b ?d] =>
        destruct (except_ValueError b d) as [v|e'] eqn:E; simpl;
        [discriminate | intros H; inversion H; subst; eapply except_ValueError_raises, E]
    end.
Qed.

(** C1: the matcher is symmetric.  For all answer strings [a] and [b] and
    every answer type [t] (integer, float, string, or any other tag),
    [answers_match a b t] and [answers_match b a t] are the same outcome:
    the same boolean, or the same exception when a normalisation raises. *)
Theorem answers_match_symmetric (a b t : string) :
  answers_match a b t = answers_match b a t.
Proof.
  unfold answers_match.
  destruct (normalize_answer a t) as [na|ea] eqn:Ea,
           (normalize_answer b t) as [nb|eb] eqn:Eb; simpl; try reflexivity.
  - now rewrite match_normalized_sym.
  - apply normalize_answer_raises in Ea, Eb. congruence.
Qed.

(* ================================================================== *)
(** * Units: what the extractor reads *)

(** C2: a millisecond or milligram suffix is read as metres.  In the unit
    alternation [m] stands before [mg] and [ms], so on ["5 ms"] and
    ["5 mg"] the extractor returns the unit ["m"], and normalisation leaves
    the number as it is: ["5"], where the conversion table asks for
    ["0.005"] and ["0.000005"]. *)
Theorem ms_and_mg_are_read_as_m :
  extract_number_and_unit "5 ms" = (Some (Float.of_Z 5), Some "m")
  /\ normalize_answer "5 ms" "float" = Ok "5"
  /\ extract_number_and_unit "5 mg" = (Some (Float.of_Z 5), Some "m")
  /\ normalize_answer "5 mg" "float" = Ok "5"
  /\ format_number (Float.div (Float.of_Z 5) (Float.of_Z 1000)) = Ok "0.005"
  /\ format_number (Float.div (Float.of_Z 5) (Float.of_Z 1000000)) = Ok "0.000005".
Proof. repeat split; vm_compute; reflexivity. Qed.

(* ================================================================== *)
(** * The empty answer *)

(** C3: the empty answer matches every string-typed answer.  With type
    [string] the containment test [norm1 in norm2] holds for the empty
    [norm1], so [answers_match "" "abc" "string"] is true although ["abc"]
    does not normalise to the empty string. *)
Theorem empty_answer_matches_any_string :
  answers_match "" "abc" "string" = Ok true
  /\ normalize_answer "abc" "string" = Ok "abc"
  /\ normalize_answer "" "string" = Ok "".
Proof. repeat split; vm_compute; reflexivity. Qed.

(** With a numeric type the empty answer only matches an answer that
    normalises to the empty string. *)
Lemma empty_answer_numeric (b t : string) :
  is_numeric_type t = true ->
  answers_match "" b t = Ok true -> normalize_answer b t = Ok "".
Proof.
  intros Ht. unfold answers_match. cbn [normalize_answer Str.is_empty bind].
  destruct (normalize_answer b t) as [nb|e]; cbn [bind]; [|discriminate].
  unfold match_normalized. rewrite Ht.
  destruct (String.eqb_spec "" nb) as [<-|N]; [reflexivity|].
  assert (Et : String.eqb t "string" = false).
  { unfold is_numeric_type in Ht. apply orb_true_iff in Ht as [H|H];
      apply String.eqb_eq in H; subst; reflexivity. }
  rewrite Et.
  replace (extract_number_and_unit "") with (@None Float.float, @None string)
    by (vm_compute; reflexivity).
  destruct (extract_number_and_unit b) as [n2 u2].
  replace (fallback_match "" nb) with false by reflexivity.
  discriminate.
Qed.

(** The examples of the specification that hold as they are written. *)
Example specification_examples :
  answers_match "100 cm" "1 m" "float" = Ok true
  /\ answers_match "1000 mm" "1 m" "float" = Ok true
  /\ answers_match "The teacher" "the teacher has the fish" "string" = Ok true
  /\ answers_match "34 ways" "34" "integer" = Ok true
  /\ answers_match "10 m/s" "10.0" "float" = Ok true.
Proof. repeat split; vm_compute; reflexivity. Qed.

(* ================================================================== *)
(** * The tolerance *)


(* ================================================================== *)
(** * Totality *)

(** C7: normalisation raises on a number that is too large.  The digits of
    [huge_answer] parse to the float infinity, [int(num)] raises
    [OverflowError], and the handler only catches [ValueError]; the
    extractor returns [(inf, None)] on the same input. *)
Theorem normalize_answer_overflows :
  normalize_answer huge_answer "float" = Raise OverflowError
  /\ normalize_answer huge_answer "integer" = Raise OverflowError
  /\ extract_number_and_unit huge_answer = (Some (Float.Finf false), None).
Proof. repeat split; vm_compute; reflexivity. Qed.

(* ================================================================== *)
(** * Accuracy ratios *)

(** C8: the overall accuracy divides by all results.  With one result for
    a known problem, answered correctly, and one for an unknown problem,
    one result is evaluated and it is correct, the category accuracy is
    1/1, and [overall_accuracy] is 1/2: the divisor is [len(results)]. *)
Theorem overall_accuracy_divides_by_all_results :
  evaluated_results one_problem two_results = 1
  /\ exists m,
       calculate_system_metrics one_problem two_results = Ok m
       /\ correct_final_answers m = 1
       /\ overall_accuracy m = Float.int_truediv 1 2
       /\ overall_accuracy m <> Float.int_truediv 1 1
       /\ option_map cat_accuracy (dict_get (by_category m) "math")
          = Some (Float.int_truediv 1 1).
Proof.
  split; [reflexivity|].
  eexists. split; [vm_compute; reflexivity|].
  repeat split; try (vm_compute; reflexivity).
  vm_compute. discriminate.
Qed.

(* ================================================================== *)
(** * Dictionaries *)

Lemma dict_get_set {V : Type} (d : dict V) (k k' : string) (v : V) :
  dict_get (dict_set d k v) k' = if String.eqb k k' then Some v else dict_get d k'.
Proof.
  induction d as [|[k0 v0] d IH]; simpl.
  - reflexivity.
  - destruct (String.eqb_spec k0 k) as [->|N]; simpl.
    + destruct (String.eqb k k'); reflexivity.
    + rewrite IH. destruct (String.eqb_spec k0 k') as [->|N'].
      * destruct (String.eqb_spec k k'); [congruence | reflexivity].
      * reflexivity.
Qed.

Lemma dict_get_fold_set {V W : Type} (f : V -> W) (d : dict V) (acc : dict W) (k : string) :
  dict_get (fold_left (fun a kv => dict_set a (fst kv) (f (snd kv))) d acc) k = None
  <-> dict_get acc k = None /\ dict_get d k = None.
Proof.
  revert acc. induction d as [|[k0 v0] d IH]; intros acc; simpl.
  - tauto.
  - rewrite IH, dict_get_set.
    destruct (String.eqb k0 k); intuition discriminate.
Qed.

(** A solver has an entry in [answers_of d] exactly when it has one in [d]. *)
Lemma answers_of_None (d : dict solution) (k : string) :
  dict_get (answers_of d) k = None <-> dict_get d k = None.
Proof.
  unfold answers_of. rewrite dict_get_fold_set. simpl. tauto.
Qed.

(* ================================================================== *)
(** * Improvement rate: agents without a refined candidate *)

Lemma score_solver_without_refined (p : problem) (refined : dict solution)
    (flags : bool * bool) (solver_id original : string) :
  dict_get refined solver_id = None ->
  score_solver p (answers_of refined) flags (solver_id, original)
  = (_ <- answers_match original (correct_answer p) (answer_type p) ;; Ok flags).
Proof.
  intros H. apply answers_of_None in H.
  unfold score_solver. destruct flags as [i w]. rewrite H.
  destruct (answers_match original _ _) as [[|]|e]; reflexivity.
Qed.

Lemma flags_ignore_unrefined (p : problem) (refined : dict solution)
    (original_answers : dict string) (flags flags' : bool * bool) :
  for_each (score_solver p (answers_of refined)) original_answers flags = Ok flags' ->
  for_each (score_solver p (answers_of refined))
           (with_refined (answers_of refined) original_answers) flags = Ok flags'.
Proof.
  revert flags. induction original_answers as [|[k a] l IH]; intros flags; simpl.
  - trivial.
  - unfold dict_mem at 1. simpl.
    destruct (dict_get (answers_of refined) k) as [r|] eqn:E.
    + simpl. destruct (score_solver _ _ _ _) as [f|e]; simpl; [apply IH | discriminate].
    + apply answers_of_None in E.
      rewrite (score_solver_without_refined _ _ _ _ _ E).
      destruct (answers_match a _ _) as [b|e]; simpl; [apply IH | discriminate].
Qed.

(* ================================================================== *)
(** * Consensus rate *)

Lemma len_cons {A : Type} (x : A) (xs : list A) : len (x :: xs) = 1 + len xs.
Proof. unfold len. simpl List.length. lia. Qed.

Lemma count_class_cons (c x : consensus) (xs : list consensus) :
  count_class c (x :: xs)
  = (if consensus_eqb c x then 1 else 0) + count_class c xs.
Proof.
  unfold count_class. simpl. destruct (consensus_eqb c x).
  - apply len_cons.
  - reflexivity.
Qed.

(** The loop of [calculate_consensus_rate], from any counters: it adds
    the classes of the eligible problems, in order. *)
Lemma consensus_loop (problems : dict problem) (results : option (dict final_result))
    (stage1 : dict (dict solution)) (tot full part none : Z) :
  for_each (consensus_step problems results) stage1 (tot, full, part, none)
  = (classes <- map_result classify_problem (consensus_eligible problems results stage1) ;;
     Ok (tot + len classes,
         full + count_class FullConsensus classes,
         part + count_class PartialConsensus classes,
         none + count_class NoConsensus classes)).
Proof.
  revert tot full part none.
  induction stage1 as [|[pid sols] rest IH]; intros tot full part none.
  - simpl. unfold count_class, len. simpl. repeat rewrite Z.add_0_r. reflexivity.
  - cbn [for_each consensus_eligible consensus_step].
    destruct (dict_get problems pid) as [p|]; [|apply IH].
    assert (Hskip : (match results with
                     | Some rs => negb (dict_mem rs pid)
                     | None => false
                     end)
                    = negb (match results with
                            | Some rs => dict_mem rs pid
                            | None => true
                            end)) by (destruct results; reflexivity).
    rewrite Hskip.
    destruct (match results with Some rs => dict_mem rs pid | None => true end);
      cbn [negb]; [|apply IH].
    cbn [map_result classify_problem].
    destruct (map_result _ (map _ sols)) as [normalized|e]; [|reflexivity].
    cbn [bind]. unfold classify_unique.
    destruct (Nat.eqb (count_unique normalized) 1);
      [|destruct (Nat.eqb (count_unique normalized) 2)];
      cbn [bind]; rewrite IH;
      destruct (map_result classify_problem _) as [classes|e]; cbn [bind];
      try reflexivity;
      rewrite len_cons, !count_class_cons; cbn [consensus_eqb];
      rewrite ?Z.add_0_l, ?Z.add_assoc; reflexivity.
Qed.

(** Three answers have one, two or three distinct values. *)
Lemma count_unique_three (x y z : string) :
  (count_unique [x; y; z] = 1%nat <-> x = y /\ y = z)
  /\ (count_unique [x; y; z] = 3%nat <-> x <> y /\ y <> z /\ x <> z)
  /\ (1 <= count_unique [x; y; z] <= 3)%nat.
Proof.
  unfold count_unique. cbn [nodup in_dec list_rec list_rect].
  destruct (string_dec y x) as [Eyx|Nyx], (string_dec z x) as [Ezx|Nzx],
           (string_dec z y) as [Ezy|Nzy];
    cbn [List.length sumbool_rec sumbool_rect nodup in_dec list_rec list_rect];
    subst; try congruence;
    (split; [|split]; [split; [try discriminate; intros; split; congruence
                              | intros [? ?]; congruence]
                      |split; [try discriminate; intros; repeat split; congruence
                              | intros [? [? ?]]; congruence]
                      |lia]).
Qed.

(* ================================================================== *)
(** * Strings without digits *)

Lemma forall_chars_impl (p q : ascii -> bool) (s : string) :
  (forall c, p c = true -> q c = true) ->
  Str.forall_chars p s = true -> Str.forall_chars q s = true.
Proof.
  intros Hpq. induction s as [|c s IH]; simpl; [trivial|].
  rewrite !andb_true_iff. intros [H1 H2]. auto.
Qed.

Lemma not_numch_not_digit (c : ascii) : not_numch c = true -> not_digit c = true.
Proof.
  unfold not_numch, not_digit, Re.isnumch.
  destruct (Str.isdigit c); simpl; [discriminate | trivial].
Qed.

Lemma forall_chars_lstrip_by (p q : ascii -> bool) (s : string) :
  Str.forall_chars p s = true -> Str.forall_chars p (Str.lstrip_by q s) = true.
Proof.
  induction s as [|c s IH]; simpl; [trivial|].
  intros H. destruct (q c); [|exact H].
  apply andb_true_iff in H. apply IH, H.
Qed.

Lemma forall_chars_rstrip_by (p q : ascii -> bool) (s : string) :
  Str.forall_chars p s = true -> Str.forall_chars p (Str.rstrip_by q s) = true.
Proof.
  induction s as [|c s IH]; simpl; [trivial|].
  rewrite andb_true_iff. intros [Hc Hs]. specialize (IH Hs).
  destruct (Str.rstrip_by q s) as [|c' r].
  - destruct (q c); simpl; [trivial | now rewrite Hc].
  - change (Str.forall_chars p (String c (String c' r)) = true).
    simpl in *. now rewrite Hc, IH.
Qed.

Lemma forall_chars_drop_underscores (p : ascii -> bool) (s : string) :
  forall prev t,
    Float.drop_underscores prev s = Some t ->
    Str.forall_chars p s = true -> Str.forall_chars p t = true.
Proof.
  induction s as [|c s IH]; intros prev t; simpl.
  - destruct (Ascii.eqb prev "_"); intros [= <-]; trivial.
  - rewrite andb_true_iff. intros H [Hc Hs].
    destruct (Ascii.eqb c "_").
    + destruct (Str.isdigit prev); [eauto | discriminate].
    + destruct (Ascii.eqb prev "_" && negb (Str.isdigit c)); [discriminate|].
      destruct (Float.drop_underscores c s) as [t'|] eqn:E; [|discriminate].
      injection H as <-. simpl. rewrite Hc. eauto.
Qed.

Lemma forall_chars_take_sign (p : ascii -> bool) (s : string) :
  Str.forall_chars p s = true -> Str.forall_chars p (snd (Float.take_sign s)) = true.
Proof.
  destruct s as [|c s]; simpl; [trivial|].
  rewrite andb_true_iff. intros [Hc Hs].
  destruct (Ascii.eqb c "-"); [exact Hs|].
  destruct (Ascii.eqb c "+"); [exact Hs|].
  simpl. now rewrite Hc, Hs.
Qed.

Lemma digits_value_no_digit (s : string) :
  Str.is_empty s = false -> Str.forall_chars not_digit s = true ->
  Float.digits_value s = None.
Proof.
  destruct s as [|c s]; [discriminate|]. intros _. simpl.
  rewrite andb_true_iff. intros [Hc _].
  unfold Float.digits_value. simpl.
  unfold not_digit in Hc. destruct (Str.isdigit c); [discriminate | reflexivity].
Qed.

(** [int(s)] raises [ValueError] on a string without digits. *)
Lemma int_of_string_no_digit (s : string) :
  Str.forall_chars not_digit s = true -> Float.int_of_string s = None.
Proof.
  intros H. unfold Float.int_of_string, Float.strip_num.
  destruct (Float.drop_underscores _ _) as [t|] eqn:E; [|reflexivity].
  eapply forall_chars_drop_underscores in E;
    [|apply forall_chars_lstrip_by, forall_chars_rstrip_by, H].
  apply forall_chars_take_sign in E.
  destruct (Float.take_sign t) as [neg body]. simpl in E.
  destruct (Str.is_empty body) eqn:Eb; [reflexivity|].
  now rewrite digits_value_no_digit.
Qed.

Lemma search_number_unit_no_numch (units : list (list Re.item)) (s : string) :
  Str.forall_chars not_numch s = true -> Re.search_number_unit units s = None.
Proof.
  induction s as [|c s IH]; simpl; [trivial|].
  rewrite andb_true_iff. intros [Hc Hs].
  unfold not_numch in Hc. destruct (Re.isnumch c); [discriminate | auto].
Qed.

Lemma has_dot_no_numch (s : string) :
  Str.forall_chars not_numch s = true -> Str.has_char "." s = false.
Proof.
  induction s as [|c s IH]; simpl; [trivial|].
  rewrite andb_true_iff. intros [Hc Hs]. rewrite (IH Hs).
  unfold not_numch, Re.isnumch in Hc.
  destruct (Ascii.eqb c "."); [|reflexivity].
  rewrite orb_true_r in Hc. discriminate.
Qed.

(* ================================================================== *)
(** * What the normaliser does with a number *)

Lemma round_float_not_nan (neg : bool) (n d : Z) : Float.round_float neg n d <> Float.Fnan.
Proof.
  unfold Float.round_float.
  destruct (n =? 0); [discriminate|].
  destruct (Float.scale2 n d _) as [a b].
  destruct (if Float.rhe a b =? 2 ^ 53 then _ else _) as [m' e'].
  destruct (Float.emax <? e'); discriminate.
Qed.

Lemma parse_decimal_not_nan (neg : bool) (s : string) :
  Float.parse_decimal neg s <> Some Float.Fnan.
Proof.
  unfold Float.parse_decimal.
  destruct (Re.span Str.isdigit s) as [ip r1].
  destruct (match r1 with "" => _ | String c r => _ end) as [fp r2].
  destruct (Str.is_empty ip && Str.is_empty fp); [discriminate|].
  destruct (Float.digits_value (ip ++ fp)) as [n|]; [|discriminate].
  destruct (Float.parse_exponent r2) as [ex|]; [|discriminate].
  intros [= H]. revert H. unfold Float.of_decimal.
  destruct (0 <=? _); apply round_float_not_nan.
Qed.

(** Formatting raises [ValueError] on [nan] only. *)
Lemma format_number_ValueError (num : Float.float) :
  format_number num = Raise ValueError -> num = Float.Fnan.
Proof.
  unfold format_number. destruct num as [|s|s m e]; [reflexivity|discriminate|].
  cbn [Float.to_int bind]. destruct (Float.eq_int _ _); discriminate.
Qed.

(** A run of digits and dots never reads as [nan]. *)
Lemma of_string_numch_not_nan (run : string) :
  Str.forall_chars Re.isnumch run = true -> Float.of_string run <> Some Float.Fnan.
Proof.
  intros H. unfold Float.of_string, Float.strip_num.
  destruct (Float.drop_underscores _ _) as [t|] eqn:E; [|discriminate].
  eapply forall_chars_drop_underscores in E;
    [|apply forall_chars_lstrip_by, forall_chars_rstrip_by, H].
  apply forall_chars_take_sign in E.
  destruct (Float.take_sign t) as [neg body]. simpl in E.
  destruct (_ || _); [discriminate|].
  destruct (String.eqb (Str.lower body) "nan") eqn:En; [|apply parse_decimal_not_nan].
  apply String.eqb_eq in En.
  destruct body as [|c body]; [discriminate|].
  simpl in E, En. apply andb_true_iff in E as [Hc _].
  injection En as Hl _. exfalso. revert Hc Hl. clear.
  destruct c as [[|] [|] [|] [|] [|] [|] [|] [|]]; cbv; congruence.
Qed.

Lemma span_app (p : ascii -> bool) (run rest : string) :
  Str.forall_chars p run = true ->
  match rest with "" => True | String c _ => p c = false end ->
  Re.span p (run ++ rest) = (run, rest).
Proof.
  intros Hrun Hrest. induction run as [|c run IH]; simpl in *.
  - destruct rest as [|c r]; [reflexivity|]. simpl. now rewrite Hrest.
  - apply andb_true_iff in Hrun as [Hc Hr]. rewrite Hc, (IH Hr). reflexivity.
Qed.

(** The search finds the first run of digits and dots. *)
Lemma search_number_unit_first_run (units : list (list Re.item)) (pre run rest : string) :
  Str.forall_chars not_numch pre = true ->
  Str.is_empty run = false ->
  Str.forall_chars Re.isnumch run = true ->
  match rest with "" => True | String c _ => Re.isnumch c = false end ->
  Re.search_number_unit units (pre ++ run ++ rest)
  = Some (run, option_map fst (Re.first_alt units (Str.lstrip rest))).
Proof.
  intros Hpre Hne Hrun Hrest.
  induction pre as [|c pre IH]; simpl in *.
  - destruct run as [|c run]; [discriminate|].
    pose proof (span_app Re.isnumch (String c run) rest Hrun Hrest) as Hs.
    simpl in Hrun. apply andb_true_iff in Hrun as [Hc Hr].
    cbn [append Re.search_number_unit]. rewrite Hc.
    cbn [append] in Hs. rewrite Hs. reflexivity.
  - apply andb_true_iff in Hpre as [Hc Hp].
    unfold not_numch in Hc. destruct (Re.isnumch c); [discriminate | auto].
Qed.

(* ================================================================== *)
(** * Powers of two *)

Section Bpow.
Local Open Scope R_scope.

Lemma bpow_pos (e : Z) : 0 < bpow e.
Proof. apply powerRZ_lt. lra. Qed.

Lemma bpow_add (a b : Z) : bpow (a + b) = bpow a * bpow b.
Proof. apply powerRZ_add. lra. Qed.

Lemma bpow_opp (e : Z) : bpow (- e) = / bpow e.
Proof. apply powerRZ_neg'. Qed.

Lemma bpow_IZR (k : Z) : (0 <= k)%Z -> bpow k = IZR (2 ^ k).
Proof.
  intros H. unfold bpow.
  rewrite <- (Z2Nat.id k H), <- pow_powerRZ, <- pow_IZR. reflexivity.
Qed.

Lemma bpow_ge_1 (k : Z) : (0 <= k)%Z -> 1 <= bpow k.
Proof.
  intros H. rewrite (bpow_IZR k H). apply IZR_le.
  pose proof (Z.pow_pos_nonneg 2 k ltac:(lia) H). lia.
Qed.

Lemma bpow_le (a b : Z) : (a <= b)%Z -> bpow a <= bpow b.
Proof.
  intros H. replace b with (a + (b - a))%Z by lia. rewrite bpow_add.
  pose proof (bpow_pos a). pose proof (bpow_ge_1 (b - a) ltac:(lia)). nra.
Qed.

Lemma bpow_lt (a b : Z) : (a < b)%Z -> bpow a < bpow b.
Proof.
  intros H. replace b with (a + 1 + (b - a - 1))%Z by lia. rewrite !bpow_add.
  pose proof (bpow_pos a). pose proof (bpow_ge_1 (b - a - 1) ltac:(lia)).
  replace (bpow 1) with 2 by (unfold bpow; simpl; lra). nra.
Qed.

Lemma bpow_0 : bpow 0 = 1.
Proof. reflexivity. Qed.

Lemma bpow_succ (e : Z) : bpow (e + 1) = 2 * bpow e.
Proof. rewrite bpow_add. replace (bpow 1) with 2 by (unfold bpow; simpl; lra). lra. Qed.

End Bpow.

(* ================================================================== *)
(** * Rounding to the nearest integer *)

Section Nearest.
Import Float.
Local Open Scope R_scope.

Lemma IZR_apart (M J : Z) : M <> J -> 1 <= Rabs (IZR M - IZR J).
Proof.
  intros H. rewrite <- minus_IZR, Rabs_Zabs. apply IZR_le. lia.
Qed.

(** An integer within one half of [w] is at least as near as any other. *)
Lemma nearest_le (w : R) (M J : Z) :
  Rabs (IZR M - w) <= / 2 -> Rabs (IZR M - w) <= Rabs (IZR J - w).
Proof.
  intros H. destruct (Z.eq_dec M J) as [->|N]; [lra|].
  apply IZR_apart in N. revert H N. unfold Rabs.
  repeat destruct Rcase_abs; lra.
Qed.

Lemma nearest_even_unique (w : R) (M M' : Z) :
  nearest_even w M -> nearest_even w M' -> M = M'.
Proof.
  intros [H1 E1] [H2 E2]. destruct (Z.eq_dec M M') as [|N]; [assumption|exfalso].
  pose proof (IZR_apart _ _ N) as Ha.
  assert (T1 : Rabs (IZR M - w) = / 2)
    by (revert H1 H2 Ha; unfold Rabs; repeat destruct Rcase_abs; lra).
  assert (T2 : Rabs (IZR M' - w) = / 2)
    by (revert H1 H2 Ha; unfold Rabs; repeat destruct Rcase_abs; lra).
  assert (D : (Z.abs (M - M') <= 1)%Z).
  { apply le_IZR. rewrite <- Rabs_Zabs, minus_IZR.
    revert T1 T2. unfold Rabs. repeat destruct Rcase_abs; lra. }
  specialize (E1 T1). specialize (E2 T2).
  apply Z.even_spec in E1, E2. destruct E1 as [k ->], E2 as [k' ->]. lia.
Qed.

(** The distance of an integer to a fraction, as a fraction. *)
Lemma dist_frac (M a b : Z) :
  (0 < b)%Z -> Rabs (IZR M - IZR a / IZR b) = IZR (Z.abs (M * b - a)) / IZR b.
Proof.
  intros Hb. apply IZR_lt in Hb.
  replace (IZR M - IZR a / IZR b) with (IZR (M * b - a) * / IZR b)
    by (rewrite minus_IZR, mult_IZR; field; lra).
  rewrite Rabs_mult, Rabs_Zabs, Rabs_inv, (Rabs_pos_eq (IZR b)) by lra.
  reflexivity.
Qed.

Lemma rhe_nonneg (a b : Z) : (0 <= a)%Z -> (0 < b)%Z -> (0 <= rhe a b)%Z.
Proof.
  intros Ha Hb. unfold rhe.
  pose proof (Z.div_pos a b Ha Hb).
  destruct (2 * (a mod b) ?= b)%Z; [destruct (Z.even (a / b))| |]; lia.
Qed.

(** [rhe a b] is the integer nearest to [a / b], ties to even. *)
Lemma rhe_nearest (a b : Z) :
  (0 <= a)%Z -> (0 < b)%Z -> nearest_even (IZR a / IZR b) (rhe a b).
Proof.
  intros Ha Hb. unfold nearest_even. rewrite dist_frac by assumption.
  assert (Hb' : 0 < IZR b) by now apply IZR_lt.
  assert (Hle : forall z : Z, (IZR z / IZR b <= / 2 <-> (2 * z <= b)%Z)).
  { intros z. split; intros H.
    - apply le_IZR. rewrite mult_IZR.
      apply (Rmult_le_compat_r (IZR b)) in H; [|lra].
      unfold Rdiv in H. rewrite Rmult_assoc, Rinv_l in H by lra. lra.
    - apply IZR_le in H. rewrite mult_IZR in H.
      apply (Rmult_le_reg_r (IZR b)); [lra|].
      unfold Rdiv. rewrite Rmult_assoc, Rinv_l by lra. lra. }
  assert (Heq : forall z : Z, (IZR z / IZR b = / 2 -> (2 * z = b)%Z)).
  { intros z H. apply eq_IZR. rewrite mult_IZR.
    apply (f_equal (fun x => x * IZR b)) in H.
    unfold Rdiv in H. rewrite Rmult_assoc, Rinv_l in H by lra. lra. }
  pose proof (Z.div_mod a b ltac:(lia)) as Hdm.
  pose proof (Z.mod_pos_bound a b Hb) as Hr.
  unfold rhe.
  destruct (Z.compare_spec (2 * (a mod b)) b) as [E|L|G].
  - destruct (Z.even (a / b)) eqn:Ev.
    + split; [apply Hle; lia | intros _; exact Ev].
    + split; [apply Hle; lia|]. intros _.
      rewrite Z.even_add, Ev. reflexivity.
  - split; [apply Hle; lia|]. intros H. apply Heq in H. lia.
  - split; [apply Hle; lia|]. intros H. apply Heq in H. lia.
Qed.

Lemma rhe_unique (a b M : Z) :
  (0 <= a)%Z -> (0 < b)%Z -> nearest_even (IZR a / IZR b) M -> rhe a b = M.
Proof.
  intros Ha Hb H. eapply nearest_even_unique; [apply rhe_nearest; assumption | exact H].
Qed.

(** [scale2 n d e] is the fraction [(n / d) / 2^e]. *)
Lemma scale2_spec (n d e a b : Z) :
  (0 < d)%Z -> scale2 n d e = (a, b) ->
  (0 < b)%Z /\ IZR a / IZR b = IZR n / IZR d / bpow e
  /\ ((0 <= n)%Z -> (0 <= a)%Z) /\ ((0 < n)%Z -> (0 < a)%Z).
Proof.
  intros Hd. unfold scale2. pose proof (bpow_pos e) as Hp.
  assert (Hd' : 0 < IZR d) by now apply IZR_lt.
  destruct (Z.leb_spec 0 e) as [He|He]; intros [= <- <-].
  - pose proof (Z.pow_pos_nonneg 2 e ltac:(lia) He).
    split; [nia|]. split; [|split; intros; assumption].
    rewrite mult_IZR, <- bpow_IZR by assumption. field. lra.
  - pose proof (Z.pow_pos_nonneg 2 (- e) ltac:(lia) ltac:(lia)).
    split; [assumption|]. split; [|split; intros; nia].
    rewrite mult_IZR, <- bpow_IZR, bpow_opp by lia. field. lra.
Qed.

(** [ilog2_frac n d] is the exponent of the binade of [n / d]. *)
Lemma ilog2_frac_spec (n d : Z) :
  (0 < n)%Z -> (0 < d)%Z ->
  bpow (ilog2_frac n d) <= IZR n / IZR d < bpow (ilog2_frac n d + 1).
Proof.
  intros Hn Hd. unfold ilog2_frac.
  destruct (Z.log2_spec n Hn) as [Ln Un], (Z.log2_spec d Hd) as [Ld Ud].
  pose proof (Z.log2_nonneg n) as Nn. pose proof (Z.log2_nonneg d) as Nd.
  apply IZR_le in Ln, Ld. apply IZR_lt in Un, Ud.
  rewrite <- bpow_IZR in Ln, Ld, Un, Ud by lia.
  unfold Z.succ in Un, Ud. rewrite bpow_succ in Un, Ud.
  set (ln := Z.log2 n) in *. set (ld := Z.log2 d) in *.
  assert (HN : 0 < IZR n) by now apply IZR_lt.
  assert (HD : 0 < IZR d) by now apply IZR_lt.
  pose proof (bpow_pos ln) as Pn. pose proof (bpow_pos ld) as Pd.
  pose proof (bpow_pos (ln - ld)) as Pk.
  assert (Hk : bpow ln = bpow (ln - ld) * bpow ld)
    by (rewrite <- bpow_add; f_equal; lia).
  destruct (scale2 n d (ln - ld)) as [a b] eqn:Es.
  destruct (scale2_spec _ _ _ _ _ Hd Es) as [Hb [Hab [_ Ha]]].
  specialize (Ha Hn). apply IZR_lt in Hb, Ha.
  assert (Hv : IZR n / IZR d = IZR a / IZR b * bpow (ln - ld))
    by (rewrite Hab; field; lra).
  assert (Hlow : bpow (ln - ld) < 2 * (IZR n / IZR d)).
  { apply (Rmult_lt_reg_r (IZR d)); [lra|].
    replace (2 * (IZR n / IZR d) * IZR d) with (2 * IZR n) by (field; lra). nra. }
  assert (Hup : IZR n / IZR d < 2 * bpow (ln - ld)).
  { apply (Rmult_lt_reg_r (IZR d)); [lra|].
    replace (IZR n / IZR d * IZR d) with (IZR n) by (field; lra). nra. }
  destruct (Z.leb_spec b a) as [Hle|Hlt].
  - apply IZR_le in Hle. rewrite bpow_succ. split; [|lra].
    rewrite Hv. assert (1 <= IZR a / IZR b).
    { apply (Rmult_le_reg_r (IZR b)); [lra|].
      replace (IZR a / IZR b * IZR b) with (IZR a) by (field; lra). lra. }
    nra.
  - apply IZR_lt in Hlt. replace (ln - ld - 1 + 1)%Z with (ln - ld)%Z by lia.
    assert (Hs : bpow (ln - ld) = 2 * bpow (ln - ld - 1))
      by (rewrite <- bpow_succ; f_equal; lia).
    split; [lra|].
    rewrite Hv. assert (IZR a / IZR b < 1).
    { apply (Rmult_lt_reg_r (IZR b)); [lra|].
      replace (IZR a / IZR b * IZR b) with (IZR a) by (field; lra). lra. }
    nra.
Qed.

End Nearest.

(* ================================================================== *)
(** * Rounding to the nearest float *)

Section RoundFloat.
Import Float.
Local Open Scope R_scope.

(** What [round_float] computes on a positive fraction: the exponent [e],
    the nearest integer [M] to [(n / d) / 2^e], and a carry when [M]
    reaches [2^53]. *)
Lemma round_float_cases (s : bool) (n d : Z) :
  (0 < n)%Z -> (0 < d)%Z ->
  let e := Z.max (ilog2_frac n d - 52) emin in
  exists M : Z,
    nearest_even (IZR n / IZR d / bpow e) M
    /\ (0 <= M <= 2 ^ 53)%Z
    /\ (e = emin \/ bpow 52 <= IZR n / IZR d / bpow e)
    /\ round_float s n d
       = (if (M =? 2 ^ 53)%Z
          then (if (emax <? e + 1)%Z then Finf s else Ffin s (2 ^ 52) (e + 1))
          else (if (emax <? e)%Z then Finf s else Ffin s M e)).
Proof.
  intros Hn Hd e.
  assert (HD : 0 < IZR d) by now apply IZR_lt.
  destruct (ilog2_frac_spec n d Hn Hd) as [Hlo Hhi].
  set (k := ilog2_frac n d) in *.
  destruct (scale2 n d e) as [a b] eqn:Es.
  destruct (scale2_spec _ _ _ _ _ Hd Es) as [Hb [Hab [Ha _]]].
  specialize (Ha ltac:(lia)).
  exists (rhe a b).
  pose proof (rhe_nearest a b Ha Hb) as Hne. rewrite Hab in Hne.
  pose proof (rhe_nonneg a b Ha Hb) as H0.
  pose proof (bpow_pos e) as Pe.
  assert (Hw : IZR n / IZR d / bpow e < bpow 53).
  { apply (Rmult_lt_reg_r (bpow e)); [lra|].
    replace (IZR n / IZR d / bpow e * bpow e) with (IZR n / IZR d) by (field; lra).
    rewrite <- bpow_add. eapply Rlt_le_trans; [exact Hhi|].
    apply bpow_le. unfold e. lia. }
  split; [exact Hne|]. split; [|split].
  - split; [exact H0|]. destruct Hne as [Hne _].
    assert (H : IZR (rhe a b) < bpow 53 + 1)
      by (revert Hne; unfold Rabs; destruct Rcase_abs; lra).
    rewrite (bpow_IZR 53), <- plus_IZR in H by lia.
    apply lt_IZR in H. lia.
  - destruct (Z.max_spec (k - 52) emin) as [[_ E]|[_ E]]; fold e in E.
    + left. exact E.
    + right. apply (Rmult_le_reg_r (bpow e)); [lra|].
      replace (IZR n / IZR d / bpow e * bpow e) with (IZR n / IZR d) by (field; lra).
      rewrite <- bpow_add. rewrite E. replace (52 + (k - 52))%Z with k by lia.
      exact Hlo.
  - unfold round_float. destruct (Z.eqb_spec n 0) as [|_]; [lia|].
    fold k. fold e. rewrite Es.
    destruct (rhe a b =? 2 ^ 53)%Z; reflexivity.
Qed.

(** The value and the bounds of a finite result of [round_float]. *)
Lemma round_float_finite_spec (s s' : bool) (n d M' E' : Z) :
  (0 < n)%Z -> (0 < d)%Z ->
  round_float s n d = Ffin s' M' E' ->
  s' = s /\ (0 <= M' < 2 ^ 53)%Z /\ (emin <= E' <= emax)%Z
  /\ exists e M : Z,
       (emin <= e)%Z /\ F2R M' E' = IZR M * bpow e
       /\ nearest_even (IZR n / IZR d / bpow e) M
       /\ (e = emin \/ bpow 52 <= IZR n / IZR d / bpow e).
Proof.
  intros Hn Hd H.
  destruct (round_float_cases s n d Hn Hd) as [M [Hne [HM [Hbin Hr]]]].
  set (e := Z.max (ilog2_frac n d - 52) emin) in *.
  assert (He : (emin <= e)%Z) by (unfold e; lia).
  rewrite Hr in H. clear Hr.
  destruct (Z.eqb_spec M (2 ^ 53)) as [EM|NM].
  - destruct (Z.ltb_spec emax (e + 1)); [discriminate|].
    injection H as <- <- <-.
    split; [reflexivity|]. split; [lia|]. split; [lia|].
    exists e, M. split; [assumption|]. split; [|split; assumption].
    unfold F2R. rewrite bpow_succ, EM.
    replace (2 ^ 53)%Z with (2 * 2 ^ 52)%Z by reflexivity.
    rewrite mult_IZR. lra.
  - destruct (Z.ltb_spec emax e); [discriminate|].
    injection H as <- <- <-.
    split; [reflexivity|]. split; [lia|]. split; [lia|].
    exists e, M. split; [assumption|]. split; [reflexivity|split; assumption].
Qed.

(** Round to nearest: no float is nearer to [n / d] than the result. *)
Lemma round_float_nearest (s s' : bool) (n d M' E' m e' : Z) :
  (0 < n)%Z -> (0 < d)%Z ->
  round_float s n d = Ffin s' M' E' ->
  (0 <= m < 2 ^ 53)%Z -> (emin <= e')%Z ->
  Rabs (F2R M' E' - IZR n / IZR d) <= Rabs (F2R m e' - IZR n / IZR d).
Proof.
  intros Hn Hd H Hm He'.
  destruct (round_float_finite_spec _ _ _ _ _ _ Hn Hd H)
    as [_ [_ [_ [e [M [He [HF [[Hne _] Hbin]]]]]]]].
  rewrite HF. set (v := IZR n / IZR d) in *.
  pose proof (bpow_pos e) as Pe.
  (* divide both distances by 2^e *)
  assert (Hdiv : forall x : R, Rabs (x - v) = Rabs (x / bpow e - v / bpow e) * bpow e).
  { intros x. replace (x - v) with ((x / bpow e - v / bpow e) * bpow e) by (field; lra).
    rewrite Rabs_mult, (Rabs_pos_eq (bpow e)) by lra. reflexivity. }
  rewrite (Hdiv (IZR M * bpow e)), (Hdiv (F2R m e')).
  apply Rmult_le_compat_r; [lra|].
  replace (IZR M * bpow e / bpow e) with (IZR M) by (field; lra).
  set (w := v / bpow e) in *.
  destruct (Z.le_gt_cases e e') as [Hge|Hlt].
  - (* the other float is a multiple of 2^e *)
    replace (F2R m e' / bpow e) with (IZR (m * 2 ^ (e' - e))).
    + apply nearest_le, Hne.
    + rewrite mult_IZR, <- bpow_IZR by lia. unfold F2R.
      replace e' with (e' - e + e)%Z at 2 by lia. rewrite bpow_add. field. lra.
  - (* the other float lies below the binade of [v] *)
    destruct Hbin as [->|Hbin]; [lia|].
    assert (Hx : F2R m e' / bpow e < bpow 52).
    { assert (E1 : bpow e' = bpow (e' - e + 1) * bpow (e - 1))
        by (rewrite <- bpow_add; f_equal; lia).
      assert (E2 : bpow e = 2 * bpow (e - 1))
        by (rewrite <- bpow_succ; f_equal; lia).
      pose proof (bpow_pos (e - 1)) as P1.
      replace (F2R m e' / bpow e) with (IZR m * bpow (e' - e + 1) / 2)
        by (unfold F2R; rewrite E1, E2; field; lra).
      assert (IZR m <= bpow 53 - 1).
      { rewrite bpow_IZR by lia. rewrite <- minus_IZR. apply IZR_le. lia. }
      assert (0 <= IZR m) by (apply IZR_le; lia).
      pose proof (bpow_pos (e' - e + 1)).
      assert (bpow (e' - e + 1) <= 1).
      { rewrite <- bpow_0. apply bpow_le. lia. }
      replace (bpow 53) with (2 * bpow 52) in * by (rewrite <- bpow_succ; reflexivity).
      pose proof (bpow_pos 52). nra. }
    pose proof (nearest_le w M (2 ^ 52) Hne) as Hn52.
    rewrite <- bpow_IZR in Hn52 by lia.
    revert Hn52. unfold Rabs. repeat destruct Rcase_abs; lra.
Qed.

(** No overflow below [2^1024 - 2^970]: in particular up to the largest
    float. *)
Lemma round_float_is_finite (s : bool) (n d : Z) :
  (0 < n)%Z -> (0 < d)%Z ->
  IZR n / IZR d <= F2R (2 ^ 53 - 1) emax ->
  exists M' E', round_float s n d = Ffin s M' E'.
Proof.
  intros Hn Hd Hv.
  assert (HD : 0 < IZR d) by now apply IZR_lt.
  destruct (round_float_cases s n d Hn Hd) as [M [[Hne _] [HM [_ Hr]]]].
  destruct (ilog2_frac_spec n d Hn Hd) as [Hlo _].
  set (k := ilog2_frac n d) in *.
  set (e := Z.max (k - 52) emin) in *.
  rewrite Hr. clear Hr.
  assert (Hk : (k < 1024)%Z).
  { destruct (Z.lt_ge_cases k 1024) as [|Hge]; [assumption|exfalso].
    apply bpow_le in Hge.
    assert (F2R (2 ^ 53 - 1) emax < bpow 1024).
    { unfold F2R. rewrite minus_IZR, <- bpow_IZR by lia.
      replace 1024%Z with (53 + emax)%Z by reflexivity. rewrite bpow_add.
      pose proof (bpow_pos emax). nra. }
    lra. }
  assert (He : (e <= emax)%Z) by (unfold e, emax, emin; lia).
  destruct (Z.eqb_spec M (2 ^ 53)) as [EM|NM].
  - destruct (Z.ltb_spec emax (e + 1)) as [Hov|]; [exfalso|eauto].
    assert (Ee : e = emax) by lia.
    pose proof (bpow_pos e) as Pe.
    assert (IZR n / IZR d / bpow e <= IZR (2 ^ 53 - 1)).
    { apply (Rmult_le_reg_r (bpow e)); [lra|].
      replace (IZR n / IZR d / bpow e * bpow e) with (IZR n / IZR d) by (field; lra).
      rewrite Ee. exact Hv. }
    rewrite EM in Hne. rewrite minus_IZR in H.
    revert Hne. unfold Rabs. destruct Rcase_abs; lra.
  - destruct (Z.ltb_spec emax e); [lia|eauto].
Qed.

(** A float is rounded to itself, up to its representation. *)
Lemma round_float_exact (s : bool) (n d m e : Z) :
  (0 < n)%Z -> (0 < d)%Z ->
  (0 <= m < 2 ^ 53)%Z -> (emin <= e <= emax)%Z ->
  IZR n / IZR d = F2R m e ->
  exists M' E',
    round_float s n d = Ffin s M' E' /\ F2R M' E' = F2R m e
    /\ (0 <= M' < 2 ^ 53)%Z /\ (emin <= E' <= emax)%Z.
Proof.
  intros Hn Hd Hm He Hv.
  destruct (round_float_is_finite s n d Hn Hd) as [M' [E' Hr]].
  { rewrite Hv. unfold F2R. apply Rmult_le_compat.
    - apply IZR_le. lia.
    - pose proof (bpow_pos e). lra.
    - apply IZR_le. lia.
    - apply bpow_le. lia. }
  exists M', E'. split; [exact Hr|].
  pose proof (round_float_nearest _ _ _ _ _ _ m e Hn Hd Hr Hm ltac:(lia)) as Hnear.
  destruct (round_float_finite_spec _ _ _ _ _ _ Hn Hd Hr) as [_ [HM [HE _]]].
  split; [|split; assumption].
  rewrite Hv in Hnear. revert Hnear.
  replace (F2R m e - F2R m e) with 0 by lra. rewrite Rabs_R0.
  unfold Rabs. destruct Rcase_abs; lra.
Qed.

End RoundFloat.

(* ================================================================== *)
(** * The value that formatting sees *)

Section FormatValue.
Import Float.
Local Open Scope R_scope.

Lemma F2R_nonneg_exp (m e : Z) : (0 <= e)%Z -> F2R m e = IZR (m * 2 ^ e).
Proof. intros H. unfold F2R. now rewrite mult_IZR, bpow_IZR. Qed.

Lemma F2R_neg_exp (m e : Z) : (e < 0)%Z -> F2R m e = IZR m / IZR (2 ^ (- e)).
Proof.
  intros H. unfold F2R. rewrite <- bpow_IZR by lia. rewrite bpow_opp.
  pose proof (bpow_pos e). field. lra.
Qed.

Lemma pow2_pos (k : Z) : (0 <= k)%Z -> (0 < 2 ^ k)%Z.
Proof. intros H. apply Z.pow_pos_nonneg; lia. Qed.

(** [int(x)] is the floor of a non-negative [x]. *)
Lemma to_int_spec (m e : Z) :
  (0 <= m)%Z ->
  exists i : Z,
    to_int (Ffin false m e) = Ok i /\ (0 <= i)%Z
    /\ IZR i <= F2R m e < IZR i + 1.
Proof.
  intros Hm. unfold to_int.
  destruct (Z.leb_spec 0 e) as [He|He].
  - exists (m * 2 ^ e)%Z. split; [reflexivity|].
    pose proof (pow2_pos e He). split; [nia|].
    rewrite F2R_nonneg_exp by assumption. lra.
  - exists (m / 2 ^ (- e))%Z. split; [reflexivity|].
    pose proof (pow2_pos (- e) ltac:(lia)) as Hp.
    pose proof (Z.div_mod m (2 ^ (- e)) ltac:(lia)) as Hdm.
    pose proof (Z.mod_pos_bound m (2 ^ (- e)) Hp) as Hr.
    set (p := (2 ^ (- e))%Z) in *. set (i := (m / p)%Z) in *.
    split; [apply Z.div_pos; lia|].
    rewrite F2R_neg_exp by assumption. fold p.
    assert (Pp : 0 < IZR p) by now apply IZR_lt.
    assert (L : IZR (p * i) <= IZR m) by (apply IZR_le; lia).
    assert (U : IZR m < IZR (p * (i + 1))) by (apply IZR_lt; lia).
    rewrite mult_IZR in L, U. rewrite plus_IZR in U.
    split.
    + apply (Rmult_le_reg_r (IZR p)); [lra|].
      replace (IZR m / IZR p * IZR p) with (IZR m) by (field; lra). lra.
    + apply (Rmult_lt_reg_r (IZR p)); [lra|].
      replace (IZR m / IZR p * IZR p) with (IZR m) by (field; lra). lra.
Qed.

(** [x == j] holds exactly when the value of [x] is [j]. *)
Lemma eq_int_spec (m e j : Z) :
  eq_int (Ffin false m e) j = true <-> F2R m e = IZR j.
Proof.
  unfold eq_int.
  destruct (Z.leb_spec 0 e) as [He|He].
  - rewrite F2R_nonneg_exp by assumption. rewrite Z.eqb_eq.
    split; [intros ->; reflexivity | apply eq_IZR].
  - rewrite F2R_neg_exp by assumption. rewrite Z.eqb_eq.
    pose proof (pow2_pos (- e) ltac:(lia)) as Hp. apply IZR_lt in Hp.
    split.
    + intros ->. rewrite mult_IZR. field. lra.
    + intros H. apply eq_IZR. rewrite mult_IZR, <- H. field. lra.
Qed.

Lemma floor_unique (x : R) (i j : Z) :
  IZR i <= x < IZR i + 1 -> IZR j <= x < IZR j + 1 -> i = j.
Proof.
  intros Hi Hj.
  assert (IZR i < IZR (j + 1)) by (rewrite plus_IZR; lra).
  assert (IZR j < IZR (i + 1)) by (rewrite plus_IZR; lra).
  apply lt_IZR in H, H0. lia.
Qed.

(** The millionths of a non-negative float: the nearest integer to
    [x * 10^6], ties to even. *)
Lemma millionths_spec (m e : Z) :
  (0 <= m)%Z ->
  nearest_even (F2R m e * 1000000) (millionths m e) /\ (0 <= millionths m e)%Z.
Proof.
  intros Hm. unfold millionths.
  destruct (Z.leb_spec 0 e) as [He|He].
  - pose proof (pow2_pos e He). split; [|nia].
    rewrite F2R_nonneg_exp by assumption.
    replace (IZR (m * 2 ^ e) * 1000000) with (IZR (m * 2 ^ e * 10 ^ 6))
      by (rewrite (mult_IZR _ (10 ^ 6)); simpl; lra).
    unfold nearest_even.
    replace (IZR (m * 2 ^ e * 10 ^ 6) - IZR (m * 2 ^ e * 10 ^ 6)) with 0 by lra.
    rewrite Rabs_R0. split; lra.
  - pose proof (pow2_pos (- e) ltac:(lia)) as Hp.
    split; [|apply rhe_nonneg; lia].
    replace (F2R m e * 1000000) with (IZR (m * 10 ^ 6) / IZR (2 ^ (- e))).
    + apply rhe_nearest; lia.
    + rewrite F2R_neg_exp by assumption. rewrite mult_IZR. simpl.
      apply IZR_lt in Hp. field. lra.
Qed.

(** The formatting of a non-negative float, in one equation. *)
Lemma format_number_fin (m e : Z) :
  (0 <= m)%Z ->
  exists i : Z,
    (0 <= i)%Z /\ IZR i <= F2R m e < IZR i + 1
    /\ format_number (Ffin false m e)
       = Ok (if eq_int (Ffin false m e) i then str_of_Z i
             else Str.rstrip_char "." (Str.rstrip_char "0"
                    (str_of_Z (millionths m e / 10 ^ 6) ++ "."
                     ++ pad_digits 6 (millionths m e mod 10 ^ 6))%string)).
Proof.
  intros Hm. destruct (to_int_spec m e Hm) as [i [Hi [H0 Hf]]].
  exists i. split; [assumption|]. split; [assumption|].
  unfold format_number. rewrite Hi. cbn [bind].
  destruct (eq_int (Ffin false m e) i); reflexivity.
Qed.

(** Formatting only depends on the value. *)
Lemma format_number_value (m e m' e' : Z) :
  (0 <= m)%Z -> (0 <= m')%Z -> F2R m e = F2R m' e' ->
  format_number (Ffin false m e) = format_number (Ffin false m' e').
Proof.
  intros Hm Hm' Hv.
  destruct (format_number_fin m e Hm) as [i [_ [Hi ->]]].
  destruct (format_number_fin m' e' Hm') as [i' [_ [Hi' ->]]].
  rewrite Hv in Hi. pose proof (floor_unique _ _ _ Hi Hi') as <-.
  assert (Eq : eq_int (Ffin false m e) i = eq_int (Ffin false m' e') i).
  { apply eq_true_iff_eq. rewrite !eq_int_spec, Hv. tauto. }
  assert (Em : millionths m e = millionths m' e').
  { destruct (millionths_spec m e Hm) as [H1 _].
    destruct (millionths_spec m' e' Hm') as [H2 _].
    rewrite Hv in H1. exact (nearest_even_unique _ _ _ H1 H2). }
  now rewrite Eq, Em.
Qed.

(** An integer that is a float reads back as itself. *)
Lemma format_number_round_int (n m e : Z) :
  (0 <= n)%Z -> (0 <= m < 2 ^ 53)%Z -> (emin <= e <= emax)%Z ->
  IZR n = F2R m e ->
  format_number (round_float false n 1) = Ok (str_of_Z n).
Proof.
  intros Hn Hm He Hv.
  destruct (Z.eq_dec n 0) as [->|N0]; [reflexivity|].
  destruct (round_float_exact false n 1 m e ltac:(lia) ltac:(lia) Hm He)
    as [M' [E' [-> [HF [HM' _]]]]].
  { rewrite <- Hv. field. }
  destruct (format_number_fin M' E' ltac:(lia)) as [i [_ [Hi ->]]].
  rewrite HF, <- Hv in Hi.
  assert (i = n) as -> by (eapply floor_unique; [exact Hi | lra]).
  assert (Eq : eq_int (Ffin false M' E') n = true)
    by (apply eq_int_spec; rewrite HF; symmetry; exact Hv).
  now rewrite Eq.
Qed.

(** A float with a negative exponent is below [2^52]. *)
Lemma negative_exponent_small (m e : Z) :
  (0 <= m < 2 ^ 53)%Z -> (e < 0)%Z -> F2R m e < bpow 52.
Proof.
  intros Hm He. unfold F2R.
  assert (bpow e <= / 2).
  { replace (/ 2) with (bpow (-1)) by (unfold bpow; simpl; lra).
    apply bpow_le. lia. }
  pose proof (bpow_pos e).
  assert (IZR m <= bpow 53 - 1)
    by (rewrite bpow_IZR, <- minus_IZR by lia; apply IZR_le; lia).
  assert (0 <= IZR m) by (apply IZR_le; lia).
  replace (bpow 53) with (2 * bpow 52) in * by (rewrite <- bpow_succ; reflexivity).
  pose proof (bpow_pos 52). nra.
Qed.

End FormatValue.

(* ================================================================== *)
(** * Decimal strings *)

Section DecimalStrings.
Import Float.
Local Open Scope string_scope.
Local Open Scope Z_scope.

Lemma forall_chars_app (p : ascii -> bool) (s1 s2 : string) :
  Str.forall_chars p (s1 ++ s2) = Str.forall_chars p s1 && Str.forall_chars p s2.
Proof.
  induction s1 as [|c s1 IH]; simpl; [reflexivity|].
  now rewrite IH, andb_assoc.
Qed.

Lemma append_assoc (s1 s2 s3 : string) : (s1 ++ s2) ++ s3 = s1 ++ (s2 ++ s3).
Proof. induction s1 as [|c s1 IH]; simpl; [reflexivity | now rewrite IH]. Qed.

Lemma append_empty_r (s : string) : s ++ "" = s.
Proof. induction s as [|c s IH]; simpl; [reflexivity | now rewrite IH]. Qed.

Lemma is_empty_app (s1 s2 : string) :
  Str.is_empty (s1 ++ s2) = Str.is_empty s1 && Str.is_empty s2.
Proof. destruct s1; reflexivity. Qed.

Lemma digits_acc_app (acc : Z) (s1 s2 : string) :
  digits_acc acc (s1 ++ s2)
  = match digits_acc acc s1 with
    | Some a => digits_acc a s2
    | None => None
    end.
Proof.
  revert acc. induction s1 as [|c s1 IH]; intros acc; simpl; [reflexivity|].
  destruct (Str.isdigit c); [apply IH | reflexivity].
Qed.

Lemma digits_acc_cons (acc : Z) (c : ascii) (s : string) :
  Str.isdigit c = true ->
  digits_acc acc (String c s) = digits_acc (10 * acc + (Z.of_N (Str.code c) - 48)) s.
Proof. intros H. cbn [digits_acc]. now rewrite H. Qed.

Ltac read_digit IH :=
  match goal with
  | |- digits_acc _ (String ?c _) = _ =>
      rewrite digits_acc_cons by reflexivity;
      let v := eval vm_compute in (Z.of_N (Str.code c) - 48) in
      change (Z.of_N (Str.code c) - 48) with v;
      try (rewrite <- IH; f_equal; lia)
  end.

(** The digits that [Pos.to_uint] prints read back, from any accumulator. *)
Lemma digits_acc_uint_pos (d : Decimal.uint) (acc : positive) :
  digits_acc (Zpos acc) (NilEmpty.string_of_uint d) = Some (Zpos (Pos.of_uint_acc d acc)).
Proof.
  revert acc. induction d; intros acc; cbn [NilEmpty.string_of_uint Pos.of_uint_acc];
    [reflexivity | ..]; read_digit IHd.
Qed.

Lemma digits_acc_uint (d : Decimal.uint) :
  digits_acc 0 (NilEmpty.string_of_uint d) = Some (Z.of_N (Pos.of_uint d)).
Proof.
  induction d; cbn [NilEmpty.string_of_uint Pos.of_uint]; [reflexivity | ..];
    rewrite digits_acc_cons by reflexivity;
    try exact IHd; apply digits_acc_uint_pos.
Qed.

Lemma string_of_uint_digits (d : Decimal.uint) :
  Str.forall_chars Str.isdigit (NilEmpty.string_of_uint d) = true.
Proof. induction d; simpl; [reflexivity | ..]; exact IHd. Qed.

Lemma str_of_Z_pos (p : positive) :
  str_of_Z (Zpos p) = NilEmpty.string_of_uint (Pos.to_uint p).
Proof.
  unfold str_of_Z. cbn [Z.to_int NilZero.string_of_int NilZero.string_of_uint].
  pose proof (DecimalPos.Unsigned.to_uint_nonnil p) as H.
  destruct (Pos.to_uint p); [contradiction | ..]; reflexivity.
Qed.

Lemma str_of_Z_value (n : Z) : 0 <= n -> digits_acc 0 (str_of_Z n) = Some n.
Proof.
  intros H. destruct n as [|p|p]; [reflexivity | | lia].
  rewrite str_of_Z_pos, digits_acc_uint, DecimalPos.Unsigned.of_to. reflexivity.
Qed.

Lemma str_of_Z_digits (n : Z) : 0 <= n -> Str.forall_chars Str.isdigit (str_of_Z n) = true.
Proof.
  intros H. destruct n as [|p|p]; [reflexivity | | lia].
  rewrite str_of_Z_pos. apply string_of_uint_digits.
Qed.

Lemma str_of_Z_nonempty (n : Z) : 0 <= n -> Str.is_empty (str_of_Z n) = false.
Proof.
  intros H. destruct n as [|p|p]; [reflexivity | | lia].
  rewrite str_of_Z_pos.
  pose proof (DecimalPos.Unsigned.to_uint_nonnil p) as Hn.
  destruct (Pos.to_uint p); [contradiction | ..]; reflexivity.
Qed.

Lemma digit_char_spec (d : Z) :
  0 <= d < 10 ->
  Str.isdigit (digit_char d) = true
  /\ Z.of_N (Str.code (digit_char d)) - 48 = d
  /\ Ascii.eqb (digit_char d) "0" = (d =? 0)
  /\ Ascii.eqb (digit_char d) "." = false.
Proof.
  intros H.
  assert (C : d = 0 \/ d = 1 \/ d = 2 \/ d = 3 \/ d = 4 \/ d = 5 \/ d = 6
              \/ d = 7 \/ d = 8 \/ d = 9) by lia.
  repeat (destruct C as [->|C]; [repeat split; reflexivity|]).
  subst. repeat split; reflexivity.
Qed.

Lemma pad_digits_digits (k : nat) (r : Z) :
  Str.forall_chars Str.isdigit (pad_digits k r) = true.
Proof.
  revert r. induction k as [|k IH]; intros r; simpl; [reflexivity|].
  rewrite forall_chars_app, IH. simpl.
  destruct (digit_char_spec (r mod 10) (Z.mod_pos_bound r 10 ltac:(lia))) as [-> _].
  reflexivity.
Qed.

Lemma length_app (s1 s2 : string) :
  String.length (s1 ++ s2) = (String.length s1 + String.length s2)%nat.
Proof. induction s1 as [|c s1 IH]; simpl; [reflexivity | now rewrite IH]. Qed.

Lemma pad_digits_length (k : nat) (r : Z) : String.length (pad_digits k r) = k.
Proof.
  revert r. induction k as [|k IH]; intros r; simpl; [reflexivity|].
  rewrite length_app, IH. simpl. lia.
Qed.

Lemma digits_acc_pad (k : nat) (r acc : Z) :
  0 <= r < 10 ^ Z.of_nat k ->
  digits_acc acc (pad_digits k r) = Some (acc * 10 ^ Z.of_nat k + r).
Proof.
  revert r. induction k as [|k IH]; intros r Hr.
  - simpl in *. f_equal. lia.
  - cbn [pad_digits]. rewrite digits_acc_app.
    replace (Z.of_nat (S k)) with (Z.of_nat k + 1) in * by lia.
    rewrite Z.pow_add_r in * by lia. change (10 ^ 1) with 10 in *.
    pose proof (Z.div_mod r 10 ltac:(lia)) as Hdm.
    pose proof (Z.mod_pos_bound r 10 ltac:(lia)) as Hm.
    rewrite IH by (split; [apply Z.div_pos; lia | apply Z.div_lt_upper_bound; lia]).
    cbn [digits_acc].
    destruct (digit_char_spec (r mod 10) Hm) as [-> [-> _]].
    f_equal. lia.
Qed.

(* ---------------------------------------------------------------- *)

Lemma rstrip_by_snoc (p : ascii -> bool) (u : string) (c : ascii) :
  Str.rstrip_by p (u ++ String c "")
  = if p c then Str.rstrip_by p u else u ++ String c "".
Proof.
  induction u as [|a u IH]; cbn [append Str.rstrip_by].
  - destruct (p c); reflexivity.
  - rewrite IH. destruct (p c); [reflexivity|].
    destruct u; reflexivity.
Qed.

Lemma rstrip_by_none (p : ascii -> bool) (s : string) :
  Str.forall_chars (fun c => negb (p c)) s = true -> Str.rstrip_by p s = s.
Proof.
  induction s as [|c s IH]; cbn [Str.forall_chars Str.rstrip_by]; [reflexivity|].
  rewrite andb_true_iff. intros [Hc Hs]. rewrite (IH Hs).
  destruct s; [|reflexivity]. destruct (p c); [discriminate | reflexivity].
Qed.

Lemma rstrip_by_all (p : ascii -> bool) (s : string) :
  Str.forall_chars p s = true -> Str.rstrip_by p s = "".
Proof.
  induction s as [|c s IH]; cbn [Str.forall_chars Str.rstrip_by]; [reflexivity|].
  rewrite andb_true_iff. intros [Hc Hs]. now rewrite (IH Hs), Hc.
Qed.

Lemma rstrip_by_app_all (p : ascii -> bool) (u v : string) :
  Str.forall_chars p v = true -> Str.rstrip_by p (u ++ v) = Str.rstrip_by p u.
Proof.
  intros Hv. induction u as [|a u IH]; cbn [append Str.rstrip_by].
  - now apply rstrip_by_all.
  - now rewrite IH.
Qed.

Lemma rstrip_by_app_keep (p : ascii -> bool) (u v : string) :
  Str.is_empty (Str.rstrip_by p v) = false ->
  Str.rstrip_by p (u ++ v) = u ++ Str.rstrip_by p v.
Proof.
  intros Hv. induction u as [|a u IH]; cbn [append Str.rstrip_by]; [reflexivity|].
  rewrite IH. destruct (u ++ Str.rstrip_by p v) eqn:E; [|reflexivity].
  destruct u; [|discriminate]. simpl in E. rewrite E in Hv. discriminate.
Qed.

Lemma lstrip_by_none (p : ascii -> bool) (s : string) :
  Str.forall_chars (fun c => negb (p c)) s = true -> Str.lstrip_by p s = s.
Proof.
  destruct s as [|c s]; cbn [Str.forall_chars Str.lstrip_by]; [reflexivity|].
  rewrite andb_true_iff. intros [Hc _]. destruct (p c); [discriminate | reflexivity].
Qed.

(** The fraction digits left after the trailing zeros are dropped. *)
Lemma rstrip_zeros_pad (k : nat) (r : Z) :
  0 < r < 10 ^ Z.of_nat k ->
  exists (j : nat) (r' : Z),
    (0 < j <= k)%nat
    /\ Str.rstrip_char "0" (pad_digits k r) = pad_digits j r'
    /\ r = r' * 10 ^ (Z.of_nat k - Z.of_nat j)
    /\ 0 < r' < 10 ^ Z.of_nat j.
Proof.
  revert r. induction k as [|k IH]; intros r Hr.
  - simpl in Hr. lia.
  - cbn [pad_digits]. unfold Str.rstrip_char. rewrite rstrip_by_snoc.
    pose proof (Z.div_mod r 10 ltac:(lia)) as Hdm.
    pose proof (Z.mod_pos_bound r 10 ltac:(lia)) as Hm.
    destruct (digit_char_spec (r mod 10) Hm) as [_ [_ [-> _]]].
    replace (Z.of_nat (S k)) with (Z.of_nat k + 1) in * by lia.
    rewrite Z.pow_add_r in Hr by lia. change (10 ^ 1) with 10 in Hr.
    destruct (Z.eqb_spec (r mod 10) 0) as [E|E].
    + destruct (IH (r / 10)) as [j [r' [Hj [Hs [Hv Hb]]]]]; [lia|].
      exists j, r'. split; [lia|]. split; [exact Hs|]. split; [|exact Hb].
      replace (Z.of_nat k + 1 - Z.of_nat j) with (Z.of_nat k - Z.of_nat j + 1) by lia.
      rewrite Z.pow_add_r by lia. change (10 ^ 1) with 10. lia.
    + exists (S k), r. split; [lia|]. split; [reflexivity|].
      replace (Z.of_nat (S k)) with (Z.of_nat k + 1) by lia.
      rewrite Z.sub_diag, Z.pow_add_r by lia. change (10 ^ 1) with 10. lia.
Qed.

Lemma digits_are_not (c0 : ascii) (s : string) :
  Str.isdigit c0 = false ->
  Str.forall_chars Str.isdigit s = true ->
  Str.forall_chars (fun c => negb (Ascii.eqb c c0)) s = true.
Proof.
  intros H0. apply forall_chars_impl. intros c Hc.
  destruct (Ascii.eqb_spec c c0) as [->|]; [congruence | reflexivity].
Qed.

(** ["123.000000"] is stripped to ["123"]. *)
Lemma strip_zero_fraction (ip : string) :
  Str.forall_chars Str.isdigit ip = true ->
  Str.rstrip_char "." (Str.rstrip_char "0" (ip ++ "." ++ pad_digits 6 0)) = ip.
Proof.
  intros Hip. unfold Str.rstrip_char.
  rewrite <- append_assoc, rstrip_by_app_all by reflexivity.
  rewrite rstrip_by_snoc. cbn [Ascii.eqb Bool.eqb].
  change (Ascii.eqb "." "0") with false. cbv iota.
  rewrite rstrip_by_snoc. change (Ascii.eqb "." ".") with true. cbv iota.
  apply rstrip_by_none. now apply digits_are_not.
Qed.

(** ["123.450000"] is stripped to ["123.45"]. *)
Lemma strip_fraction (ip : string) (r : Z) :
  0 < r < 10 ^ 6 ->
  exists (j : nat) (r' : Z),
    (0 < j <= 6)%nat
    /\ Str.rstrip_char "." (Str.rstrip_char "0" (ip ++ "." ++ pad_digits 6 r))
       = ip ++ "." ++ pad_digits j r'
    /\ r = r' * 10 ^ (6 - Z.of_nat j)
    /\ 0 < r' < 10 ^ Z.of_nat j.
Proof.
  intros Hr.
  destruct (rstrip_zeros_pad 6 r Hr) as [j [r' [Hj [Hs [Hv Hb]]]]].
  exists j, r'. split; [exact Hj|]. split; [|split; assumption].
  assert (Hne : Str.is_empty (pad_digits j r') = false).
  { destruct j; [lia|]. cbn [pad_digits].
    rewrite is_empty_app. cbn. apply andb_false_r. }
  unfold Str.rstrip_char in *.
  rewrite <- append_assoc, rstrip_by_app_keep by (rewrite Hs; exact Hne).
  rewrite Hs, rstrip_by_app_keep.
  - rewrite rstrip_by_none; [now rewrite append_assoc|].
    apply digits_are_not; [reflexivity | apply pad_digits_digits].
  - rewrite rstrip_by_none; [exact Hne|].
    apply digits_are_not; [reflexivity | apply pad_digits_digits].
Qed.

End DecimalStrings.

(* ================================================================== *)
(** * Reading back what was printed *)

Section Reparse.
Import Float.
Local Open Scope R_scope.

Lemma nearest_even_int (i q : Z) : nearest_even (IZR i) q -> q = i.
Proof.
  intros [H _]. rewrite <- minus_IZR, Rabs_Zabs in H.
  assert (IZR (Z.abs (q - i)) < 1) by lra.
  apply lt_IZR in H0. lia.
Qed.

(** The decimal that a fraction was printed as reads back to a float that
    prints the same: [N / D] is the printed value [q / 10^6] of [m * 2^e]. *)
Lemma format_number_reparse_fraction (m e N D : Z) :
  (0 <= m < 2 ^ 53)%Z -> (emin <= e)%Z -> (e < 0)%Z ->
  (millionths m e mod 10 ^ 6 <> 0)%Z ->
  (0 < N)%Z -> (0 < D)%Z ->
  IZR N / IZR D = IZR (millionths m e) / 1000000 ->
  format_number (round_float false N D)
  = Ok (Str.rstrip_char "." (Str.rstrip_char "0"
          (str_of_Z (millionths m e / 10 ^ 6) ++ "."
           ++ pad_digits 6 (millionths m e mod 10 ^ 6))%string)).
Proof.
  intros Hm He Hneg Hr HN HD Hv.
  destruct (millionths_spec m e ltac:(lia)) as [[Hq Hqe] Hq0].
  set (q := millionths m e) in *.
  pose proof (negative_exponent_small m e Hm Hneg) as Hx.
  assert (Hx0 : 0 <= F2R m e).
  { unfold F2R. pose proof (bpow_pos e). assert (0 <= IZR m) by (apply IZR_le; lia). nra. }
  (* the printed value does not overflow *)
  destruct (round_float_is_finite false N D HN HD) as [M' [E' Hy]].
  { rewrite Hv. unfold F2R.
    assert (1 <= bpow emax) by (apply bpow_ge_1; unfold emax; lia).
    assert (IZR (2 ^ 53 - 1) = 2 * bpow 52 - 1)
      by (rewrite minus_IZR, <- bpow_IZR by lia;
          replace (bpow 53) with (2 * bpow 52) by (rewrite <- bpow_succ; reflexivity); lra).
    assert (2 <= bpow 52).
    { replace 2 with (bpow 1) by (unfold bpow; simpl; lra). apply bpow_le. lia. }
    assert (IZR q <= F2R m e * 1000000 + / 2)
      by (revert Hq; unfold Rabs; destruct Rcase_abs; lra).
    assert (IZR q / 1000000 <= 2 * bpow 52 - 1) by lra.
    rewrite H0. nra. }
  rewrite Hy.
  destruct (round_float_finite_spec _ _ _ _ _ _ HN HD Hy) as [_ [HM' [HE' _]]].
  pose proof (round_float_nearest _ _ _ _ _ _ m e HN HD Hy Hm He) as Hnear.
  rewrite Hv in Hnear.
  (* the new float rounds to the same millionths *)
  assert (Hscale : forall x : R,
             Rabs (IZR q - x * 1000000) = Rabs (x - IZR q / 1000000) * 1000000).
  { intros x. replace (IZR q - x * 1000000) with (- ((x - IZR q / 1000000) * 1000000))
      by field.
    rewrite Rabs_Ropp, Rabs_mult, (Rabs_pos_eq 1000000) by lra. reflexivity. }
  assert (Hle : Rabs (IZR q - F2R M' E' * 1000000) <= Rabs (IZR q - F2R m e * 1000000)).
  { rewrite !Hscale. apply Rmult_le_compat_r; [lra | exact Hnear]. }
  assert (Hq' : nearest_even (F2R M' E' * 1000000) q).
  { split; [lra|]. intros T. apply Hqe. lra. }
  destruct (millionths_spec M' E' ltac:(lia)) as [Hm' _].
  pose proof (nearest_even_unique _ _ _ Hm' Hq') as Em.
  (* and it is no integer *)
  destruct (format_number_fin M' E' ltac:(lia)) as [i [_ [Hi ->]]].
  destruct (eq_int (Ffin false M' E') i) eqn:Ei.
  - exfalso. apply eq_int_spec in Ei. rewrite Ei in Hq'.
    replace (IZR i * 1000000) with (IZR (i * 10 ^ 6)) in Hq'
      by (rewrite mult_IZR; simpl; lra).
    apply nearest_even_int in Hq'. apply Hr. fold q. rewrite Hq'.
    apply Z.mod_mul. lia.
  - fold q. rewrite Em. reflexivity.
Qed.

Local Open Scope string_scope.

(** Formatting a float, and formatting the float that its printed form
    reads as, give the same string. *)
Lemma format_number_stable (m e : Z) :
  (0 <= m < 2 ^ 53)%Z -> (emin <= e <= emax)%Z ->
  exists s : string,
    format_number (Ffin false m e) = Ok s
    /\ ((exists n : Z,
           (0 <= n)%Z /\ s = str_of_Z n
           /\ format_number (round_float false n 1) = Ok s)
        \/ (exists (n0 : Z) (j : nat) (r' : Z),
              (0 <= n0)%Z /\ (0 < j)%nat /\ (0 <= r' < 10 ^ Z.of_nat j)%Z
              /\ s = str_of_Z n0 ++ "." ++ pad_digits j r'
              /\ format_number (round_float false (n0 * 10 ^ Z.of_nat j + r')
                                            (10 ^ Z.of_nat j)) = Ok s)).
Proof.
  intros Hm He.
  destruct (format_number_fin m e ltac:(lia)) as [i [Hi0 [Hi Hf]]].
  rewrite Hf. eexists. split; [reflexivity|].
  destruct (eq_int (Ffin false m e) i) eqn:Ei.
  - left. exists i. split; [assumption|]. split; [reflexivity|].
    apply eq_int_spec in Ei.
    now apply (format_number_round_int i m e).
  - destruct (Z.lt_ge_cases e 0) as [Hneg|Hpos].
    2:{ exfalso. rewrite (F2R_nonneg_exp m e Hpos) in Hi.
        assert (i = (m * 2 ^ e)%Z) by (eapply floor_unique; [exact Hi | lra]).
        subst i. assert (eq_int (Ffin false m e) (m * 2 ^ e) = true)
          by (apply eq_int_spec, F2R_nonneg_exp; assumption).
        congruence. }
    destruct (millionths_spec m e ltac:(lia)) as [[Hq _] Hq0].
    pose proof (negative_exponent_small m e Hm Hneg) as Hx.
    set (q := millionths m e) in *.
    pose proof (Z.div_mod q (10 ^ 6) ltac:(lia)) as Hdm.
    pose proof (Z.mod_pos_bound q (10 ^ 6) ltac:(lia)) as Hr.
    assert (Hn0 : (0 <= q / 10 ^ 6)%Z) by (apply Z.div_pos; lia).
    destruct (Z.eq_dec (q mod 10 ^ 6) 0) as [E0|N0].
    + left. exists (q / 10 ^ 6)%Z. split; [assumption|].
      rewrite E0, strip_zero_fraction by (apply str_of_Z_digits; assumption).
      split; [reflexivity|].
      apply (format_number_round_int _ (q / 10 ^ 6) 0); try (unfold emin, emax; lia).
      * split; [assumption|].
        assert (Hq52 : IZR q < IZR (2 ^ 52 * 10 ^ 6 + 1)).
        { rewrite plus_IZR, mult_IZR, <- bpow_IZR by lia.
          replace (IZR (10 ^ 6)) with 1000000%R by (simpl; lra).
          revert Hq. unfold Rabs. destruct Rcase_abs; lra. }
        apply lt_IZR in Hq52. lia.
      * unfold F2R. rewrite bpow_0. lra.
    + right. destruct (strip_fraction (str_of_Z (q / 10 ^ 6)) (q mod 10 ^ 6) ltac:(lia))
        as [j [r' [Hj [Hs [Hv Hb]]]]].
      exists (q / 10 ^ 6)%Z, j, r'.
      split; [assumption|]. split; [lia|]. split; [lia|]. split; [exact Hs|].
      pose proof (Z.pow_pos_nonneg 10 (Z.of_nat j) ltac:(lia) ltac:(lia)) as Pj.
      apply format_number_reparse_fraction; try lia;
        try (apply Z.add_nonneg_pos; [apply Z.mul_nonneg_nonneg; lia | lia]);
        [exact N0|].
      * assert (E6 : (10 ^ 6 = 10 ^ Z.of_nat j * 10 ^ (6 - Z.of_nat j))%Z)
          by (rewrite <- Z.pow_add_r by lia; f_equal; lia).
        pose proof (Z.pow_pos_nonneg 10 (6 - Z.of_nat j) ltac:(lia) ltac:(lia)) as Pk.
        assert (Eq : (q = (q / 10 ^ 6 * 10 ^ Z.of_nat j + r') * 10 ^ (6 - Z.of_nat j))%Z)
          by nia.
        set (n0 := (q / 10 ^ 6)%Z) in *. clearbody n0.
        replace (IZR (millionths m e)) with (IZR q) by reflexivity.
        rewrite Eq, mult_IZR.
        replace 1000000%R with (IZR (10 ^ 6)) by (simpl; lra).
        rewrite E6, mult_IZR. apply IZR_lt in Pj, Pk. field. lra.
Qed.

End Reparse.

(* ================================================================== *)
(** * The normaliser on a numeral *)

Section Numerals.
Import Float.
Local Open Scope string_scope.
Local Open Scope Z_scope.

(** What a digit or a dot is not. *)
Lemma numch_facts (c : ascii) :
  Re.isnumch c = true ->
  Str.isspace c = false /\ isspace_num c = false
  /\ Ascii.eqb c "$" = false /\ Ascii.eqb c "_" = false
  /\ Ascii.eqb c "-" = false /\ Ascii.eqb c "+" = false
  /\ Ascii.eqb (Str.lower_char c) "i" = false
  /\ Ascii.eqb (Str.lower_char c) "n" = false
  /\ Re.ci_eqb c "d" = false /\ Re.ci_eqb c "U" = false /\ Re.ci_eqb c "u" = false
  /\ Str.lower_char c = c.
Proof.
  destruct c as [[|] [|] [|] [|] [|] [|] [|] [|]];
    try (intros H; discriminate H); intros _; repeat split; reflexivity.
Qed.

Lemma numch_no_space (s : string) :
  Str.forall_chars Re.isnumch s = true ->
  Str.forall_chars (fun c => negb (Str.isspace c)) s = true
  /\ Str.forall_chars (fun c => negb (isspace_num c)) s = true.
Proof.
  intros H. split; (eapply forall_chars_impl; [|exact H]); intros c Hc;
    destruct (numch_facts c Hc) as [H1 [H2 _]]; [now rewrite H1 | now rewrite H2].
Qed.

Lemma lower_numeral (s : string) :
  Str.forall_chars Re.isnumch s = true -> Str.lower s = s.
Proof.
  induction s as [|c s IH]; simpl; [reflexivity|].
  rewrite andb_true_iff. intros [Hc Hs].
  destruct (numch_facts c Hc) as [_ [_ [_ [_ [_ [_ [_ [_ [_ [_ [_ ->]]]]]]]]]]].
  now rewrite IH.
Qed.

Lemma split_from_no_space (s cur : string) :
  Str.forall_chars (fun c => negb (Str.isspace c)) s = true ->
  Str.split_from cur s = if String.eqb (cur ++ s) "" then [] else [cur ++ s].
Proof.
  revert cur. induction s as [|c s IH]; intros cur; cbn [Str.forall_chars Str.split_from].
  - now rewrite append_empty_r.
  - rewrite andb_true_iff. intros [Hc Hs].
    destruct (Str.isspace c); [discriminate|].
    rewrite (IH _ Hs), append_assoc. reflexivity.
Qed.

Lemma suffix_words_no_match (s : string) :
  Str.forall_chars Re.isnumch s = true -> Re.first_alt Re.suffix_words s = None.
Proof.
  destruct s as [|c s]; [reflexivity|].
  cbn [Str.forall_chars]. rewrite andb_true_iff. intros [Hc _].
  destruct (numch_facts c Hc) as [_ [_ [_ [_ [_ [_ [_ [_ [Hd [HU [Hu _]]]]]]]]]]].
  unfold Re.suffix_words.
  cbn [Re.first_alt Re.lits app Re.match_items]. rewrite Hd.
  cbn [Re.first_alt Re.lits app Re.match_items]. rewrite HU.
  cbn [Re.first_alt Re.lits app Re.match_items]. rewrite Hu.
  reflexivity.
Qed.

Lemma sub_trailing_words_numeral (s : string) :
  Str.forall_chars Re.isnumch s = true -> Re.sub_trailing_words s = s.
Proof.
  induction s as [|c s IH]; intros H.
  - reflexivity.
  - cbn [Re.sub_trailing_words].
    unfold Str.lstrip. rewrite lstrip_by_none by apply numch_no_space, H.
    rewrite (suffix_words_no_match _ H).
    cbn [Str.forall_chars] in H. apply andb_true_iff in H as [_ Hs].
    now rewrite (IH Hs).
Qed.

(** The cleaning steps leave a string of digits and dots alone. *)
Lemma clean_answer_numeral (s : string) :
  Str.forall_chars Re.isnumch s = true -> Str.is_empty s = false ->
  clean_answer s = s.
Proof.
  intros H Hne. unfold clean_answer, Str.strip, Str.lstrip, Str.rstrip.
  destruct (numch_no_space s H) as [Hsp _].
  rewrite rstrip_by_none, lstrip_by_none by exact Hsp.
  assert (E1 : Re.sub_leading_dollar s = s).
  { destruct s as [|c s]; [reflexivity|]. cbn [Str.forall_chars] in H.
    apply andb_true_iff in H as [Hc _].
    destruct (numch_facts c Hc) as [_ [_ [Hd _]]]. cbn. now rewrite Hd. }
  rewrite E1.
  assert (E2 : Re.sub_leading_usd s = s).
  { destruct s as [|c s]; [reflexivity|]. cbn [Str.forall_chars] in H.
    apply andb_true_iff in H as [Hc _].
    destruct (numch_facts c Hc) as [_ [_ [_ [_ [_ [_ [_ [_ [_ [HU _]]]]]]]]]].
    unfold Re.sub_leading_usd. cbn [Re.lits Re.match_items]. now rewrite HU. }
  rewrite E2, (sub_trailing_words_numeral _ H).
  unfold Str.split. rewrite (split_from_no_space _ _ Hsp). cbn [append].
  destruct s; [discriminate | reflexivity].
Qed.

Lemma search_numeral (s : string) :
  Str.forall_chars Re.isnumch s = true -> Str.is_empty s = false ->
  Re.search_number_unit Re.normalize_units s = Some (s, None).
Proof.
  intros H Hne.
  pose proof (search_number_unit_first_run Re.normalize_units "" s "" eq_refl Hne H I) as E.
  cbn [append] in E. rewrite append_empty_r in E. exact E.
Qed.

Lemma drop_underscores_numeral (s : string) (prev : ascii) :
  Str.forall_chars Re.isnumch s = true -> Ascii.eqb prev "_" = false ->
  drop_underscores prev s = Some s.
Proof.
  revert prev. induction s as [|c s IH]; intros prev H Hp; cbn [drop_underscores].
  - now rewrite Hp.
  - cbn [Str.forall_chars] in H. apply andb_true_iff in H as [Hc Hs].
    destruct (numch_facts c Hc) as [_ [_ [_ [Hu _]]]].
    rewrite Hu, Hp. cbn [andb]. now rewrite (IH c Hs Hu).
Qed.

(** [float()] on digits and dots is the reading of a decimal. *)
Lemma of_string_numeral (s : string) :
  Str.forall_chars Re.isnumch s = true ->
  of_string s = parse_decimal false s.
Proof.
  intros H. unfold of_string, strip_num.
  destruct (numch_no_space s H) as [_ Hsp].
  rewrite rstrip_by_none, lstrip_by_none by exact Hsp.
  rewrite drop_underscores_numeral by (exact H || reflexivity).
  destruct s as [|c s]; [reflexivity|].
  cbn [Str.forall_chars] in H. apply andb_true_iff in H as [Hc Hs].
  destruct (numch_facts c Hc) as [_ [_ [_ [_ [Hm [Hp [Hi [Hn _]]]]]]]].
  cbn [take_sign]. rewrite Hm, Hp. cbn [Str.lower String.eqb].
  now rewrite Hi, Hn.
Qed.

Lemma span_all (p : ascii -> bool) (s : string) :
  Str.forall_chars p s = true -> Re.span p s = (s, "").
Proof.
  intros H. pose proof (span_app p s "" H I) as E.
  now rewrite append_empty_r in E.
Qed.

Lemma parse_decimal_digits (ip : string) (n : Z) :
  Str.forall_chars Str.isdigit ip = true -> Str.is_empty ip = false ->
  digits_value ip = Some n ->
  parse_decimal false ip = Some (round_float false n 1).
Proof.
  intros H Hne Hn. unfold parse_decimal.
  rewrite (span_all _ _ H), Hne. cbn [andb].
  rewrite append_empty_r, Hn. cbn [parse_exponent String.length].
  unfold of_decimal. cbn. now rewrite Z.mul_1_r.
Qed.

Lemma parse_decimal_fraction (ip fp : string) (n : Z) :
  Str.forall_chars Str.isdigit ip = true ->
  Str.forall_chars Str.isdigit fp = true -> Str.is_empty fp = false ->
  digits_value (ip ++ fp) = Some n ->
  parse_decimal false (ip ++ "." ++ fp)
  = Some (round_float false n (10 ^ Z.of_nat (String.length fp))).
Proof.
  intros Hi Hf Hne Hn. unfold parse_decimal.
  rewrite (span_app Str.isdigit ip ("." ++ fp) Hi eq_refl).
  cbn [append]. change (Ascii.eqb "." ".") with true. cbv iota.
  rewrite (span_all _ _ Hf), Hne, andb_false_r, Hn.
  cbn [parse_exponent]. unfold of_decimal.
  destruct fp as [|c fp]; [discriminate|].
  destruct (Z.leb_spec 0 (0 - Z.of_nat (String.length (String c fp)))) as [L|L].
  - cbn [String.length] in L. lia.
  - replace (- (0 - Z.of_nat (String.length (String c fp))))
      with (Z.of_nat (String.length (String c fp))) by lia.
    reflexivity.
Qed.

(** A string of digits and dots that reads as a float printing as the
    string itself is a fixed point of the normaliser. *)
Lemma normalize_answer_numeral (s t : string) (y : float) :
  is_numeric_type t = true ->
  Str.forall_chars Re.isnumch s = true -> Str.is_empty s = false ->
  of_string s = Some y -> format_number y = Ok s ->
  normalize_answer s t = Ok s.
Proof.
  intros Ht H Hne Hy Hf. unfold normalize_answer.
  rewrite Hne, Ht, (clean_answer_numeral s H Hne).
  unfold normalize_number. rewrite (search_numeral s H Hne).
  cbn [truthy]. rewrite Hy. cbn [or_ValueError bind normalize_convert truthy].
  rewrite Hf. cbn [except_ValueError bind]. now rewrite lower_numeral.
Qed.

End Numerals.

(* ================================================================== *)
(** * Idempotence on numbers *)

Section Idempotence.
Import Float.
Local Open Scope string_scope.
Local Open Scope Z_scope.

Lemma span_fst_forall (p : ascii -> bool) (s : string) :
  Str.forall_chars p (fst (Re.span p s)) = true.
Proof.
  induction s as [|c s IH]; cbn [Re.span]; [reflexivity|].
  destruct (p c) eqn:Hc; [|reflexivity].
  destruct (Re.span p s) as [u v]. cbn in *. now rewrite Hc, IH.
Qed.

(** Group 1 of the search is a run of digits and dots. *)
Lemma search_run_numch (units : list (list Re.item)) (s run : string) (g2 : option string) :
  Re.search_number_unit units s = Some (run, g2) ->
  Str.forall_chars Re.isnumch run = true.
Proof.
  induction s as [|c s IH]; cbn [Re.search_number_unit]; [discriminate|].
  destruct (Re.isnumch c) eqn:Hc; [|exact IH].
  pose proof (span_fst_forall Re.isnumch (String c s)) as H.
  destruct (Re.span Re.isnumch (String c s)) as [u v].
  intros [= <- _]. exact H.
Qed.

Lemma digits_acc_nonneg (s : string) (acc v : Z) :
  0 <= acc -> digits_acc acc s = Some v -> 0 <= v.
Proof.
  revert acc. induction s as [|c s IH]; intros acc Ha; cbn [digits_acc].
  - intros [= <-]. exact Ha.
  - destruct (Str.isdigit c) eqn:Hc; [|discriminate].
    apply IH. unfold Str.isdigit in Hc. apply andb_true_iff in Hc as [L _].
    apply N.leb_le in L. lia.
Qed.

(** [round_float] returns a float in range, or the infinity. *)
Lemma round_float_ok (n d : Z) :
  0 <= n -> 0 < d -> nonneg_number (round_float false n d).
Proof.
  intros Hn Hd. destruct (Z.eq_dec n 0) as [->|N0].
  - right. exists 0, emin. repeat split; unfold emin, emax; lia.
  - assert (Hn' : 0 < n) by lia.
    destruct (round_float false n d) as [|s|s m e] eqn:E.
    + exfalso. exact (round_float_not_nan _ _ _ E).
    + left. destruct (round_float_cases false n d Hn' Hd) as [M [_ [_ [_ Hr]]]].
      rewrite Hr in E. revert E.
      repeat match goal with |- context [if ?b then _ else _] => destruct b end;
        congruence.
    + right. destruct (round_float_finite_spec _ _ _ _ _ _ Hn' Hd E)
        as [-> [Hm [He _]]].
      exists m, e. repeat split; lia.
Qed.

Lemma parse_decimal_ok (s : string) (x : float) :
  parse_decimal false s = Some x -> nonneg_number x.
Proof.
  unfold parse_decimal.
  destruct (Re.span Str.isdigit s) as [ip r1].
  destruct (match r1 with "" => _ | String c r => _ end) as [fp r2].
  destruct (Str.is_empty ip && Str.is_empty fp); [discriminate|].
  destruct (digits_value (ip ++ fp)) as [n|] eqn:En; [|discriminate].
  destruct (parse_exponent r2) as [ex|]; [|discriminate].
  intros [= <-]. apply digits_acc_nonneg in En; [|lia].
  unfold of_decimal. destruct (Z.leb_spec 0 (ex - Z.of_nat (String.length fp))) as [L|L].
  - apply round_float_ok; [|lia].
    pose proof (Z.pow_pos_nonneg 10 _ ltac:(lia) L). nia.
  - apply round_float_ok; [lia|]. apply Z.pow_pos_nonneg; lia.
Qed.

Lemma of_string_numch_ok (run : string) (x : float) :
  Str.forall_chars Re.isnumch run = true -> of_string run = Some x -> nonneg_number x.
Proof.
  intros H. rewrite (of_string_numeral run H). apply parse_decimal_ok.
Qed.

Lemma mul_ok (x : float) (m' e' : Z) :
  0 < m' -> nonneg_number x -> nonneg_number (mul x (Ffin false m' e')).
Proof.
  intros Hm' [->|[m [e [-> [Hm He]]]]].
  - left. cbn [mul]. destruct (Z.eqb_spec m' 0); [lia | reflexivity].
  - cbn [mul xorb]. unfold round_m2e.
    destruct (scale2 (m * m') 1 (- (e + e'))) as [n d] eqn:Es.
    destruct (scale2_spec _ _ _ _ _ Z.lt_0_1 Es) as [Hd [_ [Hn _]]].
    apply round_float_ok; [apply Hn; nia | exact Hd].
Qed.

Lemma div_ok (x : float) (m' e' : Z) :
  0 < m' -> nonneg_number x -> nonneg_number (div x (Ffin false m' e')).
Proof.
  intros Hm' [->|[m [e [-> [Hm He]]]]].
  - left. reflexivity.
  - cbn [div xorb]. destruct (Z.eqb_spec m' 0) as [|_]; [lia|].
    destruct (scale2 m m' (e' - e)) as [n d] eqn:Es.
    destruct (scale2_spec _ _ _ _ _ Hm' Es) as [Hd [_ [Hn _]]].
    apply round_float_ok; [apply Hn; lia | exact Hd].
Qed.

(** The unit conversions keep a non-negative number non-negative. *)
Lemma normalize_convert_ok (x : float) (unit : option string) :
  nonneg_number x -> nonneg_number (normalize_convert x unit).
Proof.
  intros Hx. unfold normalize_convert.
  assert (C1 : of_Z 1000 = Ffin false 8796093022208000 (-43)) by (vm_compute; reflexivity).
  assert (C2 : of_Z 100 = Ffin false 7036874417766400 (-46)) by (vm_compute; reflexivity).
  assert (C3 : of_Z 1000000 = Ffin false 8589934592000000 (-33)) by (vm_compute; reflexivity).
  rewrite C1, C2, C3.
  destruct (truthy unit); [|exact Hx].
  repeat match goal with
         | |- context [if ?b then _ else _] => destruct b
         end;
    try exact Hx; (apply mul_ok || apply div_ok); (lia || exact Hx).
Qed.

Lemma digit_is_numch (s : string) :
  Str.forall_chars Str.isdigit s = true -> Str.forall_chars Re.isnumch s = true.
Proof.
  apply forall_chars_impl. intros c H. unfold Re.isnumch. now rewrite H.
Qed.

(** What the normaliser prints for a float in range is a fixed point. *)
Lemma normalize_answer_printed (m e : Z) (t : string) :
  is_numeric_type t = true ->
  0 <= m < 2 ^ 53 -> emin <= e <= emax ->
  exists s : string,
    format_number (Ffin false m e) = Ok s
    /\ Str.lower s = s
    /\ normalize_answer s t = Ok s.
Proof.
  intros Ht Hm He.
  destruct (format_number_stable m e Hm He) as [s [Hf Hs]].
  exists s. split; [exact Hf|].
  destruct Hs as [[n [Hn [-> Hr]]] | [n0 [j [r' [Hn0 [Hj [Hr' [-> Hr]]]]]]]].
  - pose proof (digit_is_numch _ (str_of_Z_digits n Hn)) as Hc.
    split; [now apply lower_numeral|].
    apply (normalize_answer_numeral _ _ (round_float false n 1)); try assumption.
    + now apply str_of_Z_nonempty.
    + rewrite (of_string_numeral _ Hc).
      apply parse_decimal_digits.
      * now apply str_of_Z_digits.
      * now apply str_of_Z_nonempty.
      * now apply str_of_Z_value.
  - pose proof (str_of_Z_digits n0 Hn0) as Hip.
    pose proof (pad_digits_digits j r') as Hfp.
    assert (Hc : Str.forall_chars Re.isnumch (str_of_Z n0 ++ "." ++ pad_digits j r') = true).
    { rewrite !forall_chars_app, (digit_is_numch _ Hip), (digit_is_numch _ Hfp).
      reflexivity. }
    assert (Hne : Str.is_empty (str_of_Z n0 ++ "." ++ pad_digits j r') = false).
    { rewrite is_empty_app. cbn. apply andb_false_r. }
    split; [now apply lower_numeral|].
    eapply normalize_answer_numeral; try eassumption.
    rewrite (of_string_numeral _ Hc).
    rewrite (parse_decimal_fraction _ _ (n0 * 10 ^ Z.of_nat j + r') Hip Hfp).
    + now rewrite pad_digits_length.
    + destruct j; [lia|]. cbn [pad_digits]. rewrite is_empty_app. cbn.
      apply andb_false_r.
    + unfold digits_value. rewrite digits_acc_app.
      fold (digits_value (str_of_Z n0)). unfold digits_value.
      rewrite (str_of_Z_value n0 Hn0). now apply digits_acc_pad.
Qed.

End Idempotence.

(** C6, on numeric answers: when the normaliser finds a number in the
    answer, that is when the first run of digits and dots of the cleaned
    answer reads as a float, normalising the result again changes nothing;
    and when the first normalisation raises, so does the composition. *)
Theorem normalize_answer_idempotent_on_numbers
    (a t num_str : string) (g2 : option string) (x : Float.float)
    (Ht : is_numeric_type t = true)
    (Hs : Re.search_number_unit Re.normalize_units (clean_answer a) = Some (num_str, g2))
    (Hx : Float.of_string num_str = Some x) :
  (s <- normalize_answer a t ;; normalize_answer s t) = normalize_answer a t.
Proof.
  unfold normalize_answer at 1 3.
  destruct (Str.is_empty a); [reflexivity|].
  rewrite Ht. unfold normalize_number. rewrite Hs, Hx.
  cbn [or_ValueError bind].
  pose proof (search_run_numch _ _ _ _ Hs) as Hrun.
  pose proof (of_string_numch_ok _ _ Hrun Hx) as Hok.
  apply (normalize_convert_ok _ (if truthy g2 then g2 else None)) in Hok.
  destruct Hok as [->|[m [e [-> [Hm He]]]]].
  - reflexivity.
  - destruct (normalize_answer_printed m e t Ht Hm He) as [s [-> [Hl Hn]]].
    cbn [except_ValueError bind]. rewrite Hl. exact Hn.
Qed.

(** The theorem at ["5 cm"]: the first run is ["5"], read as 5.0, and both
    sides are ["0.05"]. *)
Lemma normalize_answer_idempotent_on_numbers_witness :
  is_numeric_type "float" = true
  /\ Re.search_number_unit Re.normalize_units (clean_answer "5 cm") = Some ("5", Some "cm")
  /\ Float.of_string "5" = Some (Float.of_Z 5)
  /\ normalize_answer "5 cm" "float" = Ok "0.05"
  /\ (s <- normalize_answer "5 cm" "float" ;; normalize_answer s "float") = Ok "0.05".
Proof.
  assert (Ht : is_numeric_type "float" = true) by reflexivity.
  assert (Hs : Re.search_number_unit Re.normalize_units (clean_answer "5 cm")
               = Some ("5", Some "cm")) by (vm_compute; reflexivity).
  assert (Hx : Float.of_string "5" = Some (Float.of_Z 5)) by (vm_compute; reflexivity).
  assert (Hn : normalize_answer "5 cm" "float" = Ok "0.05") by (vm_compute; reflexivity).
  split; [exact Ht|]. split; [exact Hs|]. split; [exact Hx|]. split; [exact Hn|].
  rewrite (normalize_answer_idempotent_on_numbers "5 cm" "float" "5" (Some "cm")
             (Float.of_Z 5) Ht Hs Hx).
  exact Hn.
Defined.

(** C6, as stated, fails: on ["$$"] one normalisation drops one dollar
    sign, and the next one drops the other. *)
Lemma normalize_answer_not_idempotent :
  normalize_answer "$$" "integer" = Ok "$"
  /\ normalize_answer "$" "integer" = Ok ""
  /\ (s <- normalize_answer "$$" "integer" ;; normalize_answer s "integer")
     <> normalize_answer "$$" "integer".
Proof.
  assert (H1 : normalize_answer "$$" "integer" = Ok "$") by (vm_compute; reflexivity).
  assert (H2 : normalize_answer "$" "integer" = Ok "") by (vm_compute; reflexivity).
  split; [exact H1|]. split; [exact H2|].
  rewrite H1. cbn [bind]. rewrite H2. discriminate.
Qed.


(* ================================================================== *)
(** * What the normaliser and the matcher can raise *)

Lemma search_number_unit_None (units : list (list Re.item)) (s : string) :
  Re.search_number_unit units s = None -> Str.forall_chars not_numch s = true.
Proof.
  induction s as [|c s IH]; cbn [Re.search_number_unit Str.forall_chars]; [trivial|].
  unfold not_numch at 1. destruct (Re.isnumch c) eqn:Hc.
  - destruct (Re.span Re.isnumch (String c s)); discriminate.
  - intros H. rewrite (IH H). reflexivity.
Qed.

Lemma format_number_OverflowError (num : Float.float) :
  format_number num = Raise OverflowError -> exists s : bool, num = Float.Finf s.
Proof.
  unfold format_number. destruct num as [|s|s m e]; [discriminate|eauto|].
  cbn [Float.to_int bind]. destruct (Float.eq_int _ _); discriminate.
Qed.

(** X1: [normalize_answer] raises in one situation only.  If it raises,
    the exception is [OverflowError], the answer type is numeric, and the
    first run of digits and dots of the cleaned answer parses as a float
    whose value, after the unit conversion, is plus infinity (from
    [int(num)]).  In particular it never raises for a non-numeric type. *)
Theorem normalize_answer_raises_only_on_infinity (a t : string) (e : exn) :
  normalize_answer a t = Raise e ->
  e = OverflowError
  /\ is_numeric_type t = true
  /\ exists (run : string) (g2 : option string) (x : Float.float),
       Re.search_number_unit Re.normalize_units (clean_answer a) = Some (run, g2)
       /\ Float.of_string run = Some x
       /\ normalize_convert x (if truthy g2 then g2 else None) = Float.Finf false.
Proof.
  unfold normalize_answer.
  destruct (Str.is_empty a); [discriminate|].
  destruct (is_numeric_type t); [|discriminate].
  unfold normalize_number.
  destruct (Re.search_number_unit _ _) as [[run g2]|] eqn:Es.
  - destruct (Float.of_string run) as [x|] eqn:Ex; cbn [or_ValueError bind];
      [|discriminate].
    destruct (format_number _) as [v|[|]] eqn:Ef; cbn [except_ValueError bind];
      [discriminate|discriminate|].
    intros H. inversion H. split; [reflexivity|]. split; [reflexivity|].
    exists run, g2, x. split; [reflexivity|]. split; [exact Ex|].
    apply format_number_OverflowError in Ef. destruct Ef as [s Ef].
    pose proof (search_run_numch _ _ _ _ Es) as Hrun.
    pose proof (normalize_convert_ok x (if truthy g2 then g2 else None)
                  (of_string_numch_ok run x Hrun Ex)) as [Hinf|[m [e' [Hfin _]]]].
    + exact Hinf.
    + rewrite Ef in Hfin. discriminate.
  - apply search_number_unit_None in Es.
    rewrite (has_dot_no_numch _ Es).
    destruct (Float.int_of_string _); cbn [or_ValueError bind except_ValueError];
      discriminate.
Qed.

(** The theorem at a numeral of 309 nines, above the float range. *)
Lemma normalize_answer_raises_only_on_infinity_witness :
  normalize_answer huge_answer "float" = Raise OverflowError
  /\ is_numeric_type "float" = true
  /\ exists (run : string) (g2 : option string) (x : Float.float),
       Re.search_number_unit Re.normalize_units (clean_answer huge_answer) = Some (run, g2)
       /\ Float.of_string run = Some x
       /\ normalize_convert x (if truthy g2 then g2 else None) = Float.Finf false.
Proof.
  assert (H : normalize_answer huge_answer "float" = Raise OverflowError)
    by (vm_compute; reflexivity).
  split; [exact H|].
  exact (proj2 (normalize_answer_raises_only_on_infinity huge_answer "float" OverflowError H)).
Defined.

(** With a non-numeric answer type the normaliser cleans and lower-cases. *)
Lemma normalize_answer_not_numeric (a t : string) :
  is_numeric_type t = false -> normalize_answer a t = Ok (normal_form a).
Proof.
  intros Ht. unfold normalize_answer, normal_form. rewrite Ht.
  destruct (Str.is_empty a); reflexivity.
Qed.

(** X2: [answers_match] raises only what a normalisation raises: if it
    raises, the exception is [OverflowError], the answer type is numeric,
    and the normalisation of one of the two answers raised it.  The
    comparison after the two normalisations never raises. *)
Theorem answers_match_raises_only_in_normalize (a b t : string) (e : exn) :
  answers_match a b t = Raise e ->
  e = OverflowError
  /\ is_numeric_type t = true
  /\ (normalize_answer a t = Raise OverflowError
      \/ normalize_answer b t = Raise OverflowError).
Proof.
  unfold answers_match. intros H.
  destruct (is_numeric_type t) eqn:Ht.
  - destruct (normalize_answer a t) as [na|ea] eqn:Ea; cbn [bind] in H.
    + destruct (normalize_answer b t) as [nb|eb] eqn:Eb; cbn [bind] in H;
        [discriminate|].
      inversion H. subst eb.
      rewrite (normalize_answer_raises b t e Eb) in *. auto.
    + inversion H. subst ea.
      rewrite (normalize_answer_raises a t e Ea) in *. auto.
  - rewrite !(normalize_answer_not_numeric _ t Ht) in H. discriminate.
Qed.

(** The theorem at the numeral of 309 nines against ["1"]. *)
Lemma answers_match_raises_only_in_normalize_witness :
  answers_match huge_answer "1" "float" = Raise OverflowError
  /\ is_numeric_type "float" = true
  /\ (normalize_answer huge_answer "float" = Raise OverflowError
      \/ normalize_answer "1" "float" = Raise OverflowError).
Proof.
  assert (H : answers_match huge_answer "1" "float" = Raise OverflowError)
    by (vm_compute; reflexivity).
  split; [exact H|].
  exact (proj2 (answers_match_raises_only_in_normalize huge_answer "1" "float"
                  OverflowError H)).
Defined.

(* ================================================================== *)
(** * The shape of a normalised answer *)

Lemma lower_char_idempotent (c : ascii) :
  Str.lower_char (Str.lower_char c) = Str.lower_char c.
Proof. destruct c as [[] [] [] [] [] [] [] []]; vm_compute; reflexivity. Qed.

Lemma lower_idempotent (s : string) : Str.lower (Str.lower s) = Str.lower s.
Proof.
  induction s as [|c s IH]; simpl; [reflexivity|].
  now rewrite lower_char_idempotent, IH.
Qed.

(** X3: a normalised answer is in lower case, whatever the answer type:
    lower-casing it again changes nothing. *)
Theorem normalize_answer_is_lower_case (a t s : string) :
  normalize_answer a t = Ok s -> Str.lower s = s.
Proof.
  unfold normalize_answer.
  destruct (Str.is_empty a).
  - intros H. inversion H. reflexivity.
  - destruct (if is_numeric_type t then normalize_number (clean_answer a)
              else Ok (clean_answer a)) as [v|e]; cbn [bind]; [|discriminate].
    intros H. inversion H. apply lower_idempotent.
Qed.

(** The theorem at ["  The Teacher "]. *)
Lemma normalize_answer_is_lower_case_witness :
  normalize_answer "  The Teacher " "string" = Ok "the teacher"
  /\ Str.lower "the teacher" = "the teacher".
Proof.
  assert (H : normalize_answer "  The Teacher " "string" = Ok "the teacher")
    by (vm_compute; reflexivity).
  split; [exact H|].
  exact (normalize_answer_is_lower_case "  The Teacher " "string" "the teacher" H).
Defined.

(* ================================================================== *)
(** * The unit conversions *)

(** X4: the conversion table written inside [normalize_answer] and the
    function [convert_to_base_unit] are the same function of the number
    and the unit. *)
Theorem normalize_convert_is_convert_to_base_unit
    (num : Float.float) (unit : option string) :
  normalize_convert num unit = convert_to_base_unit num unit.
Proof.
  unfold normalize_convert, convert_to_base_unit.
  destruct (truthy unit); reflexivity.
Qed.

Lemma convert_to_base_unit_falsy (num : Float.float) (unit : option string) :
  truthy unit = false -> convert_to_base_unit num unit = num.
Proof. intros H. unfold convert_to_base_unit. rewrite H. reflexivity. Qed.

(** X5: in the numeric comparison of [answers_match], the two one-sided
    checks (one answer converted, the other taken as it is) never decide:
    the numbers match exactly when they are close as written or, if one of
    them has a unit, close after both are converted to the base unit. *)
Theorem numbers_match_one_sided_checks_redundant
    (num1 : Float.float) (unit1 : option string)
    (num2 : Float.float) (unit2 : option string) :
  numbers_match num1 unit1 num2 unit2
  = close num1 num2
    || ((truthy unit1 || truthy unit2)
        && close (convert_to_base_unit num1 unit1) (convert_to_base_unit num2 unit2)).
Proof.
  unfold numbers_match.
  destruct (close num1 num2); [reflexivity|].
  destruct (truthy unit1) eqn:H1, (truthy unit2) eqn:H2; cbn [orb andb negb];
    rewrite ?(convert_to_base_unit_falsy num1 unit1 H1),
            ?(convert_to_base_unit_falsy num2 unit2 H2);
    try reflexivity.
  - destruct (close _ _); reflexivity.
  - destruct (close _ _); reflexivity.
  - destruct (close _ _); reflexivity.
Qed.

(* ================================================================== *)
(** * Answers of type [string] *)

Lemma prefix_refl (s : string) : prefix s s = true.
Proof.
  induction s as [|c s IH]; simpl; [reflexivity|].
  destruct (ascii_dec c c) as [_|N]; [exact IH | now elim N].
Qed.

Lemma contains_refl (s : string) : Str.contains s s = true.
Proof.
  destruct s as [|c s]; [reflexivity|].
  cbn [Str.contains]. rewrite prefix_refl. reflexivity.
Qed.

Lemma contains_empty (s : string) : Str.contains "" s = true.
Proof. destruct s; reflexivity. Qed.

(** X6: for a non-numeric answer type the matcher never raises and is a
    test on the cleaned, lower-cased answers: containment one way or the
    other for the type [string], equality for any other type. *)
Theorem answers_match_not_numeric (a b t : string) :
  is_numeric_type t = false ->
  answers_match a b t
  = Ok (if String.eqb t "string"
        then Str.contains (normal_form a) (normal_form b)
             || Str.contains (normal_form b) (normal_form a)
        else String.eqb (normal_form a) (normal_form b)).
Proof.
  intros Ht. unfold answers_match.
  rewrite !(normalize_answer_not_numeric _ t Ht). cbn [bind].
  unfold match_normalized. rewrite Ht.
  destruct (String.eqb_spec (normal_form a) (normal_form b)) as [E|N].
  - rewrite E, contains_refl. destruct (String.eqb t "string"); reflexivity.
  - reflexivity.
Qed.

(** The theorem at ["Paris"] against ["The city of Paris"]. *)
Lemma answers_match_not_numeric_witness :
  is_numeric_type "string" = false
  /\ answers_match "Paris" "The city of  Paris" "string" = Ok true.
Proof.
  split; [reflexivity|].
  rewrite (answers_match_not_numeric "Paris" "The city of  Paris" "string" eq_refl).
  vm_compute. reflexivity.
Defined.

(** X7: with the type [string] the empty answer matches every answer, on
    either side: its normal form is the empty string, which every string
    contains. *)
Theorem empty_answer_matches_every_string_answer (b : string) :
  answers_match "" b "string" = Ok true /\ answers_match b "" "string" = Ok true.
Proof.
  unfold answers_match.
  rewrite !(normalize_answer_not_numeric _ "string" eq_refl). cbn [bind].
  unfold match_normalized. cbn [is_numeric_type String.eqb Ascii.eqb Bool.eqb orb].
  change (normal_form "") with "".
  rewrite contains_empty.
  split.
  - destruct (String.eqb "" (normal_form b)); reflexivity.
  - destruct (String.eqb (normal_form b) ""); [reflexivity|].
    now rewrite orb_true_r.
Qed.

(* ================================================================== *)
(** * The whole-string parse of the normaliser *)

(** C5: the whole-string parse of [normalize_answer] is never reached on
    a number.  The code has the branch that the claim describes ("No
    unit, just try to parse as number": the whole cleaned string read as a
    float or an integer and written back with its sign, a string that is
    no number kept), and on ["-5"] that branch gives ["-5"].  But the
    search for a number with an optional unit succeeds on every string
    that holds a digit or a dot, so the branch only runs on strings
    without digit and dot, which it returns unchanged.  The normaliser
    therefore gives ["5"] on ["-5"], ["2.5"] on ["-2.50"] and ["5"] on
    ["approximately 5 apples"]. *)
Theorem whole_string_parse_is_never_reached :
  (forall answer : string,
      normalize_number answer
      = match Re.search_number_unit Re.normalize_units answer with
        | Some (num_str, g2) =>
            except_ValueError
              (num <- or_ValueError (Float.of_string num_str) ;;
               format_number (normalize_convert num (if truthy g2 then g2 else None)))
              answer
        | None => parse_plain_number answer
        end)
  /\ (forall answer : string,
        Re.search_number_unit Re.normalize_units answer = None
        <-> Str.forall_chars not_numch answer = true)
  /\ (forall answer : string,
        Str.forall_chars not_numch answer = true -> parse_plain_number answer = Ok answer)
  /\ clean_answer "-5" = "-5"
  /\ parse_plain_number "-5" = Ok "-5"
  /\ normalize_answer "-5" "integer" = Ok "5"
  /\ clean_answer "-2.50" = "-2.50"
  /\ parse_plain_number "-2.50" = Ok "-2.5"
  /\ normalize_answer "-2.50" "float" = Ok "2.5"
  /\ clean_answer "approximately 5 apples" = "approximately 5 apples"
  /\ parse_plain_number "approximately 5 apples" = Ok "approximately 5 apples"
  /\ normalize_answer "approximately 5 apples" "integer" = Ok "5".
Proof.
  split; [|split; [|split]].
  - intros answer. unfold normalize_number, parse_plain_number.
    destruct (Re.search_number_unit Re.normalize_units answer) as [[num_str g2]|];
      reflexivity.
  - intros answer. split.
    + apply search_number_unit_None.
    + apply search_number_unit_no_numch.
  - intros answer H. unfold parse_plain_number.
    rewrite (has_dot_no_numch _ H).
    rewrite int_of_string_no_digit;
      [reflexivity | eapply forall_chars_impl; [apply not_numch_not_digit | exact H]].
  - repeat split; vm_compute; reflexivity.
Qed.

(* ================================================================== *)
(** * The units that begin with the letter m *)

Lemma ci_eqb_lower (c a : ascii) :
  Re.ci_eqb c a = true -> Str.lower_char c = Str.lower_char a.
Proof. unfold Re.ci_eqb. apply Ascii.eqb_eq. Qed.

Lemma first_alt_app (alts alts' : list (list Re.item)) (s : string) :
  Re.first_alt (alts ++ alts') s
  = match Re.first_alt alts s with
    | Some r => Some r
    | None => Re.first_alt alts' s
    end.
Proof.
  induction alts as [|a alts IH]; cbn [Re.first_alt app]; [reflexivity|].
  destruct (Re.match_items a s); [reflexivity | exact IH].
Qed.

(** The matched text is read from the start of the string. *)
Lemma match_items_head (p : list Re.item) (s m r : string) (c : ascii) :
  Re.match_items p s = Some (String c m, r) -> exists s', s = String c s'.
Proof.
  revert s m r. induction p as [|[a|a|] p IH]; intros s m r; cbn [Re.match_items].
  - discriminate.
  - destruct s as [|c0 s]; [discriminate|].
    destruct (Re.ci_eqb c0 a); [|discriminate].
    destruct (Re.match_items p s) as [[m' r']|]; [|discriminate].
    intros H. inversion H. eauto.
  - destruct s as [|c0 s]; [apply IH|].
    destruct (Re.ci_eqb c0 a); [|apply IH].
    destruct (Re.match_items p s) as [[m' r']|]; [|apply IH].
    intros H. inversion H. eauto.
  - destruct (Re.at_end s); [apply IH | discriminate].
Qed.

Lemma first_alt_head (alts : list (list Re.item)) (s m r : string) (c : ascii) :
  Re.first_alt alts s = Some (String c m, r) -> exists s', s = String c s'.
Proof.
  induction alts as [|a alts IH]; cbn [Re.first_alt]; [discriminate|].
  destruct (Re.match_items a s) as [[m' r']|] eqn:E; [|exact IH].
  intros H. inversion H. subst. eapply match_items_head, E.
Qed.

(** In the unit group, a text that starts with the letter m is matched by
    [mm] or by [m]: the alternatives [mg], [ms] and [m/s] come after [m]. *)
Lemma first_alt_m (s m r w : string) :
  Re.first_alt Re.normalize_units s = Some (m, r) ->
  Str.lower m = String "m" w ->
  Str.lower m = "mm" \/ Str.lower m = "m".
Proof.
  intros H Hm.
  destruct m as [|c m]; [discriminate|].
  destruct (first_alt_head _ _ _ _ _ H) as [s' ->].
  cbn [Str.lower] in Hm. inversion Hm as [[Hc Hw]]. clear Hm Hw.
  assert (C1 : Re.ci_eqb c "m" = true)
    by (unfold Re.ci_eqb; rewrite Hc; reflexivity).
  assert (C2 : Re.ci_eqb c "c" = false)
    by (unfold Re.ci_eqb; rewrite Hc; reflexivity).
  revert H. unfold Re.normalize_units.
  cbn [Re.first_alt Re.lits Re.match_items app]. rewrite C1, C2.
  destruct s' as [|c2 s2].
  - intros H. inversion H. right. cbn [Str.lower]. now rewrite Hc.
  - destruct (Re.ci_eqb c2 "m") eqn:C3.
    + intros H. inversion H. left. cbn [Str.lower].
      rewrite Hc, (ci_eqb_lower _ _ C3). reflexivity.
    + intros H. inversion H. right. cbn [Str.lower]. now rewrite Hc.
Qed.

(** The same for the unit group of the extractor, which ends in [|cm|mm]. *)
Lemma first_alt_extract_m (s m r w : string) :
  Re.first_alt Re.extract_units s = Some (m, r) ->
  Str.lower m = String "m" w ->
  Str.lower m = "mm" \/ Str.lower m = "m".
Proof.
  unfold Re.extract_units. rewrite first_alt_app.
  destruct (Re.first_alt Re.normalize_units s) as [[m' r']|] eqn:E.
  - intros H. inversion H. subst. eapply first_alt_m, E.
  - cbn [Re.first_alt Re.lits Re.match_items].
    destruct s as [|c1 s]; [discriminate|].
    destruct (Re.ci_eqb c1 "c") eqn:C1.
    + destruct s as [|c2 s]; [|destruct (Re.ci_eqb c2 "m")].
      * destruct (Re.ci_eqb c1 "m"); discriminate.
      * intros H. inversion H. subst. cbn [Str.lower].
        rewrite (ci_eqb_lower _ _ C1). discriminate.
      * destruct (Re.ci_eqb c1 "m"); [|discriminate].
        destruct (Re.ci_eqb c2 "m"); discriminate.
    + destruct (Re.ci_eqb c1 "m") eqn:C2; [|discriminate].
      destruct s as [|c2 s]; [discriminate|].
      destruct (Re.ci_eqb c2 "m") eqn:C3; [|discriminate].
      intros H _. inversion H. subst. left. cbn [Str.lower].
      rewrite (ci_eqb_lower _ _ C2), (ci_eqb_lower _ _ C3). reflexivity.
Qed.

Lemma search_number_unit_group (units : list (list Re.item)) (s run u : string) :
  Re.search_number_unit units s = Some (run, Some u) ->
  exists t r : string, Re.first_alt units t = Some (u, r).
Proof.
  induction s as [|c s IH]; cbn [Re.search_number_unit]; [discriminate|].
  destruct (Re.isnumch c); [|exact IH].
  destruct (Re.span Re.isnumch (String c s)) as [num_str rest].
  destruct (Re.first_alt units (Str.lstrip rest)) as [[m r]|] eqn:E;
    cbn [option_map fst]; [|discriminate].
  intros H. inversion H. subst. eauto.
Qed.

(** X8: a unit that [extract_number_and_unit] returns comes with a
    number, and if it begins with the letter m it is m or mm.  It is never
    mg, ms, m/s or m/s^2, although the pattern lists them: the alternative
    [m] is tried first. *)
Theorem extracted_unit_starting_with_m
    (answer : string) (num : option Float.float) (unit : string) :
  extract_number_and_unit answer = (num, Some unit) ->
  (exists n : Float.float, num = Some n)
  /\ (forall w : string, unit = String "m" w -> unit = "mm" \/ unit = "m")
  /\ unit <> "mg" /\ unit <> "ms" /\ unit <> "m/s" /\ unit <> "m/s^2".
Proof.
  unfold extract_number_and_unit.
  assert (P : forall o : option Float.float,
             match o with Some n => (Some n, None) | None => (None, None) end
             <> (num, Some unit)).
  { intros [n|]; discriminate. }
  destruct (Re.search_number_unit _ _) as [[g1 g2]|] eqn:Es; [|intros H; elim (P _ H)].
  destruct (Float.of_string g1) as [n|]; [|intros H; elim (P _ H)].
  destruct (truthy g2); [|discriminate].
  destruct g2 as [u|]; cbn [option_map]; [|discriminate].
  intros H. inversion H. subst.
  destruct (search_number_unit_group _ _ _ _ Es) as [t [r E]].
  assert (M : forall w, Str.lower u = String "m" w
                        -> Str.lower u = "mm" \/ Str.lower u = "m")
    by (intros w; apply (first_alt_extract_m t u r w E)).
  split; [eauto|]. split; [exact M|].
  repeat split; intros Q; destruct (M _ Q) as [Q'|Q']; rewrite Q in Q'; discriminate.
Qed.

(** The theorem at ["5 ms"], whose unit is read as m. *)
Lemma extracted_unit_starting_with_m_witness :
  extract_number_and_unit "5 ms" = (Some (Float.of_Z 5), Some "m")
  /\ (exists n : Float.float, Some (Float.of_Z 5) = Some n)
  /\ "m" <> "ms".
Proof.
  assert (H : extract_number_and_unit "5 ms" = (Some (Float.of_Z 5), Some "m"))
    by (vm_compute; reflexivity).
  split; [exact H|].
  destruct (extracted_unit_starting_with_m "5 ms" (Some (Float.of_Z 5)) "m" H)
    as [N [_ [_ [M _]]]].
  split; [exact N | exact M].
Defined.

(** X9: the mg and ms conversions of [normalize_answer] are never
    applied.  With the unit that the normaliser finds after the number,
    the number is multiplied by 1000 for km, divided by 100 for cm,
    divided by 1000 for mm and g, and kept otherwise. *)
Theorem normalize_converts_km_cm_mm_g_only (s run u : string) (num : Float.float) :
  Re.search_number_unit Re.normalize_units s = Some (run, Some u) ->
  normalize_convert num (Some u)
  = if String.eqb (Str.lower u) "km" then Float.mul num (Float.of_Z 1000)
    else if String.eqb (Str.lower u) "cm" then Float.div num (Float.of_Z 100)
    else if String.eqb (Str.lower u) "mm" || String.eqb (Str.lower u) "g"
         then Float.div num (Float.of_Z 1000)
    else num.
Proof.
  intros H. destruct (search_number_unit_group _ _ _ _ H) as [t [r E]].
  assert (M : forall w, Str.lower u = String "m" w
                        -> Str.lower u = "mm" \/ Str.lower u = "m")
    by (intros w; apply (first_alt_m t u r w E)).
  unfold normalize_convert.
  destruct (truthy (Some u)) eqn:T.
  - destruct (String.eqb (Str.lower u) "km"); [reflexivity|].
    destruct (String.eqb (Str.lower u) "cm"); [reflexivity|].
    destruct (String.eqb (Str.lower u) "mm"); [reflexivity|].
    destruct (String.eqb (Str.lower u) "g"); [reflexivity|].
    cbn [orb].
    destruct (String.eqb_spec (Str.lower u) "mg") as [Q|_];
      [destruct (M _ Q) as [Q'|Q']; rewrite Q in Q'; discriminate|].
    destruct (String.eqb_spec (Str.lower u) "ms") as [Q|_];
      [destruct (M _ Q) as [Q'|Q']; rewrite Q in Q'; discriminate|].
    reflexivity.
  - destruct u as [|c u]; [reflexivity | discriminate].
Qed.

(** The theorem at ["5 mg"], whose unit is read as m. *)
Lemma normalize_converts_km_cm_mm_g_only_witness :
  Re.search_number_unit Re.normalize_units "5 mg" = Some ("5", Some "m")
  /\ normalize_convert (Float.of_Z 5) (Some "m") = Float.of_Z 5.
Proof.
  assert (H : Re.search_number_unit Re.normalize_units "5 mg" = Some ("5", Some "m"))
    by (vm_compute; reflexivity).
  split; [exact H|].
  rewrite (normalize_converts_km_cm_mm_g_only "5 mg" "5" "m" (Float.of_Z 5) H).
  vm_compute. reflexivity.
Defined.

(* ================================================================== *)
(** * Equal normal forms, and the sign of a number *)

(** X10: two answers with the same normal form match, whatever the answer
    type; in particular every answer whose normalisation returns matches
    itself. *)
Theorem answers_with_equal_normal_forms_match (a b t n : string) :
  normalize_answer a t = Ok n ->
  normalize_answer b t = Ok n ->
  answers_match a b t = Ok true /\ answers_match a a t = Ok true.
Proof.
  intros Ha Hb. unfold answers_match. rewrite Ha, Hb. cbn [bind].
  unfold match_normalized. rewrite String.eqb_refl. auto.
Qed.

(** The theorem at ["$5.00"] and ["5 dollars"]. *)
Lemma answers_with_equal_normal_forms_match_witness :
  normalize_answer "$5.00" "float" = Ok "5"
  /\ normalize_answer "5 dollars" "float" = Ok "5"
  /\ answers_match "$5.00" "5 dollars" "float" = Ok true
  /\ answers_match "$5.00" "$5.00" "float" = Ok true.
Proof.
  assert (Ha : normalize_answer "$5.00" "float" = Ok "5") by (vm_compute; reflexivity).
  assert (Hb : normalize_answer "5 dollars" "float" = Ok "5") by (vm_compute; reflexivity).
  split; [exact Ha|]. split; [exact Hb|].
  exact (answers_with_equal_normal_forms_match "$5.00" "5 dollars" "float" "5" Ha Hb).
Defined.

Lemma minus_numeral_no_space (run : string) :
  Str.forall_chars Re.isnumch run = true ->
  Str.forall_chars (fun c => negb (Str.isspace c)) (String "-" run) = true.
Proof.
  intros H. cbn [Str.forall_chars]. destruct (numch_no_space run H) as [Hsp _].
  rewrite Hsp. reflexivity.
Qed.

(** The cleaning steps leave a minus sign followed by digits and dots alone. *)
Lemma clean_answer_minus_numeral (run : string) :
  Str.forall_chars Re.isnumch run = true ->
  clean_answer (String "-" run) = String "-" run.
Proof.
  intros H. pose proof (minus_numeral_no_space run H) as Hsp.
  unfold clean_answer, Str.strip, Str.lstrip, Str.rstrip.
  rewrite rstrip_by_none, lstrip_by_none by exact Hsp.
  change (Re.sub_leading_dollar (String "-" run)) with (String "-" run).
  change (Re.sub_leading_usd (String "-" run)) with (String "-" run).
  assert (E : Re.sub_trailing_words (String "-" run) = String "-" run).
  { cbn [Re.sub_trailing_words]. unfold Str.lstrip.
    rewrite lstrip_by_none by exact Hsp.
    change (Re.first_alt Re.suffix_words (String "-" run)) with (@None (string * string)).
    now rewrite (sub_trailing_words_numeral run H). }
  rewrite E. unfold Str.split. rewrite (split_from_no_space _ _ Hsp). reflexivity.
Qed.

(** X11: a minus sign before a number is dropped.  For a numeric answer
    type and a run of digits and dots that reads as a float, the answer
    made of a minus sign and the run has the normal form of the run alone,
    so the negative number matches the positive one. *)
Theorem minus_sign_is_dropped (run t : string) (x : Float.float) :
  is_numeric_type t = true ->
  Str.forall_chars Re.isnumch run = true ->
  Float.of_string run = Some x ->
  normalize_answer (String "-" run) t = normalize_answer run t
  /\ answers_match (String "-" run) run t = answers_match run run t.
Proof.
  intros Ht H Hx.
  assert (Hne : Str.is_empty run = false).
  { destruct run; [vm_compute in Hx; discriminate | reflexivity]. }
  assert (E : normalize_answer (String "-" run) t = normalize_answer run t).
  { unfold normalize_answer. rewrite Hne, Ht. cbn [Str.is_empty].
    rewrite (clean_answer_minus_numeral run H), (clean_answer_numeral run H Hne).
    unfold normalize_number. cbn [Re.search_number_unit].
    change (Re.isnumch "-") with false. cbv iota.
    rewrite (search_numeral run H Hne). cbn [truthy]. rewrite Hx.
    cbn [or_ValueError bind].
    destruct (format_number (normalize_convert x None)) as [v|[|]] eqn:F;
      cbn [except_ValueError bind]; try reflexivity.
    apply format_number_ValueError in F. cbn [normalize_convert truthy] in F.
    subst x. elim (of_string_numch_not_nan run H Hx). }
  split; [exact E|].
  unfold answers_match. rewrite E.
  destruct (normalize_answer run t) as [n|e]; cbn [bind]; [|reflexivity].
  unfold match_normalized. rewrite String.eqb_refl. reflexivity.
Qed.

(** The theorem at ["-5"]: its normal form is ["5"], and it matches ["5"]. *)
Lemma minus_sign_is_dropped_witness :
  is_numeric_type "integer" = true
  /\ Str.forall_chars Re.isnumch "5" = true
  /\ Float.of_string "5" = Some (Float.of_Z 5)
  /\ normalize_answer "-5" "integer" = Ok "5"
  /\ answers_match "-5" "5" "integer" = Ok true.
Proof.
  assert (Hx : Float.of_string "5" = Some (Float.of_Z 5)) by (vm_compute; reflexivity).
  split; [reflexivity|]. split; [reflexivity|]. split; [exact Hx|].
  destruct (minus_sign_is_dropped "5" "integer" (Float.of_Z 5) eq_refl eq_refl Hx)
    as [E1 E2].
  split.
  - change "-5" with (String "-" "5"). rewrite E1. vm_compute. reflexivity.
  - change "-5" with (String "-" "5"). rewrite E2. vm_compute. reflexivity.
Defined.

(* ================================================================== *)
(** * The normal form of a number *)

(** X12: the normal form of a recognised number is a plain decimal
    numeral.  For a numeric answer type, when the first run of digits and
    dots of the cleaned answer reads as a float and the normalisation
    returns, the result is an unsigned integer numeral, or an integer
    part, a dot and at least one digit; it holds no sign, no exponent, no
    unit and no space. *)
Theorem normalized_number_is_a_numeral
    (a t run s : string) (g2 : option string) (x : Float.float) :
  is_numeric_type t = true ->
  Re.search_number_unit Re.normalize_units (clean_answer a) = Some (run, g2) ->
  Float.of_string run = Some x ->
  normalize_answer a t = Ok s ->
  Str.forall_chars Re.isnumch s = true
  /\ ((exists n : Z, 0 <= n /\ s = Float.str_of_Z n)
      \/ (exists (n0 : Z) (j : nat) (r : Z),
            0 <= n0 /\ (0 < j)%nat /\ 0 <= r < 10 ^ Z.of_nat j
            /\ s = Float.str_of_Z n0 ++ "." ++ Float.pad_digits j r)).
Proof.
  intros Ht Hs Hx. unfold normalize_answer.
  destruct (Str.is_empty a) eqn:Ea.
  - destruct a; [|discriminate]. vm_compute in Hs. discriminate.
  - rewrite Ht. unfold normalize_number. rewrite Hs, Hx. cbn [or_ValueError bind].
    pose proof (search_run_numch _ _ _ _ Hs) as Hrun.
    pose proof (of_string_numch_ok _ _ Hrun Hx) as Hok.
    apply (normalize_convert_ok _ (if truthy g2 then g2 else None)) in Hok.
    destruct Hok as [->|[m [e [-> [Hm He]]]]]; [discriminate|].
    destruct (format_number_stable m e Hm He) as [s' [-> Shape]].
    cbn [except_ValueError bind]. intros H. inversion H. subst s. clear H.
    assert (C : Str.forall_chars Re.isnumch s' = true).
    { destruct Shape as [[n [Hn [-> _]]] | [n0 [j [r [Hn0 [Hj [Hr [-> _]]]]]]]].
      - apply digit_is_numch, str_of_Z_digits, Hn.
      - rewrite !forall_chars_app.
        rewrite (digit_is_numch _ (str_of_Z_digits n0 Hn0)).
        rewrite (digit_is_numch _ (pad_digits_digits j r)). reflexivity. }
    rewrite (lower_numeral s' C). split; [exact C|].
    destruct Shape as [[n [Hn [-> _]]] | [n0 [j [r [Hn0 [Hj [Hr [-> _]]]]]]]].
    + left. eauto.
    + right. exists n0, j, r. auto.
Qed.

(** The theorem at ["about 2.50 km"], whose normal form is ["2500"]. *)
Lemma normalized_number_is_a_numeral_witness :
  Re.search_number_unit Re.normalize_units (clean_answer "about 2.50 km")
  = Some ("2.50", Some "km")
  /\ normalize_answer "about 2.50 km" "float" = Ok "2500"
  /\ Str.forall_chars Re.isnumch "2500" = true.
Proof.
  assert (Hs : Re.search_number_unit Re.normalize_units (clean_answer "about 2.50 km")
               = Some ("2.50", Some "km")) by (vm_compute; reflexivity).
  assert (Hx : Float.of_string "2.50" = Some (Float.of_decimal false 250 (-2)))
    by (vm_compute; reflexivity).
  assert (Hn : normalize_answer "about 2.50 km" "float" = Ok "2500")
    by (vm_compute; reflexivity).
  split; [exact Hs|]. split; [exact Hn|].
  exact (proj1 (normalized_number_is_a_numeral "about 2.50 km" "float" "2.50" "2500"
                  (Some "km") (Float.of_decimal false 250 (-2)) eq_refl Hs Hx Hn)).
Defined.

(* ================================================================== *)
(** * The counters of [calculate_system_metrics] *)

Lemma dict_set_set {V : Type} (d : dict V) (k : string) (v v' : V) :
  dict_set (dict_set d k v) k v' = dict_set d k v'.
Proof.
  induction d as [|[k0 v0] d IH]; cbn [dict_set].
  - rewrite String.eqb_refl. reflexivity.
  - destruct (String.eqb k0 k) eqn:E; cbn [dict_set]; rewrite E; [reflexivity|].
    now rewrite IH.
Qed.

Lemma dict_sum_set {V : Type} (f : V -> Z) (d : dict V) (k : string) (v : V) :
  dict_sum f (dict_set d k v)
  = dict_sum f d + f v - match dict_get d k with Some old => f old | None => 0 end.
Proof.
  induction d as [|[k0 v0] d IH]; cbn [dict_set dict_get dict_sum fold_right snd].
  - lia.
  - destruct (String.eqb k0 k); cbn [dict_sum fold_right snd].
    + lia.
    + fold (dict_sum f (dict_set d k v)). fold (dict_sum f d). rewrite IH. lia.
Qed.

Lemma dict_set_Forall {V : Type} (P : string * V -> Prop) (d : dict V) (k : string) (v : V) :
  Forall P d ->
  (forall k', String.eqb k' k = true -> P (k', v)) ->
  Forall P (dict_set d k v).
Proof.
  intros Hd Hv. induction Hd as [|[k0 v0] d H0 Hd IH]; cbn [dict_set].
  - constructor; [apply Hv, String.eqb_refl | constructor].
  - destruct (String.eqb k0 k) eqn:E; constructor; auto.
Qed.

Lemma dict_set_keys_mem {V : Type} (d : dict V) (k : string) (v : V) :
  dict_mem d k = true -> dict_keys (dict_set d k v) = dict_keys d.
Proof.
  unfold dict_mem, dict_keys.
  induction d as [|[k0 v0] d IH]; cbn [dict_set dict_get map fst]; [discriminate|].
  destruct (String.eqb k0 k); cbn [map fst]; [reflexivity|].
  intros H. now rewrite IH.
Qed.

Lemma dict_set_keys_new {V : Type} (d : dict V) (k : string) (v : V) :
  dict_mem d k = false -> dict_keys (dict_set d k v) = (dict_keys d ++ [k])%list.
Proof.
  unfold dict_mem, dict_keys.
  induction d as [|[k0 v0] d IH]; cbn [dict_set dict_get map fst app]; [reflexivity|].
  destruct (String.eqb k0 k); [discriminate|]. cbn [map fst].
  intros H. now rewrite IH.
Qed.

Lemma dict_mem_In {V : Type} (d : dict V) (k : string) :
  dict_mem d k = true <-> In k (dict_keys d).
Proof.
  unfold dict_mem, dict_keys.
  induction d as [|[k0 v0] d IH]; cbn [dict_get map fst In].
  - split; [discriminate | tauto].
  - destruct (String.eqb_spec k0 k) as [->|N].
    + split; auto.
    + rewrite IH. split; [auto | intros [E|H]; [contradiction | exact H]].
Qed.

Lemma dict_set_NoDup {V : Type} (d : dict V) (k : string) (v : V) :
  NoDup (dict_keys d) -> NoDup (dict_keys (dict_set d k v)).
Proof.
  intros H. destruct (dict_mem d k) eqn:M.
  - now rewrite dict_set_keys_mem.
  - rewrite dict_set_keys_new by exact M.
    apply NoDup_app; [exact H | repeat constructor; intros [] | ].
    intros x Hx [<-|[]]. apply dict_mem_In in Hx. congruence.
Qed.

Lemma dict_get_In {V : Type} (d : dict V) (k : string) (v : V) :
  dict_get d k = Some v -> In (k, v) d.
Proof.
  induction d as [|[k0 v0] d IH]; cbn [dict_get In]; [discriminate|].
  destruct (String.eqb_spec k0 k) as [->|N].
  - intros H. inversion H. auto.
  - auto.
Qed.

Lemma In_dict_get {V : Type} (d : dict V) (k : string) (v : V) :
  NoDup (dict_keys d) -> In (k, v) d -> dict_get d k = Some v.
Proof.
  unfold dict_keys. induction d as [|[k0 v0] d IH]; cbn [dict_get In map fst]; [tauto|].
  intros N [E|I].
  - inversion E. subst. now rewrite String.eqb_refl.
  - inversion N as [|? ? N0 N1]. subst.
    destruct (String.eqb_spec k0 k) as [->|_]; [|auto].
    elim N0. change k with (fst (k, v)). now apply in_map.
Qed.

(** One turn of the loop: a result whose problem is unknown changes
    nothing; any other adds one to its category, and one to the correct
    answers of the category and of the whole when the answer matches. *)
Lemma system_step_shape (problems : dict problem)
    (cc : Z) (d : dict category_metrics) (problem_id : string) (r : final_result) :
  system_step problems (cc, d) (problem_id, r)
  = match dict_get problems problem_id with
    | None => Ok (cc, d)
    | Some p =>
        ok <- answers_match (get_winning_answer r) (correct_answer p) (answer_type p) ;;
        Ok (if ok then cc + 1 else cc,
            dict_set d (category p) (count_result (dict_get d (category p)) ok))
    end.
Proof.
  unfold system_step.
  destruct (dict_get problems problem_id) as [p|]; [|reflexivity].
  destruct (answers_match _ _ _) as [ok|e]; cbn [bind]; [|reflexivity].
  f_equal. f_equal. unfold dict_mem, count_result.
  destruct (dict_get d (category p)) as [c|] eqn:G.
  - rewrite G, dict_get_set, String.eqb_refl.
    destruct ok; [rewrite dict_set_set|]; reflexivity.
  - rewrite !dict_get_set, !String.eqb_refl, !dict_set_set.
    rewrite dict_get_set, String.eqb_refl.
    destruct ok; [rewrite dict_set_set|]; reflexivity.
Qed.

Lemma evaluated_results_cons (problems : dict problem) (problem_id : string)
    (r : final_result) (results : dict final_result) :
  evaluated_results problems ((problem_id, r) :: results)
  = (if dict_mem problems problem_id then 1 else 0) + evaluated_results problems results.
Proof.
  unfold evaluated_results. cbn [filter fst].
  destruct (dict_mem problems problem_id); [apply len_cons | reflexivity].
Qed.

Lemma len_nonneg {A : Type} (xs : list A) : 0 <= len xs.
Proof. unfold len. lia. Qed.

Lemma len_filter_le {A : Type} (f : A -> bool) (xs : list A) : len (filter f xs) <= len xs.
Proof.
  induction xs as [|x xs IH]; cbn [filter]; [lia|].
  destruct (f x); rewrite !len_cons; lia.
Qed.

Lemma cat_total_count_result (old : option category_metrics) (ok : bool) :
  cat_total (count_result old ok)
  = match old with Some c => cat_total c | None => 0 end + 1.
Proof. destruct old; reflexivity. Qed.

Lemma cat_correct_count_result (old : option category_metrics) (ok : bool) :
  cat_correct (count_result old ok)
  = match old with Some c => cat_correct c | None => 0 end + (if ok then 1 else 0).
Proof. destruct old, ok; cbn; lia. Qed.

Lemma system_loop_sums (problems : dict problem) (results : dict final_result)
    (cc cc' : Z) (d d' : dict category_metrics) :
  for_each (system_step problems) results (cc, d) = Ok (cc', d') ->
  cc <= cc' <= cc + evaluated_results problems results
  /\ dict_sum cat_total d' = dict_sum cat_total d + evaluated_results problems results
  /\ dict_sum cat_correct d' = dict_sum cat_correct d + (cc' - cc).
Proof.
  revert cc d. induction results as [|[problem_id r] results IH]; intros cc d;
    cbn [for_each].
  - intros H. inversion H. subst. unfold evaluated_results. cbn. lia.
  - rewrite system_step_shape, evaluated_results_cons. unfold dict_mem.
    destruct (dict_get problems problem_id) as [p|]; cbn [bind].
    + destruct (answers_match _ _ _) as [ok|e]; cbn [bind]; [|discriminate].
      intros H. apply IH in H. destruct H as [H1 [H2 H3]].
      rewrite H2, H3, !dict_sum_set, cat_total_count_result, cat_correct_count_result.
      destruct (dict_get d (category p)), ok; lia.
    + intros H. apply IH in H. lia.
Qed.

Lemma dict_get_Forall {V : Type} (P : string * V -> Prop) (d : dict V) (k : string) (v : V) :
  Forall P d -> dict_get d k = Some v -> exists k', P (k', v).
Proof.
  intros Hd. induction Hd as [|[k0 v0] d H0 Hd IH]; cbn [dict_get]; [discriminate|].
  destruct (String.eqb k0 k); [|exact IH].
  intros H. inversion H. subst. eauto.
Qed.

Lemma system_loop_entries (problems : dict problem) (results : dict final_result)
    (cc cc' : Z) (d d' : dict category_metrics) :
  for_each (system_step problems) results (cc, d) = Ok (cc', d') ->
  Forall (fun kv => 1 <= cat_total (snd kv) /\ 0 <= cat_correct (snd kv) <= cat_total (snd kv)) d ->
  NoDup (dict_keys d) ->
  Forall (fun kv => 1 <= cat_total (snd kv) /\ 0 <= cat_correct (snd kv) <= cat_total (snd kv)) d'
  /\ NoDup (dict_keys d').
Proof.
  revert cc d. induction results as [|[problem_id r] results IH]; intros cc d;
    cbn [for_each].
  - intros H. inversion H. subst. auto.
  - rewrite system_step_shape.
    destruct (dict_get problems problem_id) as [p|]; cbn [bind]; [|apply IH].
    destruct (answers_match _ _ _) as [ok|e]; cbn [bind]; [|discriminate].
    intros H Hd Hk. apply IH in H; [exact H| |apply dict_set_NoDup, Hk].
    apply dict_set_Forall; [exact Hd|]. intros k' _. cbn [snd].
    rewrite cat_total_count_result, cat_correct_count_result.
    destruct (dict_get d (category p)) as [c|] eqn:G.
    + destruct (dict_get_Forall _ _ _ _ Hd G) as [k0 Hc]. cbn [snd] in Hc.
      destruct ok; lia.
    + destruct ok; lia.
Qed.

Lemma dict_sum_map {V : Type} (f : V -> Z) (g : V -> V) (d : dict V) :
  (forall v, f (g v) = f v) ->
  dict_sum f (map (fun kv => (fst kv, g (snd kv))) d) = dict_sum f d.
Proof.
  intros H. induction d as [|[k v] d IH]; cbn [map dict_sum fold_right fst snd];
    [reflexivity|].
  fold (dict_sum f (map (fun kv => (fst kv, g (snd kv))) d)). fold (dict_sum f d).
  now rewrite IH, H.
Qed.

(** X13: the counters of [calculate_system_metrics] add up.  When it
    returns, the correct answers are at most the evaluated results (those
    whose problem is known), which are at most the processed ones; the
    category totals sum to the evaluated results and the category correct
    counts to the correct answers. *)
Theorem system_metrics_counts_add_up
    (problems : dict problem) (results : dict final_result) (m : system_metrics) :
  calculate_system_metrics problems results = Ok m ->
  0 <= correct_final_answers m <= evaluated_results problems results
  /\ evaluated_results problems results <= processed_problems m
  /\ dict_sum cat_total (by_category m) = evaluated_results problems results
  /\ dict_sum cat_correct (by_category m) = correct_final_answers m.
Proof.
  unfold calculate_system_metrics.
  destruct (for_each _ _ _) as [[cc d]|e] eqn:E; cbn [bind]; [|discriminate].
  intros H. inversion H. subst m. clear H.
  cbn [correct_final_answers processed_problems by_category].
  apply system_loop_sums in E. cbn [dict_sum fold_right] in E.
  rewrite !dict_sum_map
    by (intros v; unfold set_category_accuracy; destruct (0 <? cat_total v); reflexivity).
  pose proof (len_filter_le (fun kv => dict_mem problems (fst kv)) results) as L.
  fold (evaluated_results problems results) in L.
  lia.
Qed.

(** The theorem at two results, one of them for an unknown problem. *)
Lemma system_metrics_counts_add_up_witness :
  exists m : system_metrics,
    calculate_system_metrics one_problem two_results = Ok m
    /\ 0 <= correct_final_answers m <= evaluated_results one_problem two_results
    /\ evaluated_results one_problem two_results <= processed_problems m
    /\ dict_sum cat_total (by_category m) = evaluated_results one_problem two_results
    /\ dict_sum cat_correct (by_category m) = correct_final_answers m.
Proof.
  destruct (calculate_system_metrics one_problem two_results) as [m|e] eqn:E;
    [|vm_compute in E; discriminate].
  exists m. split; [reflexivity|].
  exact (system_metrics_counts_add_up one_problem two_results m E).
Defined.

(** X14: every category that [calculate_system_metrics] reports holds at
    least one evaluated result, has between zero and [total] correct
    answers, and carries the accuracy [correct / total]; no category is
    listed twice. *)
Theorem system_metrics_categories
    (problems : dict problem) (results : dict final_result) (m : system_metrics) :
  calculate_system_metrics problems results = Ok m ->
  Forall (fun kv =>
            1 <= cat_total (snd kv)
            /\ 0 <= cat_correct (snd kv) <= cat_total (snd kv)
            /\ cat_accuracy (snd kv)
               = Float.int_truediv (cat_correct (snd kv)) (cat_total (snd kv)))
         (by_category m)
  /\ NoDup (dict_keys (by_category m)).
Proof.
  unfold calculate_system_metrics.
  destruct (for_each _ _ _) as [[cc d]|e] eqn:E; cbn [bind]; [|discriminate].
  intros H. inversion H. subst m. clear H. cbn [by_category].
  apply system_loop_entries in E; [|constructor|constructor].
  destruct E as [F N]. split.
  - apply Forall_map. eapply Forall_impl; [|exact F].
    intros [k c] [H1 H2]. cbn [fst snd] in *. unfold set_category_accuracy.
    destruct (Z.ltb_spec 0 (cat_total c)); [|lia]. cbn. auto.
  - unfold dict_keys in *. rewrite map_map. cbn [fst]. exact N.
Qed.

(** The theorem at the same two results. *)
Lemma system_metrics_categories_witness :
  exists m : system_metrics,
    calculate_system_metrics one_problem two_results = Ok m
    /\ Forall (fun kv =>
                 1 <= cat_total (snd kv)
                 /\ 0 <= cat_correct (snd kv) <= cat_total (snd kv)
                 /\ cat_accuracy (snd kv)
                    = Float.int_truediv (cat_correct (snd kv)) (cat_total (snd kv)))
              (by_category m)
    /\ NoDup (dict_keys (by_category m)).
Proof.
  destruct (calculate_system_metrics one_problem two_results) as [m|e] eqn:E;
    [|vm_compute in E; discriminate].
  exists m. split; [reflexivity|].
  exact (system_metrics_categories one_problem two_results m E).
Defined.

(* ================================================================== *)
(** * The counters of [calculate_improvement_rate] *)

Lemma improvement_eligible_cons (problems : dict problem)
    (refined : dict (dict solution)) (problem_id : string) (solutions : dict solution)
    (stage1 : dict (dict solution)) :
  len (improvement_eligible problems refined ((problem_id, solutions) :: stage1))
  = (if dict_mem problems problem_id && dict_mem refined problem_id then 1 else 0)
    + len (improvement_eligible problems refined stage1).
Proof.
  unfold improvement_eligible. cbn [filter fst].
  destruct (dict_mem problems problem_id && dict_mem refined problem_id);
    [apply len_cons | reflexivity].
Qed.

Lemma improvement_loop_counts (problems : dict problem)
    (refined stage1 : dict (dict solution)) (t i w u t' i' w' u' : Z) :
  for_each (improvement_step problems refined) stage1 (t, i, w, u) = Ok (t', i', w', u') ->
  t' = t + len (improvement_eligible problems refined stage1)
  /\ i <= i' /\ w <= w' /\ u <= u'
  /\ (i' - i) + (w' - w) + (u' - u) = t' - t.
Proof.
  revert t i w u. induction stage1 as [|[problem_id solutions] stage1 IH];
    intros t i w u; cbn [for_each].
  - intros H. inversion H. subst. unfold improvement_eligible, len. cbn. lia.
  - rewrite improvement_eligible_cons. unfold improvement_step, dict_mem.
    destruct (dict_get problems problem_id) as [p|];
      [destruct (dict_get refined problem_id) as [r|]|]; cbn [bind andb].
    + destruct (for_each _ _ _) as [[[] []]|e]; cbn [bind]; [| | | |discriminate];
        intros H; apply IH in H; lia.
    + intros H. apply IH in H. lia.
    + intros H. apply IH in H. lia.
Qed.

(** X15: the counters of [calculate_improvement_rate] add up.  When it
    returns, every problem it scored is in exactly one of improved,
    worsened and unchanged, and the problems it scored are those of the
    first stage that are in [problems] and in the refined collection. *)
Theorem improvement_counts_add_up (problems : dict problem)
    (stage1_solutions refined_solutions : dict (dict solution)) (m : improvement_metrics) :
  calculate_improvement_rate problems stage1_solutions refined_solutions = Ok m ->
  improved m + worsened m + unchanged m = total_with_refinement m
  /\ 0 <= improved m /\ 0 <= worsened m /\ 0 <= unchanged m
  /\ total_with_refinement m
     = len (improvement_eligible problems refined_solutions stage1_solutions)
  /\ total_with_refinement m <= len stage1_solutions.
Proof.
  unfold calculate_improvement_rate.
  destruct (for_each _ _ _) as [[[[t i] w] u]|e] eqn:E; cbn [bind]; [|discriminate].
  intros H. inversion H. subst m. clear H.
  cbn [improved worsened unchanged total_with_refinement].
  apply improvement_loop_counts in E.
  pose proof (len_filter_le
                (fun kv : string * dict solution =>
                   dict_mem problems (fst kv) && dict_mem refined_solutions (fst kv))
                stage1_solutions) as L.
  fold (improvement_eligible problems refined_solutions stage1_solutions) in L.
  lia.
Qed.

(** The theorem at one problem with two solvers. *)
Lemma improvement_counts_add_up_witness :
  exists m : improvement_metrics,
    calculate_improvement_rate one_problem stage1_mixed refined_mixed = Ok m
    /\ improved m + worsened m + unchanged m = total_with_refinement m
    /\ 0 <= improved m /\ 0 <= worsened m /\ 0 <= unchanged m
    /\ total_with_refinement m
       = len (improvement_eligible one_problem refined_mixed stage1_mixed)
    /\ total_with_refinement m <= len stage1_mixed.
Proof.
  destruct (calculate_improvement_rate one_problem stage1_mixed refined_mixed)
    as [m|e] eqn:E; [|vm_compute in E; discriminate].
  exists m. split; [reflexivity|].
  exact (improvement_counts_add_up one_problem stage1_mixed refined_mixed m E).
Defined.

(** The flags after the loop over the solvers: a flag is set when it was
    set before or some solver sets it. *)
Lemma score_loop_flags (p : problem) (refined_answers original_answers : dict string)
    (i0 w0 i w : bool) :
  for_each (score_solver p refined_answers) original_answers (i0, w0) = Ok (i, w) ->
  i = i0 || existsb (solver_improved p refined_answers) original_answers
  /\ w = w0 || existsb (solver_worsened p refined_answers) original_answers.
Proof.
  revert i0 w0. induction original_answers as [|[solver_id original] l IH];
    intros i0 w0; cbn [for_each existsb].
  - intros H. inversion H. now rewrite !orb_false_r.
  - unfold score_solver at 1, solver_improved at 1, solver_worsened at 1,
      refined_or_original. cbn [fst snd].
    destruct (answers_match original _ _) as [oc|e]; cbn [bind]; [|discriminate].
    destruct (answers_match _ _ _) as [rc|e]; cbn [bind]; [|discriminate].
    destruct oc, rc; cbn [negb andb orb bind]; intros H; apply IH in H;
      destruct H as [-> ->]; rewrite ?orb_true_r, ?orb_false_r; auto.
Qed.

(** X16: improvement takes precedence.  A scored problem is counted as
    improved as soon as one solver went from incorrect to correct, even
    if another went from correct to incorrect; it is counted as worsened
    only if no solver improved and one worsened, and as unchanged
    otherwise. *)
Theorem improvement_takes_precedence (problems : dict problem)
    (refined_solutions : dict (dict solution)) (p : problem)
    (solutions refined : dict solution) (problem_id : string)
    (t i w u : Z) (st : improvement_counts) :
  dict_get problems problem_id = Some p ->
  dict_get refined_solutions problem_id = Some refined ->
  improvement_step problems refined_solutions (t, i, w, u) (problem_id, solutions) = Ok st ->
  st = if existsb (solver_improved p (answers_of refined)) (answers_of solutions)
       then (t + 1, i + 1, w, u)
       else if existsb (solver_worsened p (answers_of refined)) (answers_of solutions)
       then (t + 1, i, w + 1, u)
       else (t + 1, i, w, u + 1).
Proof.
  intros Hp Hr. unfold improvement_step. rewrite Hp, Hr.
  destruct (for_each _ _ _) as [[ai aw]|e] eqn:E; cbn [bind]; [|discriminate].
  apply score_loop_flags in E. cbn [orb] in E. destruct E as [<- <-].
  destruct ai; [|destruct aw]; intros H; inversion H; reflexivity.
Qed.

(** The theorem at a problem where one solver improved and one worsened:
    it is counted as improved. *)
Lemma improvement_takes_precedence_witness :
  dict_get one_problem "math_001" = Some math_001
  /\ existsb (solver_worsened math_001
                (answers_of [("solver_1", solved "34"); ("solver_2", solved "35")]))
             (answers_of [("solver_1", solved "35"); ("solver_2", solved "34")]) = true
  /\ improvement_step one_problem refined_mixed (0, 0, 0, 0)
       ("math_001", [("solver_1", solved "35"); ("solver_2", solved "34")])
     = Ok (1, 1, 0, 0)
  /\ (1, 1, 0, 0)
     = if existsb (solver_improved math_001
                     (answers_of [("solver_1", solved "34"); ("solver_2", solved "35")]))
                  (answers_of [("solver_1", solved "35"); ("solver_2", solved "34")])
       then (0 + 1, 0 + 1, 0, 0)
       else if existsb (solver_worsened math_001
                     (answers_of [("solver_1", solved "34"); ("solver_2", solved "35")]))
                  (answers_of [("solver_1", solved "35"); ("solver_2", solved "34")])
       then (0 + 1, 0, 0 + 1, 0)
       else (0 + 1, 0, 0, 0 + 1).
Proof.
  assert (E : improvement_step one_problem refined_mixed (0, 0, 0, 0)
                ("math_001", [("solver_1", solved "35"); ("solver_2", solved "34")])
              = Ok (1, 1, 0, 0)) by (vm_compute; reflexivity).
  split; [reflexivity|]. split; [vm_compute; reflexivity|]. split; [exact E|].
  exact (improvement_takes_precedence one_problem refined_mixed math_001
           [("solver_1", solved "35"); ("solver_2", solved "34")]
           [("solver_1", solved "34"); ("solver_2", solved "35")]
           "math_001" 0 0 0 0 (1, 1, 0, 0) eq_refl eq_refl E).
Defined.

(* ================================================================== *)
(** * A refinement that repeats the first-stage answers *)

Lemma fold_set_NoDup {V W : Type} (f : V -> W) (d : dict V) (acc : dict W) :
  NoDup (dict_keys acc) ->
  NoDup (dict_keys (fold_left (fun a kv => dict_set a (fst kv) (f (snd kv))) d acc)).
Proof.
  revert acc. induction d as [|[k v] d IH]; intros acc N; cbn [fold_left]; [exact N|].
  apply IH, dict_set_NoDup, N.
Qed.

Lemma answers_of_NoDup (d : dict solution) : NoDup (dict_keys (answers_of d)).
Proof. unfold answers_of. apply fold_set_NoDup. constructor. Qed.

Lemma solver_with_same_answer (p : problem) (refined_answers : dict string)
    (item : string * string) :
  refined_or_original refined_answers item = snd item ->
  solver_improved p refined_answers item = false
  /\ solver_worsened p refined_answers item = false.
Proof.
  intros H. unfold solver_improved, solver_worsened. rewrite H.
  destruct (answers_match _ _ _) as [[|]|e]; auto.
Qed.

Lemma existsb_false {A : Type} (f : A -> bool) (l : list A) :
  (forall x, In x l -> f x = false) -> existsb f l = false.
Proof.
  induction l as [|x l IH]; intros H; cbn [existsb]; [reflexivity|].
  rewrite (H x (or_introl eq_refl)), IH; [reflexivity|].
  intros y I. apply H. now right.
Qed.

(** X17: a refinement that repeats the first-stage answers changes
    nothing.  When every solver of the first stage that has a refined
    answer has the answer it gave in the first stage as refined answer,
    the problem is counted as unchanged, whatever the order of the refined
    solvers and whatever other solvers the refined collection holds. *)
Theorem repeated_answers_are_unchanged (problems : dict problem)
    (refined_solutions : dict (dict solution)) (p : problem)
    (solutions refined : dict solution) (problem_id : string)
    (t i w u : Z) (st : improvement_counts) :
  dict_get problems problem_id = Some p ->
  dict_get refined_solutions problem_id = Some refined ->
  (forall solver_id original refined_answer,
      dict_get (answers_of solutions) solver_id = Some original ->
      dict_get (answers_of refined) solver_id = Some refined_answer ->
      refined_answer = original) ->
  improvement_step problems refined_solutions (t, i, w, u) (problem_id, solutions) = Ok st ->
  st = (t + 1, i, w, u + 1).
Proof.
  intros Hp Hr Ha. unfold improvement_step. rewrite Hp, Hr.
  destruct (for_each _ _ _) as [[ai aw]|e] eqn:E; cbn [bind]; [|discriminate].
  apply score_loop_flags in E. cbn [orb] in E. destruct E as [Ei Ew].
  assert (S : forall item, In item (answers_of solutions) ->
              solver_improved p (answers_of refined) item = false
              /\ solver_worsened p (answers_of refined) item = false).
  { intros [k v] I. apply solver_with_same_answer.
    unfold refined_or_original. cbn [fst snd].
    destruct (dict_get (answers_of refined) k) as [r|] eqn:G; [|reflexivity].
    apply (Ha k v r); [|exact G].
    apply In_dict_get; [apply answers_of_NoDup | exact I]. }
  rewrite existsb_false in Ei by (intros x I; apply (S x I)).
  rewrite existsb_false in Ew by (intros x I; apply (S x I)).
  subst ai aw. intros H. inversion H. reflexivity.
Qed.

(** The theorem at a problem whose two solvers answered 35 and 34, with
    refined solutions that repeat these answers in the other order and
    hold a third solver. *)
Lemma repeated_answers_are_unchanged_witness :
  dict_get one_problem "math_001" = Some math_001
  /\ improvement_step one_problem
       [("math_001", [("solver_3", solved "34"); ("solver_2", solved "34");
                      ("solver_1", solved "35")])]
       (0, 0, 0, 0)
       ("math_001", [("solver_1", solved "35"); ("solver_2", solved "34")])
     = Ok (0 + 1, 0, 0, 0 + 1).
Proof.
  split; [reflexivity|].
  destruct (improvement_step one_problem
              [("math_001", [("solver_3", solved "34"); ("solver_2", solved "34");
                             ("solver_1", solved "35")])]
              (0, 0, 0, 0)
              ("math_001", [("solver_1", solved "35"); ("solver_2", solved "34")]))
    as [st|e] eqn:E; [|vm_compute in E; discriminate].
  f_equal.
  refine (repeated_answers_are_unchanged one_problem
            [("math_001", [("solver_3", solved "34"); ("solver_2", solved "34");
                           ("solver_1", solved "35")])]
            math_001
            [("solver_1", solved "35"); ("solver_2", solved "34")]
            [("solver_3", solved "34"); ("solver_2", solved "34");
             ("solver_1", solved "35")]
            "math_001" 0 0 0 0 st eq_refl eq_refl _ E).
  intros solver_id original refined_answer.
  change (answers_of [("solver_1", solved "35"); ("solver_2", solved "34")])
    with [("solver_1", "35"); ("solver_2", "34")].
  change (answers_of [("solver_3", solved "34"); ("solver_2", solved "34");
                      ("solver_1", solved "35")])
    with [("solver_3", "34"); ("solver_2", "34"); ("solver_1", "35")].
  cbn [dict_get].
  destruct (String.eqb_spec "solver_1" solver_id) as [<-|N1].
  - cbn. congruence.
  - destruct (String.eqb_spec "solver_2" solver_id) as [<-|N2].
    + cbn. congruence.
    + discriminate.
Defined.

(* ================================================================== *)
(** * The counters of [calculate_consensus_rate] *)

Lemma count_class_total (classes : list consensus) :
  count_class FullConsensus classes + count_class PartialConsensus classes
  + count_class NoConsensus classes = len classes.
Proof.
  induction classes as [|c classes IH].
  - reflexivity.
  - rewrite !count_class_cons, len_cons. destruct c; cbn [consensus_eqb]; lia.
Qed.

Lemma count_class_nonneg (c : consensus) (classes : list consensus) :
  0 <= count_class c classes.
Proof. apply len_nonneg. Qed.

Lemma map_result_len {A B : Type} (f : A -> result B) (xs : list A) (ys : list B) :
  map_result f xs = Ok ys -> len ys = len xs.
Proof.
  revert ys. induction xs as [|x xs IH]; intros ys; cbn [map_result].
  - intros H. inversion H. reflexivity.
  - destruct (f x) as [y|e]; cbn [bind]; [|discriminate].
    destruct (map_result f xs) as [ys'|e]; cbn [bind]; [|discriminate].
    intros H. inversion H. rewrite !len_cons, (IH ys' eq_refl). reflexivity.
Qed.

Lemma consensus_eligible_len (problems : dict problem) (results : option (dict final_result))
    (stage1 : dict (dict solution)) :
  len (consensus_eligible problems results stage1) <= len stage1.
Proof.
  induction stage1 as [|[problem_id solutions] stage1 IH]; cbn [consensus_eligible];
    [apply Z.le_refl|].
  rewrite (len_cons _ stage1).
  destruct (dict_get problems problem_id) as [p|]; [|lia].
  destruct (match results with Some rs => dict_mem rs problem_id | None => true end);
    rewrite ?len_cons; lia.
Qed.

(** X18: the counters of [calculate_consensus_rate] add up.  When it
    returns, every problem it counted is in exactly one of full, partial
    and no consensus, and the problems it counted are the eligible ones,
    at most as many as the first stage has. *)
Theorem consensus_counts_add_up (problems : dict problem)
    (stage1_solutions : dict (dict solution)) (results : option (dict final_result))
    (m : consensus_metrics) :
  calculate_consensus_rate problems stage1_solutions results = Ok m ->
  full_consensus m + partial_consensus m + no_consensus m = total m
  /\ 0 <= full_consensus m /\ 0 <= partial_consensus m /\ 0 <= no_consensus m
  /\ total m = len (consensus_eligible problems results stage1_solutions)
  /\ total m <= len stage1_solutions.
Proof.
  unfold calculate_consensus_rate. rewrite consensus_loop.
  destruct (map_result classify_problem _) as [classes|e] eqn:E; cbn [bind];
    [|discriminate].
  intros H. inversion H. subst m. clear H.
  cbn [full_consensus partial_consensus no_consensus total].
  pose proof (count_class_total classes).
  pose proof (count_class_nonneg FullConsensus classes).
  pose proof (count_class_nonneg PartialConsensus classes).
  pose proof (count_class_nonneg NoConsensus classes).
  pose proof (map_result_len _ _ _ E).
  pose proof (consensus_eligible_len problems results stage1_solutions).
  lia.
Qed.

(** The theorem at the answers 34, 34 and 35 of one problem. *)
Lemma consensus_counts_add_up_witness :
  exists m : consensus_metrics,
    calculate_consensus_rate one_problem stage1_34_34_35 None = Ok m
    /\ full_consensus m + partial_consensus m + no_consensus m = total m
    /\ 0 <= full_consensus m /\ 0 <= partial_consensus m /\ 0 <= no_consensus m
    /\ total m = len (consensus_eligible one_problem None stage1_34_34_35)
    /\ total m <= len stage1_34_34_35.
Proof.
  destruct (calculate_consensus_rate one_problem stage1_34_34_35 None)
    as [m|e] eqn:E; [|vm_compute in E; discriminate].
  exists m. split; [reflexivity|].
  exact (consensus_counts_add_up one_problem stage1_34_34_35 None m E).
Defined.

(** The classes of the problems that also have a result are among the
    classes of all the eligible problems. *)
Lemma consensus_filter_classes (problems : dict problem) (rs : dict final_result)
    (stage1 : dict (dict solution)) (classes : list consensus) :
  map_result classify_problem (consensus_eligible problems None stage1) = Ok classes ->
  exists classes' : list consensus,
    map_result classify_problem (consensus_eligible problems (Some rs) stage1) = Ok classes'
    /\ len classes' <= len classes
    /\ forall c, count_class c classes' <= count_class c classes.
Proof.
  revert classes. induction stage1 as [|[problem_id solutions] stage1 IH];
    intros classes; cbn [consensus_eligible].
  - cbn [map_result]. intros H. inversion H. exists []. split; [reflexivity|].
    split; [apply Z.le_refl|]. intros c. apply Z.le_refl.
  - destruct (dict_get problems problem_id) as [p|]; [|apply IH].
    cbn [map_result].
    destruct (classify_problem (p, solutions)) as [c0|e] eqn:Ec; cbn [bind];
      [|discriminate].
    destruct (map_result classify_problem (consensus_eligible problems None stage1))
      as [cs|e]; cbn [bind]; [|discriminate].
    intros H. inversion H. subst classes. clear H.
    destruct (IH cs eq_refl) as [cs' [E [L C]]].
    destruct (dict_mem rs problem_id).
    + exists (c0 :: cs'). cbn [map_result]. rewrite Ec, E. cbn [bind].
      split; [reflexivity|]. rewrite !len_cons. split; [lia|].
      intros c. rewrite !count_class_cons. specialize (C c). lia.
    + exists cs'. split; [exact E|]. rewrite len_cons. split; [lia|].
      intros c. rewrite count_class_cons. specialize (C c).
      destruct (consensus_eqb c c0); lia.
Qed.

(** X19: the results filter of [calculate_consensus_rate] only removes
    problems.  Where the call without results returns, the call restricted
    to the problems that have a result returns too, and none of its four
    counters is greater. *)
Theorem consensus_results_filter_only_removes (problems : dict problem)
    (stage1_solutions : dict (dict solution)) (rs : dict final_result)
    (m : consensus_metrics) :
  calculate_consensus_rate problems stage1_solutions None = Ok m ->
  exists m' : consensus_metrics,
    calculate_consensus_rate problems stage1_solutions (Some rs) = Ok m'
    /\ total m' <= total m
    /\ full_consensus m' <= full_consensus m
    /\ partial_consensus m' <= partial_consensus m
    /\ no_consensus m' <= no_consensus m.
Proof.
  unfold calculate_consensus_rate. rewrite !consensus_loop.
  destruct (map_result classify_problem (consensus_eligible problems None stage1_solutions))
    as [classes|e] eqn:E; cbn [bind]; [|discriminate].
  intros H. inversion H. subst m. clear H.
  destruct (consensus_filter_classes problems rs stage1_solutions classes E)
    as [classes' [E' [L C]]].
  rewrite E'. cbn [bind]. eexists. split; [reflexivity|].
  cbn [total full_consensus partial_consensus no_consensus].
  pose proof (C FullConsensus). pose proof (C PartialConsensus).
  pose proof (C NoConsensus). lia.
Qed.

(** The theorem at two problems of which one has a result: the filter
    keeps the problem with answers 34, 34, 35 and removes the other. *)
Lemma consensus_results_filter_only_removes_witness :
  exists m m' : consensus_metrics,
    calculate_consensus_rate two_known_problems stage1_two_known None = Ok m
    /\ calculate_consensus_rate two_known_problems stage1_two_known (Some results_math_001)
       = Ok m'
    /\ (total m = 2 /\ full_consensus m = 1 /\ partial_consensus m = 1)
    /\ (total m' = 1 /\ full_consensus m' = 0 /\ partial_consensus m' = 1)
    /\ total m' <= total m
    /\ full_consensus m' <= full_consensus m
    /\ partial_consensus m' <= partial_consensus m
    /\ no_consensus m' <= no_consensus m.
Proof.
  destruct (calculate_consensus_rate two_known_problems stage1_two_known None)
    as [m|e] eqn:E; [|vm_compute in E; discriminate].
  destruct (consensus_results_filter_only_removes two_known_problems stage1_two_known
              results_math_001 m E) as [m' [E' H]].
  exists m, m'. split; [reflexivity|]. split; [exact E'|].
  split; [vm_compute in E; inversion E; repeat split|].
  split; [vm_compute in E'; inversion E'; repeat split | exact H].
Defined.

(* ================================================================== *)
(** * Consensus and the number of solvers *)

(** C9: [calculate_consensus_rate] never looks at the number of solvers.
    Its classes are written for three solvers ("all 3 agree", "2 agree",
    "all different"), and for three answers the number of distinct
    normalised answers is 1, 2 or 3, with 34, 34, 35 partial and 1, 1, 1
    full.  But every problem of the first stage that is in [problems]
    (and in [results] when results are passed) is classified by that
    number alone: a problem answered by two solvers who agree is counted
    as a full consensus, one answered by two solvers who disagree as a
    partial consensus, and one that nobody answered as no consensus,
    where the majority vote skips it.  Over the problems with exactly
    three solvers the total is 0 in all three cases. *)
Theorem consensus_rate_ignores_the_number_of_solvers :
  (forall problems stage1_solutions results,
      calculate_consensus_rate problems stage1_solutions results
      = (classes <- map_result classify_problem
                      (consensus_eligible problems results stage1_solutions) ;;
         Ok (consensus_of_classes classes)))
  /\ (forall p solutions,
      classify_problem (p, solutions)
      = (normalized <- map_result (fun a => normalize_answer a (answer_type p))
                         (map (fun kv => get_final_answer (snd kv)) solutions) ;;
         Ok (match count_unique normalized with
             | 1%nat => FullConsensus
             | 2%nat => PartialConsensus
             | _ => NoConsensus
             end)))
  /\ (forall x y z : string,
      (count_unique [x; y; z] = 1%nat <-> x = y /\ y = z)
      /\ (count_unique [x; y; z] = 3%nat <-> x <> y /\ y <> z /\ x <> z)
      /\ (1 <= count_unique [x; y; z] <= 3)%nat)
  /\ calculate_consensus_rate one_problem stage1_34_34_35 None
     = Ok {| total := 1; full_consensus := 0; partial_consensus := 1;
             no_consensus := 0; consensus_rate := Float.int_truediv 0 1 |}
  /\ calculate_consensus_rate one_problem stage1_1_1_1 None
     = Ok {| total := 1; full_consensus := 1; partial_consensus := 0;
             no_consensus := 0; consensus_rate := Float.int_truediv 1 1 |}
  /\ consensus_total_spec one_problem None stage1_two_agents = 0
  /\ calculate_consensus_rate one_problem stage1_two_agents None
     = Ok {| total := 1; full_consensus := 1; partial_consensus := 0;
             no_consensus := 0; consensus_rate := Float.int_truediv 1 1 |}
  /\ consensus_total_spec one_problem None stage1_mixed = 0
  /\ calculate_consensus_rate one_problem stage1_mixed None
     = Ok {| total := 1; full_consensus := 0; partial_consensus := 1;
             no_consensus := 0; consensus_rate := Float.int_truediv 0 1 |}
  /\ consensus_total_spec one_problem None stage1_unanswered = 0
  /\ calculate_consensus_rate one_problem stage1_unanswered None
     = Ok {| total := 1; full_consensus := 0; partial_consensus := 0;
             no_consensus := 1; consensus_rate := Float.int_truediv 0 1 |}
  /\ calculate_majority_vote_baseline one_problem stage1_unanswered None
     = Ok {| baseline_answers := []; baseline_correct := 0; baseline_total := 0;
             baseline_accuracy := zero_float |}.
Proof.
  split; [|split; [|split]].
  - intros problems stage1 results. unfold calculate_consensus_rate.
    rewrite consensus_loop.
    destruct (map_result classify_problem _) as [classes|e]; reflexivity.
  - intros p solutions. unfold classify_problem, classify_unique.
    destruct (map_result _ _) as [normalized|e]; [|reflexivity].
    cbn [bind]. destruct (count_unique normalized) as [|[|[|n]]]; reflexivity.
  - apply count_unique_three.
  - repeat split; vm_compute; reflexivity.
Qed.

(* ================================================================== *)
(** * [Counter] and [most_common] *)

Lemma occurrences_app (y : string) (xs ys : list string) :
  occurrences y (xs ++ ys) = occurrences y xs + occurrences y ys.
Proof.
  unfold occurrences, len. rewrite filter_app, List.length_app. lia.
Qed.

Lemma occurrences_cons (y x : string) (xs : list string) :
  occurrences y (x :: xs) = (if String.eqb y x then 1 else 0) + occurrences y xs.
Proof.
  unfold occurrences. cbn [filter].
  destruct (String.eqb y x); [apply len_cons | reflexivity].
Qed.

Lemma occurrences_nonneg (y : string) (xs : list string) : 0 <= occurrences y xs.
Proof. apply len_nonneg. Qed.

Lemma occurrences_pos (y : string) (xs : list string) :
  0 < occurrences y xs <-> In y xs.
Proof.
  induction xs as [|x xs IH].
  - unfold occurrences, len. cbn. split; [lia | tauto].
  - rewrite occurrences_cons. cbn [In].
    pose proof (occurrences_nonneg y xs).
    destruct (String.eqb_spec y x) as [->|N].
    + split; [auto | lia].
    + rewrite Z.add_0_l, IH. split; [auto | intros [E|I]; [congruence | exact I]].
Qed.

Lemma Counter_snoc (xs : list string) (x : string) :
  Counter (xs ++ [x])
  = dict_set (Counter xs) x
      (match dict_get (Counter xs) x with Some n => n + 1 | None => 1 end).
Proof. unfold Counter. rewrite fold_left_app. reflexivity. Qed.

(** The counter holds the number of occurrences of every element. *)
Lemma Counter_get (xs : list string) (y : string) :
  dict_get (Counter xs) y
  = if 0 <? occurrences y xs then Some (occurrences y xs) else None.
Proof.
  induction xs as [|x xs IH] using rev_ind; [reflexivity|].
  rewrite Counter_snoc, dict_get_set, occurrences_app, occurrences_cons.
  replace (occurrences y []) with 0 by reflexivity.
  pose proof (occurrences_nonneg y xs) as P.
  rewrite String.eqb_sym.
  destruct (String.eqb_spec y x) as [->|N].
  - rewrite IH. destruct (Z.ltb_spec 0 (occurrences x xs)).
    + destruct (Z.ltb_spec 0 (occurrences x xs + (1 + 0))); [|lia]; f_equal; lia.
    + destruct (Z.ltb_spec 0 (occurrences x xs + (1 + 0))); [|lia]; f_equal; lia.
  - rewrite IH, !Z.add_0_r. reflexivity.
Qed.

Lemma Counter_keys (xs : list string) (y : string) :
  In y (dict_keys (Counter xs)) <-> In y xs.
Proof.
  rewrite <- dict_mem_In, <- occurrences_pos. unfold dict_mem.
  rewrite Counter_get. destruct (Z.ltb_spec 0 (occurrences y xs)).
  - tauto.
  - split; [discriminate | lia].
Qed.

Lemma Counter_NoDup (xs : list string) : NoDup (dict_keys (Counter xs)).
Proof.
  induction xs as [|x xs IH] using rev_ind; [constructor|].
  rewrite Counter_snoc. apply dict_set_NoDup, IH.
Qed.

(** The keys of the counter are in the order of first occurrence: a key
    that comes before another occurs before every occurrence of the other. *)
Lemma Counter_order (xs : list string) (p q : list string) (k y : string) :
  dict_keys (Counter xs) = (p ++ k :: q)%list ->
  In y q ->
  exists pre post : list string, xs = (pre ++ k :: post)%list /\ ~ In y pre.
Proof.
  revert p q. induction xs as [|x xs IH] using rev_ind; intros p q.
  - destruct p; discriminate.
  - rewrite Counter_snoc.
    destruct (dict_mem (Counter xs) x) eqn:M.
    + rewrite dict_set_keys_mem by exact M. intros E I.
      destruct (IH p q E I) as [pre [post [-> N]]].
      exists pre, (post ++ [x])%list. split; [|exact N].
      now rewrite <- app_assoc.
    + rewrite dict_set_keys_new by exact M.
      assert (Nx : ~ In x xs).
      { intros I. apply Counter_keys, dict_mem_In in I. congruence. }
      destruct q as [|z q'] using rev_ind; [intros _ []|]. clear IHq'.
      replace (p ++ k :: q' ++ [z])%list with ((p ++ k :: q') ++ [z])%list
        by (now rewrite <- app_assoc).
      intros E I. apply app_inj_tail in E. destruct E as [E ->].
      apply in_app_or in I. destruct I as [I|[<-|[]]].
      * destruct (IH p q' E I) as [pre [post [-> N]]].
        exists pre, (post ++ [z])%list. split; [|exact N].
        now rewrite <- app_assoc.
      * assert (Ik : In k xs).
        { apply Counter_keys. rewrite E. apply in_or_app. right. left. reflexivity. }
        apply in_split in Ik. destruct Ik as [pre [post ->]].
        exists pre, (post ++ [z])%list. split; [now rewrite <- app_assoc|].
        intros I. apply Nx, in_or_app. left. exact I.
Qed.

Lemma max_item_ge (best : string * Z) (items : dict Z) :
  snd best <= snd (max_item best items).
Proof.
  revert best. induction items as [|it items IH]; intros best; cbn [max_item]; [lia|].
  destruct (Z.ltb_spec (snd best) (snd it)).
  - specialize (IH it). lia.
  - apply IH.
Qed.

(** [max] returns the first of the items with the greatest count. *)
Lemma max_item_first (best : string * Z) (items : dict Z) :
  exists p q : dict Z,
    best :: items = (p ++ max_item best items :: q)%list
    /\ Forall (fun it => snd it < snd (max_item best items)) p
    /\ Forall (fun it => snd it <= snd (max_item best items)) q.
Proof.
  revert best. induction items as [|it items IH]; intros best; cbn [max_item].
  - exists [], []. repeat split; constructor.
  - destruct (Z.ltb_spec (snd best) (snd it)) as [L|L].
    + destruct (IH it) as [p [q [E [P Q]]]].
      exists (best :: p), q. split; [cbn [app]; rewrite <- E; reflexivity|].
      split; [|exact Q]. constructor; [|exact P].
      pose proof (max_item_ge it items). lia.
    + destruct (IH best) as [p [q [E [P Q]]]].
      destruct p as [|b p]; cbn [app] in E; injection E as E1 E2.
      * exists [], (it :: items). rewrite <- E2 in Q.
        split; [cbn [app]; rewrite <- E1; reflexivity|].
        split; [constructor|]. constructor; [rewrite <- E1; exact L | exact Q].
      * subst b. exists (best :: it :: p), q.
        split; [cbn [app]; rewrite <- E2; reflexivity|].
        split; [|exact Q]. inversion P as [|? ? Pb Pp]. subst.
        constructor; [exact Pb|]. constructor; [lia | exact Pp].
Qed.

(** X20: [Counter(xs).most_common(1)[0][0]] is a plurality element.  For a
    list that is not empty it is an element of the list, no element occurs
    more often, and among the elements that occur as often it is the one
    seen first: it occurs before every occurrence of any other of them. *)
Theorem most_common_first_is_first_plurality (xs : list string) :
  xs <> [] ->
  In (most_common_first (Counter xs)) xs
  /\ (forall y, occurrences y xs <= occurrences (most_common_first (Counter xs)) xs)
  /\ (forall y,
        y <> most_common_first (Counter xs) ->
        occurrences y xs = occurrences (most_common_first (Counter xs)) xs ->
        exists pre post : list string,
          xs = (pre ++ most_common_first (Counter xs) :: post)%list /\ ~ In y pre).
Proof.
  intros Hne. unfold most_common_first.
  destruct (Counter xs) as [|it rest] eqn:EC.
  - destruct xs as [|x xs]; [now elim Hne|].
    assert (I : In x (dict_keys (Counter (x :: xs)))) by (apply Counter_keys; now left).
    rewrite EC in I. destruct I.
  - destruct (max_item_first it rest) as [p [q [E [P Q]]]].
    remember (max_item it rest) as r eqn:Er. clear Er.
    assert (G : dict_get (Counter xs) (fst r) = Some (snd r)).
    { apply In_dict_get; [apply Counter_NoDup|]. rewrite EC, E.
      apply in_or_app. right. left. now destruct r. }
    rewrite Counter_get in G.
    destruct (Z.ltb_spec 0 (occurrences (fst r) xs)) as [Pos|]; [|discriminate].
    inversion G as [Hr]. clear G.
    assert (Hle : forall y, occurrences y xs <= occurrences (fst r) xs).
    { intros y. destruct (Z.ltb_spec 0 (occurrences y xs)) as [Py|]; [|lia].
      assert (I : In (y, occurrences y xs) (Counter xs)).
      { apply dict_get_In. rewrite Counter_get.
        destruct (Z.ltb_spec 0 (occurrences y xs)); [reflexivity | lia]. }
      rewrite EC, E in I. apply in_app_or in I. destruct I as [I|[I|I]].
      - rewrite Forall_forall in P. specialize (P _ I). cbn [snd] in P. lia.
      - rewrite I. cbn [fst]. lia.
      - rewrite Forall_forall in Q. specialize (Q _ I). cbn [snd] in Q. lia. }
    split; [apply occurrences_pos, Pos|]. split; [exact Hle|].
    intros y Ny Ey.
    assert (I : In (y, occurrences y xs) (Counter xs)).
    { apply dict_get_In. rewrite Counter_get.
      destruct (Z.ltb_spec 0 (occurrences y xs)); [reflexivity | lia]. }
    rewrite EC, E in I. apply in_app_or in I. destruct I as [I|[I|I]].
    + rewrite Forall_forall in P. specialize (P _ I). cbn [snd] in P. lia.
    + elim Ny. rewrite I. reflexivity.
    + apply (Counter_order xs (map fst p) (map fst q) (fst r) y).
      * unfold dict_keys. rewrite EC, E, map_app. reflexivity.
      * change y with (fst (y, occurrences y xs)). now apply in_map.
Qed.

(** The theorem at a tie between two answers: the first one seen wins. *)
Lemma most_common_first_is_first_plurality_witness :
  most_common_first (Counter ["35"; "34"; "34"; "35"]) = "35"
  /\ In (most_common_first (Counter ["35"; "34"; "34"; "35"])) ["35"; "34"; "34"; "35"]
  /\ occurrences "34" ["35"; "34"; "34"; "35"]
     <= occurrences (most_common_first (Counter ["35"; "34"; "34"; "35"]))
                    ["35"; "34"; "34"; "35"].
Proof.
  split; [vm_compute; reflexivity|].
  assert (N : ["35"; "34"; "34"; "35"] <> []) by discriminate.
  destruct (most_common_first_is_first_plurality ["35"; "34"; "34"; "35"] N) as [I [L _]].
  split; [exact I | exact (L "34")].
Defined.

(* ================================================================== *)
(** * [calculate_majority_vote_baseline] *)

Lemma Counter_nil (xs : list string) : Counter xs = [] -> xs = [].
Proof.
  intros E. destruct xs as [|x xs]; [reflexivity|].
  assert (I : In x (dict_keys (Counter (x :: xs)))) by (apply Counter_keys; now left).
  rewrite E in I. destruct I.
Qed.

Lemma map_result_nil {A B : Type} (f : A -> result B) (xs : list A) :
  map_result f xs = Ok [] -> xs = [].
Proof.
  destruct xs as [|x xs]; [reflexivity|]. cbn [map_result].
  destruct (f x); cbn [bind]; [|discriminate].
  destruct (map_result f xs); cbn [bind]; discriminate.
Qed.

(** One turn of the loop of the majority vote. *)
Lemma majority_step_shape (problems : dict problem) (results : option (dict final_result))
    (br : dict string) (c : Z) (problem_id : string) (solutions : dict solution) :
  majority_step problems results (br, c) (problem_id, solutions)
  = match dict_get problems problem_id with
    | None => Ok (br, c)
    | Some p =>
        if match results with
           | Some rs => dict_mem rs problem_id
           | None => true
           end
        then
          normalized <- map_result (fun a => normalize_answer a (answer_type p))
                                   (stage1_answers solutions) ;;
          match solutions with
          | [] => Ok (br, c)
          | _ :: _ =>
              ok <- answers_match (most_common_first (Counter normalized))
                                  (correct_answer p) (answer_type p) ;;
              Ok (dict_set br problem_id (most_common_first (Counter normalized)),
                  if ok then c + 1 else c)
          end
        else Ok (br, c)
    end.
Proof.
  unfold majority_step, stage1_answers.
  destruct (dict_get problems problem_id) as [p|]; [|reflexivity].
  destruct results as [rs|]; [destruct (dict_mem rs problem_id)|]; cbn [negb];
    try reflexivity;
    (destruct (map_result _ _) as [normalized|e] eqn:E; cbn [bind]; [|reflexivity];
     destruct (Counter normalized) as [|it rest] eqn:EC;
     [ apply Counter_nil in EC; subst normalized; apply map_result_nil in E;
       apply map_eq_nil in E; subst solutions; reflexivity
     | destruct solutions as [|s solutions];
       [ cbn [map map_result] in E; inversion E; subst normalized; discriminate
       | reflexivity ] ]).
Qed.

Lemma baseline_eligible_cons (problems : dict problem) (results : option (dict final_result))
    (problem_id : string) (solutions : dict solution) (stage1 : dict (dict solution)) :
  baseline_eligible problems results ((problem_id, solutions) :: stage1)
  = if dict_mem problems problem_id
       && match results with Some rs => dict_mem rs problem_id | None => true end
       && match solutions with [] => false | _ :: _ => true end
    then (problem_id, solutions) :: baseline_eligible problems results stage1
    else baseline_eligible problems results stage1.
Proof. reflexivity. Qed.

Lemma dict_keys_cons {V : Type} (k : string) (v : V) (d : dict V) :
  dict_keys ((k, v) :: d) = k :: dict_keys d.
Proof. reflexivity. Qed.

Lemma majority_loop (problems : dict problem) (results : option (dict final_result))
    (stage1 : dict (dict solution)) (br br' : dict string) (c c' : Z) :
  NoDup (dict_keys stage1) ->
  (forall k, In k (dict_keys stage1) -> ~ In k (dict_keys br)) ->
  for_each (majority_step problems results) stage1 (br, c) = Ok (br', c') ->
  dict_keys br'
  = (dict_keys br ++ dict_keys (baseline_eligible problems results stage1))%list
  /\ c <= c' <= c + len (baseline_eligible problems results stage1).
Proof.
  revert br c. induction stage1 as [|[problem_id solutions] stage1 IH];
    intros br c N F; cbn [for_each].
  - intros H. inversion H. subst. cbn. rewrite app_nil_r. unfold len. cbn.
    split; [reflexivity|lia].
  - rewrite dict_keys_cons in N, F. inversion N as [|? ? N0 N1]. subst.
    assert (F' : forall k, In k (dict_keys stage1) -> ~ In k (dict_keys br))
      by (intros k I; apply F; now right).
    rewrite majority_step_shape, baseline_eligible_cons.
    change (dict_mem problems problem_id)
      with (match dict_get problems problem_id with Some _ => true | None => false end).
    destruct (dict_get problems problem_id) as [p|]; cbn [bind andb];
      [|exact (IH br c N1 F')].
    destruct (match results with Some rs => dict_mem rs problem_id | None => true end);
      cbn [bind andb]; [|exact (IH br c N1 F')].
    destruct (map_result _ _) as [normalized|e]; cbn [bind]; [|discriminate].
    destruct solutions as [|s solutions]; cbn [bind]; [exact (IH br c N1 F')|].
    destruct (answers_match _ _ _) as [ok|e]; cbn [bind]; [|discriminate].
    assert (M : dict_mem br problem_id = false).
    { destruct (dict_mem br problem_id) eqn:M; [|reflexivity].
      apply dict_mem_In in M. elim (F problem_id); [now left | exact M]. }
    intros H. apply IH in H; [|exact N1|].
    + destruct H as [K C]. rewrite K, (dict_set_keys_new br) by exact M.
      rewrite dict_keys_cons, len_cons, <- app_assoc.
      split; [reflexivity|]. destruct ok; lia.
    + intros k I. rewrite dict_set_keys_new by exact M.
      intros J. apply in_app_or in J. destruct J as [J|[<-|[]]].
      * exact (F' k I J).
      * exact (N0 I).
Qed.

(** X21: the counters of [calculate_majority_vote_baseline].  For a first
    stage whose problem ids are distinct, when the function returns, the
    problems with a recorded answer are, in order, those of the first
    stage that are in [problems] (and in [results] when results are
    passed) and have at least one solution; [total] is their number and
    [correct] lies between zero and [total]. *)
Theorem majority_vote_counts (problems : dict problem)
    (stage1_solutions : dict (dict solution)) (results : option (dict final_result))
    (m : baseline_metrics) :
  NoDup (dict_keys stage1_solutions) ->
  calculate_majority_vote_baseline problems stage1_solutions results = Ok m ->
  dict_keys (baseline_answers m)
  = dict_keys (baseline_eligible problems results stage1_solutions)
  /\ baseline_total m = len (baseline_eligible problems results stage1_solutions)
  /\ 0 <= baseline_correct m <= baseline_total m
  /\ baseline_total m <= len stage1_solutions.
Proof.
  intros N. unfold calculate_majority_vote_baseline.
  destruct (for_each _ _ _) as [[br c]|e] eqn:E; cbn [bind]; [|discriminate].
  intros H. inversion H. subst m. clear H.
  cbn [baseline_answers baseline_total baseline_correct].
  apply majority_loop in E; [|exact N|intros k _ []].
  destruct E as [K C]. cbn [dict_keys map app] in K. fold (dict_keys br) in K.
  assert (L : len br = len (baseline_eligible problems results stage1_solutions)).
  { unfold len. f_equal. unfold dict_keys in K.
    rewrite <- (length_map fst br), K.
    fold (dict_keys (baseline_eligible problems results stage1_solutions)).
    unfold dict_keys. apply length_map. }
  split; [exact K|]. split; [exact L|]. rewrite L. split; [lia|].
  apply len_filter_le.
Qed.

(** The theorem at two first-stage problems of which one is known. *)
Lemma majority_vote_counts_witness :
  NoDup (dict_keys two_problems_stage1)
  /\ exists m : baseline_metrics,
       calculate_majority_vote_baseline one_problem two_problems_stage1 None = Ok m
       /\ dict_keys (baseline_answers m)
          = dict_keys (baseline_eligible one_problem None two_problems_stage1)
       /\ baseline_total m = len (baseline_eligible one_problem None two_problems_stage1)
       /\ 0 <= baseline_correct m <= baseline_total m
       /\ baseline_total m <= len two_problems_stage1.
Proof.
  assert (N : NoDup (dict_keys two_problems_stage1)).
  { repeat constructor; cbn; intuition discriminate. }
  split; [exact N|].
  destruct (calculate_majority_vote_baseline one_problem two_problems_stage1 None)
    as [m|e] eqn:E; [|vm_compute in E; discriminate].
  exists m. split; [reflexivity|].
  exact (majority_vote_counts one_problem two_problems_stage1 None m N E).
Defined.

Lemma majority_loop_answers (problems : dict problem) (results : option (dict final_result))
    (all stage1 : dict (dict solution)) (br br' : dict string) (c c' : Z)
    (P : string -> string -> Prop) :
  (forall problem_id solutions p normalized,
      In (problem_id, solutions) all ->
      dict_get problems problem_id = Some p ->
      map_result (fun a => normalize_answer a (answer_type p)) (stage1_answers solutions)
      = Ok normalized ->
      solutions <> [] ->
      P problem_id (most_common_first (Counter normalized))) ->
  (forall x, In x stage1 -> In x all) ->
  (forall k a, dict_get br k = Some a -> P k a) ->
  for_each (majority_step problems results) stage1 (br, c) = Ok (br', c') ->
  forall k a, dict_get br' k = Some a -> P k a.
Proof.
  intros HP. revert br c. induction stage1 as [|[problem_id solutions] stage1 IH];
    intros br c Hall Hbr; cbn [for_each].
  - intros H. inversion H. subst. exact Hbr.
  - assert (Hall' : forall x, In x stage1 -> In x all)
      by (intros x I; apply Hall; now right).
    rewrite majority_step_shape.
    destruct (dict_get problems problem_id) as [p|] eqn:Ep; cbn [bind];
      [|apply IH; assumption].
    destruct (match results with Some rs => dict_mem rs problem_id | None => true end);
      cbn [bind]; [|apply IH; assumption].
    destruct (map_result _ _) as [normalized|e] eqn:En; cbn [bind]; [|discriminate].
    destruct solutions as [|s solutions]; cbn [bind]; [apply IH; assumption|].
    destruct (answers_match _ _ _) as [ok|e]; cbn [bind]; [|discriminate].
    apply IH; [exact Hall'|].
    intros k a. rewrite dict_get_set.
    destruct (String.eqb_spec problem_id k) as [<-|_]; [|apply Hbr].
    intros H. inversion H. subst a.
    eapply HP; [apply Hall; left; reflexivity | exact Ep | exact En | discriminate].
Qed.

(** X22: the answer that [calculate_majority_vote_baseline] records for a
    problem is the most common normalised answer of a first-stage entry
    of that problem which has at least one solution, the answers being
    normalised with the answer type of the problem. *)
Theorem majority_vote_records_plurality (problems : dict problem)
    (stage1_solutions : dict (dict solution)) (results : option (dict final_result))
    (m : baseline_metrics) (problem_id a : string) :
  calculate_majority_vote_baseline problems stage1_solutions results = Ok m ->
  dict_get (baseline_answers m) problem_id = Some a ->
  exists (p : problem) (solutions : dict solution) (normalized : list string),
    dict_get problems problem_id = Some p
    /\ In (problem_id, solutions) stage1_solutions
    /\ map_result (fun x => normalize_answer x (answer_type p)) (stage1_answers solutions)
       = Ok normalized
    /\ normalized <> []
    /\ a = most_common_first (Counter normalized).
Proof.
  unfold calculate_majority_vote_baseline.
  destruct (for_each _ _ _) as [[br c]|e] eqn:E; cbn [bind]; [|discriminate].
  intros H. inversion H. subst m. clear H. cbn [baseline_answers].
  revert problem_id a.
  eapply (majority_loop_answers problems results stage1_solutions stage1_solutions
            [] br 0 c); [|auto|discriminate|exact E].
  intros problem_id solutions p normalized I Ep En Ne.
  exists p, solutions, normalized.
  split; [exact Ep|]. split; [exact I|]. split; [exact En|]. split; [|reflexivity].
  intros ->. apply map_result_nil, map_eq_nil in En. contradiction.
Qed.

(** The theorem at the answers 35, 34 and 34 ways of one problem. *)
Lemma majority_vote_records_plurality_witness :
  exists (m : baseline_metrics) (p : problem) (solutions : dict solution)
         (normalized : list string),
    calculate_majority_vote_baseline one_problem two_problems_stage1 None = Ok m
    /\ dict_get (baseline_answers m) "math_001" = Some "34"
    /\ dict_get one_problem "math_001" = Some p
    /\ In ("math_001", solutions) two_problems_stage1
    /\ map_result (fun x => normalize_answer x (answer_type p)) (stage1_answers solutions)
       = Ok normalized
    /\ normalized <> []
    /\ "34" = most_common_first (Counter normalized).
Proof.
  destruct (calculate_majority_vote_baseline one_problem two_problems_stage1 None)
    as [m|e] eqn:E; [|vm_compute in E; discriminate].
  assert (G : dict_get (baseline_answers m) "math_001" = Some "34").
  { vm_compute in E. inversion E. reflexivity. }
  destruct (majority_vote_records_plurality one_problem two_problems_stage1 None m
              "math_001" "34" E G) as [p [solutions [normalized H]]].
  exists m, p, solutions, normalized. split; [reflexivity|]. split; [exact G | exact H].
Defined.

(* ================================================================== *)
(** * [calculate_judge_accuracy] *)

Lemma judge_loop_counts (problems : dict problem) (stage1 : dict (dict solution))
    (results : dict final_result) (t j c t' j' c' : Z) :
  for_each (judge_step problems stage1) results (t, j, c) = Ok (t', j', c') ->
  t <= t' <= t + len results
  /\ j <= j' /\ j' - j <= t' - t
  /\ c <= c' /\ c' - c <= t' - t.
Proof.
  revert t j c. induction results as [|[problem_id r] results IH]; intros t j c;
    cbn [for_each].
  - intros H. inversion H. subst. unfold len. cbn. lia.
  - rewrite len_cons. unfold judge_step.
    destruct (dict_get problems problem_id) as [p|];
      [destruct (dict_get stage1 problem_id) as [solutions|]|]; cbn [bind];
      try (intros H; apply IH in H; lia).
    destruct (map_result _ _) as [normalized|e]; cbn [bind]; [|discriminate].
    destruct (Nat.ltb 1 (count_unique normalized)); cbn [bind];
      [|intros H; apply IH in H; lia].
    destruct (answers_match _ _ _) as [jo|e]; cbn [bind]; [|discriminate].
    destruct (answers_match _ _ _) as [mo|e]; cbn [bind]; [|discriminate].
    intros H. apply IH in H. destruct jo, mo; lia.
Qed.

(** X23: the counters of [calculate_judge_accuracy].  When it returns,
    the problems on which the judge is correct and those on which the
    majority vote is correct are each at most the disagreements, which
    are at most the results; the two accuracies are the two counts over
    the disagreements, and 0.0 when there is no disagreement. *)
Theorem judge_accuracy_counts (problems : dict problem) (results : dict final_result)
    (stage1_solutions : dict (dict solution)) (m : judge_metrics) :
  calculate_judge_accuracy problems results stage1_solutions = Ok m ->
  0 <= judge_correct m <= total_disagreements m
  /\ 0 <= majority_vote_correct m <= total_disagreements m
  /\ total_disagreements m <= len results
  /\ judge_accuracy m
     = (if total_disagreements m =? 0 then zero_float
        else Float.int_truediv (judge_correct m) (total_disagreements m))
  /\ majority_vote_accuracy m
     = (if total_disagreements m =? 0 then zero_float
        else Float.int_truediv (majority_vote_correct m) (total_disagreements m)).
Proof.
  unfold calculate_judge_accuracy.
  destruct (for_each _ _ _) as [[[t j] c]|e] eqn:E; cbn [bind]; [|discriminate].
  intros H. inversion H. subst m. clear H.
  cbn [judge_correct majority_vote_correct total_disagreements judge_accuracy
       majority_vote_accuracy].
  apply judge_loop_counts in E.
  assert (B : (0 <? t) = negb (t =? 0)).
  { destruct (Z.ltb_spec 0 t), (Z.eqb_spec t 0); cbn; lia || reflexivity. }
  rewrite B. destruct (t =? 0); cbn [negb]; repeat split; lia.
Qed.

(** The theorem at one problem on which the solvers disagree. *)
Lemma judge_accuracy_counts_witness :
  exists m : judge_metrics,
    calculate_judge_accuracy one_problem two_results two_problems_stage1 = Ok m
    /\ 0 <= judge_correct m <= total_disagreements m
    /\ 0 <= majority_vote_correct m <= total_disagreements m
    /\ total_disagreements m <= len two_results
    /\ judge_accuracy m
       = (if total_disagreements m =? 0 then zero_float
          else Float.int_truediv (judge_correct m) (total_disagreements m))
    /\ majority_vote_accuracy m
       = (if total_disagreements m =? 0 then zero_float
          else Float.int_truediv (majority_vote_correct m) (total_disagreements m)).
Proof.
  destruct (calculate_judge_accuracy one_problem two_results two_problems_stage1)
    as [m|e] eqn:E; [|vm_compute in E; discriminate].
  exists m. split; [reflexivity|].
  exact (judge_accuracy_counts one_problem two_results two_problems_stage1 m E).
Defined.


(* ================================================================== *)
(** * The majority vote and the consensus rate cover the same problems *)

Lemma baseline_eligible_le_consensus_eligible (problems : dict problem)
    (results : option (dict final_result)) (stage1 : dict (dict solution)) :
  len (baseline_eligible problems results stage1)
  <= len (consensus_eligible problems results stage1)
  /\ (Forall (fun kv => snd kv <> []) stage1 ->
      len (baseline_eligible problems results stage1)
      = len (consensus_eligible problems results stage1)).
Proof.
  induction stage1 as [|[problem_id solutions] stage1 [IH1 IH2]].
  - split; [apply Z.le_refl | reflexivity].
  - rewrite baseline_eligible_cons. cbn [consensus_eligible].
    change (dict_mem problems problem_id)
      with (match dict_get problems problem_id with Some _ => true | None => false end).
    destruct (dict_get problems problem_id) as [p|]; cbn [andb].
    + destruct (match results with Some rs => dict_mem rs problem_id | None => true end);
        cbn [andb].
      * destruct solutions as [|s solutions]; rewrite !len_cons.
        -- split; [lia|]. intros F. inversion F as [|? ? F0 F1]. now elim F0.
        -- split; [lia|]. intros F. inversion F as [|? ? F0 F1]. rewrite (IH2 F1).
           reflexivity.
      * split; [exact IH1|]. intros F. inversion F. auto.
    + split; [exact IH1|]. intros F. inversion F. auto.
Qed.

(** X25: the majority vote and the consensus rate look at the same
    problems.  For a first stage whose problem ids are distinct, when both
    functions return on the same arguments, the majority vote records at
    most as many problems as the consensus rate counts, and as many when
    every first-stage entry holds a solution. *)
Theorem majority_vote_total_and_consensus_total (problems : dict problem)
    (stage1_solutions : dict (dict solution)) (results : option (dict final_result))
    (bm : baseline_metrics) (cm : consensus_metrics) :
  NoDup (dict_keys stage1_solutions) ->
  calculate_majority_vote_baseline problems stage1_solutions results = Ok bm ->
  calculate_consensus_rate problems stage1_solutions results = Ok cm ->
  baseline_total bm <= total cm
  /\ (Forall (fun kv => snd kv <> []) stage1_solutions -> baseline_total bm = total cm).
Proof.
  intros N. unfold calculate_majority_vote_baseline, calculate_consensus_rate.
  rewrite consensus_loop.
  destruct (for_each _ _ _) as [[br c]|e] eqn:E; cbn [bind]; [|discriminate].
  intros H. inversion H. subst bm. clear H.
  destruct (map_result classify_problem _) as [classes|e] eqn:Ec; cbn [bind];
    [|discriminate].
  intros H. inversion H. subst cm. clear H. cbn [baseline_total total].
  apply majority_loop in E; [|exact N|intros k _ []].
  destruct E as [K _]. cbn [dict_keys map app] in K. fold (dict_keys br) in K.
  assert (L : len br = len (baseline_eligible problems results stage1_solutions)).
  { unfold len. f_equal. unfold dict_keys in K.
    rewrite <- (length_map fst br), K. apply length_map. }
  rewrite L. change (0 + len classes) with (len classes).
  rewrite (map_result_len _ _ _ Ec).
  apply baseline_eligible_le_consensus_eligible.
Qed.

(** The theorem at two first-stage problems of which one is known. *)
Lemma majority_vote_total_and_consensus_total_witness :
  NoDup (dict_keys two_problems_stage1)
  /\ exists (bm : baseline_metrics) (cm : consensus_metrics),
       calculate_majority_vote_baseline one_problem two_problems_stage1 None = Ok bm
       /\ calculate_consensus_rate one_problem two_problems_stage1 None = Ok cm
       /\ baseline_total bm <= total cm
       /\ (Forall (fun kv => snd kv <> []) two_problems_stage1 ->
           baseline_total bm = total cm).
Proof.
  assert (N : NoDup (dict_keys two_problems_stage1)).
  { repeat constructor; cbn; intuition discriminate. }
  split; [exact N|].
  destruct (calculate_majority_vote_baseline one_problem two_problems_stage1 None)
    as [bm|e] eqn:Eb; [|vm_compute in Eb; discriminate].
  destruct (calculate_consensus_rate one_problem two_problems_stage1 None)
    as [cm|e] eqn:Ec; [|vm_compute in Ec; discriminate].
  exists bm, cm. split; [reflexivity|]. split; [reflexivity|].
  exact (majority_vote_total_and_consensus_total one_problem two_problems_stage1 None
           bm cm N Eb Ec).
Defined.

(* ================================================================== *)
(** * What the counters count *)

Lemma len_filter_cons {A : Type} (f : A -> bool) (x : A) (xs : list A) :
  len (filter f (x :: xs)) = (if f x then 1 else 0) + len (filter f xs).
Proof. cbn [filter]. destruct (f x); [apply len_cons | reflexivity]. Qed.

Lemma is_correct_Ok (p : problem) (answer : string) (ok : bool) :
  answers_match answer (correct_answer p) (answer_type p) = Ok ok ->
  is_correct p answer = ok.
Proof. intros H. unfold is_correct. now rewrite H. Qed.

Lemma dict_get_map {V W : Type} (g : V -> W) (d : dict V) (k : string) :
  dict_get (map (fun kv => (fst kv, g (snd kv))) d) k = option_map g (dict_get d k).
Proof.
  induction d as [|[k0 v0] d IH]; cbn [map dict_get fst snd option_map]; [reflexivity|].
  destruct (String.eqb k0 k); [reflexivity | exact IH].
Qed.

Lemma evaluated_in_pair (problems : dict problem) (c problem_id : string) (r : final_result) :
  evaluated_in problems c (problem_id, r)
  = match dict_get problems problem_id with
    | Some p => String.eqb (category p) c
    | None => false
    end.
Proof. reflexivity. Qed.

Lemma winning_answer_correct_pair (problems : dict problem) (problem_id : string)
    (r : final_result) :
  winning_answer_correct problems (problem_id, r)
  = match dict_get problems problem_id with
    | Some p => is_correct p (get_winning_answer r)
    | None => false
    end.
Proof. reflexivity. Qed.

Lemma disagreement_pair (problems : dict problem) (stage1 : dict (dict solution))
    (problem_id : string) (r : final_result) :
  disagreement problems stage1 (problem_id, r)
  = match dict_get problems problem_id, dict_get stage1 problem_id with
    | Some p, Some solutions =>
        match normalized_answers p solutions with
        | Ok normalized => Nat.ltb 1 (count_unique normalized)
        | Raise _ => false
        end
    | _, _ => false
    end.
Proof. reflexivity. Qed.

Lemma majority_vote_right_pair (problems : dict problem) (stage1 : dict (dict solution))
    (problem_id : string) (r : final_result) :
  majority_vote_right problems stage1 (problem_id, r)
  = match dict_get problems problem_id, dict_get stage1 problem_id with
    | Some p, Some solutions => plurality_correct p solutions
    | _, _ => false
    end.
Proof. reflexivity. Qed.

Lemma entry_improved_pair (problems : dict problem) (refined_solutions : dict (dict solution))
    (problem_id : string) (solutions : dict solution) :
  entry_improved problems refined_solutions (problem_id, solutions)
  = match dict_get problems problem_id, dict_get refined_solutions problem_id with
    | Some p, Some refined =>
        existsb (solver_improved p (answers_of refined)) (answers_of solutions)
    | _, _ => false
    end.
Proof. reflexivity. Qed.

Lemma entry_worsened_pair (problems : dict problem) (refined_solutions : dict (dict solution))
    (problem_id : string) (solutions : dict solution) :
  entry_worsened problems refined_solutions (problem_id, solutions)
  = match dict_get problems problem_id, dict_get refined_solutions problem_id with
    | Some p, Some refined =>
        existsb (solver_worsened p (answers_of refined)) (answers_of solutions)
    | _, _ => false
    end.
Proof. reflexivity. Qed.


Lemma system_loop_closed_form (problems : dict problem) (results : dict final_result)
    (cc cc' : Z) (d d' : dict category_metrics) :
  for_each (system_step problems) results (cc, d) = Ok (cc', d') ->
  cc' = cc + len (filter (winning_answer_correct problems) results)
  /\ forall c : string,
       total_in d' c = total_in d c + len (filter (evaluated_in problems c) results)
       /\ correct_in d' c
          = correct_in d c
            + len (filter (fun item => evaluated_in problems c item
                                       && winning_answer_correct problems item) results)
       /\ (dict_get d' c = None
           <-> dict_get d c = None
               /\ len (filter (evaluated_in problems c) results) = 0).
Proof.
  revert cc d. induction results as [|[problem_id r] results IH]; intros cc d;
    cbn [for_each].
  - intros H. inversion H. subst. unfold len. cbn. split; [lia|].
    intros c. repeat split; try lia; tauto.
  - rewrite system_step_shape.
    assert (R : forall c,
               len (filter (evaluated_in problems c) ((problem_id, r) :: results))
               = (if evaluated_in problems c (problem_id, r) then 1 else 0)
                 + len (filter (evaluated_in problems c) results)
               /\ len (filter (fun item => evaluated_in problems c item
                                           && winning_answer_correct problems item)
                              ((problem_id, r) :: results))
                  = (if evaluated_in problems c (problem_id, r)
                        && winning_answer_correct problems (problem_id, r)
                     then 1 else 0)
                    + len (filter (fun item => evaluated_in problems c item
                                               && winning_answer_correct problems item)
                                  results)).
    { intros c. split; [apply len_filter_cons|].
      exact (len_filter_cons
               (fun item => evaluated_in problems c item
                            && winning_answer_correct problems item)
               (problem_id, r) results). }
    rewrite len_filter_cons, winning_answer_correct_pair.
    destruct (dict_get problems problem_id) as [p|] eqn:Ep; cbn [bind andb].
    + destruct (answers_match _ _ _) as [ok|e] eqn:Em; cbn [bind]; [|discriminate].
      rewrite (is_correct_Ok _ _ _ Em).
      intros H. apply IH in H. destruct H as [Hc Hd].
      split; [destruct ok; lia|].
      intros c. destruct (Hd c) as [H1 [H2 H3]]. destruct (R c) as [R1 R2].
      rewrite R1, R2, evaluated_in_pair, winning_answer_correct_pair, Ep,
        (is_correct_Ok _ _ _ Em).
      pose proof (len_nonneg (filter (evaluated_in problems c) results)) as P.
      unfold total_in, correct_in in *. rewrite dict_get_set in H1, H2, H3.
      clear Hd R IH.
      destruct (String.eqb_spec (category p) c) as [E|N]; [subst c|];
        cbv beta iota in *.
      * rewrite H1, H2, cat_total_count_result, cat_correct_count_result.
        destruct (dict_get d (category p)) as [e0|].
        -- split; [lia|]. split; [destruct ok; cbn [andb]; lia|].
           rewrite H3. split; intros [? ?]; discriminate.
        -- split; [lia|]. split; [destruct ok; cbn [andb]; lia|].
           rewrite H3. split; [intros [? ?]; discriminate | intros [_ ?]; lia].
      * cbn [andb]. rewrite H1, H2, !Z.add_0_l. tauto.
    + intros H. apply IH in H. destruct H as [Hc Hd].
      split; [lia|]. intros c. destruct (R c) as [R1 R2].
      rewrite R1, R2, evaluated_in_pair, Ep. cbn [andb]. rewrite !Z.add_0_l.
      exact (Hd c).
Qed.

(** X26: what [calculate_system_metrics] counts.  When it returns,
    [correct_final_answers] is the number of results whose problem is
    known and whose winning answer matches the correct answer; a category
    is listed exactly when some result with a known problem belongs to it,
    and its [total] and [correct] are the numbers of such results and of
    the correct ones among them. *)
Theorem system_metrics_closed_form
    (problems : dict problem) (results : dict final_result) (m : system_metrics) :
  calculate_system_metrics problems results = Ok m ->
  correct_final_answers m = len (filter (winning_answer_correct problems) results)
  /\ forall c : string,
       match dict_get (by_category m) c with
       | Some e =>
           cat_total e = len (filter (evaluated_in problems c) results)
           /\ cat_correct e
              = len (filter (fun item => evaluated_in problems c item
                                         && winning_answer_correct problems item) results)
       | None => len (filter (evaluated_in problems c) results) = 0
       end.
Proof.
  unfold calculate_system_metrics.
  destruct (for_each _ _ _) as [[cc d]|e] eqn:E; cbn [bind]; [|discriminate].
  intros H. inversion H. subst m. clear H.
  cbn [correct_final_answers by_category].
  apply system_loop_closed_form in E. destruct E as [Hc Hd].
  split; [lia|]. intros c. destruct (Hd c) as [H1 [H2 H3]].
  rewrite dict_get_map. unfold total_in, correct_in in *. cbn [dict_get] in *.
  destruct (dict_get d c) as [e0|]; cbn [option_map].
  - unfold set_category_accuracy. destruct (0 <? cat_total e0); cbn; lia.
  - apply H3. reflexivity.
Qed.

(** The theorem at two results, one of them for an unknown problem. *)
Lemma system_metrics_closed_form_witness :
  exists m : system_metrics,
    calculate_system_metrics one_problem two_results = Ok m
    /\ correct_final_answers m = len (filter (winning_answer_correct one_problem) two_results)
    /\ forall c : string,
         match dict_get (by_category m) c with
         | Some e =>
             cat_total e = len (filter (evaluated_in one_problem c) two_results)
             /\ cat_correct e
                = len (filter (fun item => evaluated_in one_problem c item
                                           && winning_answer_correct one_problem item)
                              two_results)
         | None => len (filter (evaluated_in one_problem c) two_results) = 0
         end.
Proof.
  destruct (calculate_system_metrics one_problem two_results) as [m|e] eqn:E;
    [|vm_compute in E; discriminate].
  exists m. split; [reflexivity|].
  exact (system_metrics_closed_form one_problem two_results m E).
Defined.

Lemma judge_loop_closed_form (problems : dict problem) (stage1 : dict (dict solution))
    (results : dict final_result) (t j c t' j' c' : Z) :
  for_each (judge_step problems stage1) results (t, j, c) = Ok (t', j', c') ->
  t' = t + len (filter (disagreement problems stage1) results)
  /\ j' = j + len (filter (fun item => disagreement problems stage1 item
                                       && winning_answer_correct problems item) results)
  /\ c' = c + len (filter (fun item => disagreement problems stage1 item
                                       && majority_vote_right problems stage1 item) results).
Proof.
  revert t j c. induction results as [|[problem_id r] results IH]; intros t j c;
    cbn [for_each].
  - intros H. inversion H. subst. unfold len. cbn. lia.
  - rewrite !len_filter_cons. cbv beta.
    rewrite disagreement_pair, winning_answer_correct_pair, majority_vote_right_pair.
    unfold judge_step, plurality_correct, normalized_answers, stage1_answers.
    destruct (dict_get problems problem_id) as [p|];
      [destruct (dict_get stage1 problem_id) as [solutions|]|]; cbn [bind andb];
      try (intros H; apply IH in H; lia).
    destruct (map_result _ _) as [normalized|e]; cbn [bind]; [|discriminate].
    destruct (Nat.ltb 1 (count_unique normalized)); cbn [bind andb];
      [|intros H; apply IH in H; lia].
    destruct (answers_match (get_winning_answer r) _ _) as [jo|e] eqn:Ej; cbn [bind];
      [|discriminate].
    destruct (answers_match (most_common_first _) _ _) as [mo|e] eqn:Em; cbn [bind];
      [|discriminate].
    rewrite (is_correct_Ok _ _ _ Ej), (is_correct_Ok _ _ _ Em).
    intros H. apply IH in H. destruct jo, mo; lia.
Qed.

(** X27: what [calculate_judge_accuracy] counts.  When it returns,
    [total_disagreements] is the number of results whose problem is known
    and has first-stage solutions that normalise to more than one distinct
    answer; [judge_correct] counts those of them whose winning answer is
    correct, and [majority_vote_correct] those whose most common
    first-stage answer is correct. *)
Theorem judge_accuracy_closed_form (problems : dict problem) (results : dict final_result)
    (stage1_solutions : dict (dict solution)) (m : judge_metrics) :
  calculate_judge_accuracy problems results stage1_solutions = Ok m ->
  total_disagreements m = len (filter (disagreement problems stage1_solutions) results)
  /\ judge_correct m
     = len (filter (fun item => disagreement problems stage1_solutions item
                                && winning_answer_correct problems item) results)
  /\ majority_vote_correct m
     = len (filter (fun item => disagreement problems stage1_solutions item
                                && majority_vote_right problems stage1_solutions item)
                   results).
Proof.
  unfold calculate_judge_accuracy.
  destruct (for_each _ _ _) as [[[t j] c]|e] eqn:E; cbn [bind]; [|discriminate].
  intros H. inversion H. subst m. clear H.
  cbn [total_disagreements judge_correct majority_vote_correct].
  apply judge_loop_closed_form in E. lia.
Qed.

(** The theorem at one problem on which the solvers disagree. *)
Lemma judge_accuracy_closed_form_witness :
  exists m : judge_metrics,
    calculate_judge_accuracy one_problem two_results two_problems_stage1 = Ok m
    /\ total_disagreements m = 1
    /\ total_disagreements m
       = len (filter (disagreement one_problem two_problems_stage1) two_results)
    /\ judge_correct m
       = len (filter (fun item => disagreement one_problem two_problems_stage1 item
                                  && winning_answer_correct one_problem item) two_results)
    /\ majority_vote_correct m
       = len (filter (fun item => disagreement one_problem two_problems_stage1 item
                                  && majority_vote_right one_problem two_problems_stage1 item)
                     two_results).
Proof.
  destruct (calculate_judge_accuracy one_problem two_results two_problems_stage1)
    as [m|e] eqn:E; [|vm_compute in E; discriminate].
  exists m. split; [reflexivity|].
  split; [vm_compute in E; inversion E; reflexivity|].
  exact (judge_accuracy_closed_form one_problem two_results two_problems_stage1 m E).
Defined.

Lemma majority_loop_correct (problems : dict problem) (results : option (dict final_result))
    (stage1 : dict (dict solution)) (br br' : dict string) (c c' : Z) :
  for_each (majority_step problems results) stage1 (br, c) = Ok (br', c') ->
  c' = c + len (filter (entry_plurality_correct problems)
                       (baseline_eligible problems results stage1)).
Proof.
  revert br c. induction stage1 as [|[problem_id solutions] stage1 IH];
    intros br c; cbn [for_each].
  - intros H. inversion H. subst. unfold len. cbn. lia.
  - rewrite majority_step_shape, baseline_eligible_cons.
    change (dict_mem problems problem_id)
      with (match dict_get problems problem_id with Some _ => true | None => false end).
    destruct (dict_get problems problem_id) as [p|] eqn:Ep; cbn [bind andb];
      [|apply IH].
    destruct (match results with Some rs => dict_mem rs problem_id | None => true end);
      cbn [bind andb]; [|apply IH].
    destruct (map_result _ _) as [normalized|e] eqn:En; cbn [bind]; [|discriminate].
    destruct solutions as [|s solutions]; cbn [bind]; [apply IH|].
    destruct (answers_match _ _ _) as [ok|e] eqn:Em; cbn [bind]; [|discriminate].
    rewrite len_filter_cons.
    match goal with
    | |- context [entry_plurality_correct problems ?entry] =>
        assert (Q : entry_plurality_correct problems entry = ok)
    end.
    { unfold entry_plurality_correct, plurality_correct, normalized_answers.
      cbn [fst snd]. rewrite Ep, En. apply is_correct_Ok, Em. }
    rewrite Q. intros H. apply IH in H. destruct ok; lia.
Qed.

(** X28: what [calculate_majority_vote_baseline] counts.  When it
    returns, [correct] is the number of first-stage entries that are
    eligible (problem known, in [results] when results are passed, at
    least one solution) and whose most common normalised answer matches
    the correct answer. *)
Theorem majority_vote_closed_form (problems : dict problem)
    (stage1_solutions : dict (dict solution)) (results : option (dict final_result))
    (m : baseline_metrics) :
  calculate_majority_vote_baseline problems stage1_solutions results = Ok m ->
  baseline_correct m
  = len (filter (entry_plurality_correct problems)
                (baseline_eligible problems results stage1_solutions)).
Proof.
  unfold calculate_majority_vote_baseline.
  destruct (for_each _ _ _) as [[br c]|e] eqn:E; cbn [bind]; [|discriminate].
  intros H. inversion H. subst m. clear H. cbn [baseline_correct].
  apply majority_loop_correct in E. lia.
Qed.

(** The theorem at two first-stage problems of which one is known. *)
Lemma majority_vote_closed_form_witness :
  exists m : baseline_metrics,
    calculate_majority_vote_baseline one_problem two_problems_stage1 None = Ok m
    /\ baseline_correct m = 1
    /\ baseline_correct m
       = len (filter (entry_plurality_correct one_problem)
                     (baseline_eligible one_problem None two_problems_stage1)).
Proof.
  destruct (calculate_majority_vote_baseline one_problem two_problems_stage1 None)
    as [m|e] eqn:E; [|vm_compute in E; discriminate].
  exists m. split; [reflexivity|].
  split; [vm_compute in E; inversion E; reflexivity|].
  exact (majority_vote_closed_form one_problem two_problems_stage1 None m E).
Defined.

Lemma improvement_loop_closed_form (problems : dict problem)
    (refined stage1 : dict (dict solution)) (t i w u t' i' w' u' : Z) :
  for_each (improvement_step problems refined) stage1 (t, i, w, u) = Ok (t', i', w', u') ->
  i' = i + len (filter (entry_improved problems refined)
                       (improvement_eligible problems refined stage1))
  /\ w' = w + len (filter (fun entry => negb (entry_improved problems refined entry)
                                        && entry_worsened problems refined entry)
                          (improvement_eligible problems refined stage1))
  /\ u' = u + len (filter (fun entry => negb (entry_improved problems refined entry)
                                        && negb (entry_worsened problems refined entry))
                          (improvement_eligible problems refined stage1)).
Proof.
  revert t i w u. induction stage1 as [|[problem_id solutions] stage1 IH];
    intros t i w u; cbn [for_each].
  - intros H. inversion H. subst. unfold len. cbn. lia.
  - unfold improvement_eligible. cbn [filter fst]. fold (improvement_eligible problems refined stage1).
    unfold improvement_step, dict_mem.
    destruct (dict_get problems problem_id) as [p|] eqn:Ep;
      [destruct (dict_get refined problem_id) as [r|] eqn:Er|]; cbn [bind andb];
      try (intros H; apply IH in H; exact H).
    destruct (for_each _ _ _) as [[ai aw]|e] eqn:E; cbn [bind]; [|discriminate].
    apply score_loop_flags in E. cbn [orb] in E. destruct E as [Ei Ew].
    rewrite !len_filter_cons. cbv beta.
    rewrite entry_improved_pair, entry_worsened_pair, Ep, Er, <- Ei, <- Ew.
    destruct ai; [|destruct aw]; cbn [negb andb];
      intros H; apply IH in H; lia.
Qed.

(** X29: what [calculate_improvement_rate] counts.  When it returns, over
    the first-stage entries it scores, [improved] is the number of entries
    with a solver that went from incorrect to correct, [worsened] the
    number of entries without such a solver and with one that went from
    correct to incorrect, and [unchanged] the number of the others. *)
Theorem improvement_rate_closed_form (problems : dict problem)
    (stage1_solutions refined_solutions : dict (dict solution)) (m : improvement_metrics) :
  calculate_improvement_rate problems stage1_solutions refined_solutions = Ok m ->
  improved m
  = len (filter (entry_improved problems refined_solutions)
                (improvement_eligible problems refined_solutions stage1_solutions))
  /\ worsened m
     = len (filter (fun entry => negb (entry_improved problems refined_solutions entry)
                                 && entry_worsened problems refined_solutions entry)
                   (improvement_eligible problems refined_solutions stage1_solutions))
  /\ unchanged m
     = len (filter (fun entry => negb (entry_improved problems refined_solutions entry)
                                 && negb (entry_worsened problems refined_solutions entry))
                   (improvement_eligible problems refined_solutions stage1_solutions)).
Proof.
  unfold calculate_improvement_rate.
  destruct (for_each _ _ _) as [[[[t i] w] u]|e] eqn:E; cbn [bind]; [|discriminate].
  intros H. inversion H. subst m. clear H. cbn [improved worsened unchanged].
  apply improvement_loop_closed_form in E. lia.
Qed.

(** The theorem at one problem with an improved and a worsened solver. *)
Lemma improvement_rate_closed_form_witness :
  exists m : improvement_metrics,
    calculate_improvement_rate one_problem stage1_mixed refined_mixed = Ok m
    /\ improved m = 1
    /\ improved m
       = len (filter (entry_improved one_problem refined_mixed)
                     (improvement_eligible one_problem refined_mixed stage1_mixed))
    /\ worsened m
       = len (filter (fun entry => negb (entry_improved one_problem refined_mixed entry)
                                   && entry_worsened one_problem refined_mixed entry)
                     (improvement_eligible one_problem refined_mixed stage1_mixed))
    /\ unchanged m
       = len (filter (fun entry => negb (entry_improved one_problem refined_mixed entry)
                                   && negb (entry_worsened one_problem refined_mixed entry))
                     (improvement_eligible one_problem refined_mixed stage1_mixed)).
Proof.
  destruct (calculate_improvement_rate one_problem stage1_mixed refined_mixed)
    as [m|e] eqn:E; [|vm_compute in E; discriminate].
  exists m. split; [reflexivity|].
  split; [vm_compute in E; inversion E; reflexivity|].
  exact (improvement_rate_closed_form one_problem stage1_mixed refined_mixed m E).
Defined.

(* ================================================================== *)
(** * Improvement rate: solvers without a refined candidate *)

Lemma unrefined_solver_never_flips (p : problem) (refined : dict solution)
    (item : string * string) :
  dict_mem (answers_of refined) (fst item) = false ->
  solver_improved p (answers_of refined) item = false
  /\ solver_worsened p (answers_of refined) item = false.
Proof.
  intros H. apply solver_with_same_answer. unfold refined_or_original.
  unfold dict_mem in H. destruct (dict_get (answers_of refined) (fst item));
    [discriminate | reflexivity].
Qed.

Lemma existsb_with_refined (f : string * string -> bool) (refined_answers : dict string)
    (original_answers : dict string) :
  (forall item, dict_mem refined_answers (fst item) = false -> f item = false) ->
  existsb f (with_refined refined_answers original_answers) = existsb f original_answers.
Proof.
  intros H. unfold with_refined.
  induction original_answers as [|item l IH]; cbn [filter existsb]; [reflexivity|].
  destruct (dict_mem refined_answers (fst item)) eqn:M; cbn [existsb].
  - now rewrite IH.
  - now rewrite (H item M), IH.
Qed.

Lemma entry_improved_by_refined (problems : dict problem)
    (refined_solutions : dict (dict solution)) (entry : string * dict solution) :
  entry_improved problems refined_solutions entry
  = refined_solver_improved problems refined_solutions entry
  /\ entry_worsened problems refined_solutions entry
     = refined_solver_worsened problems refined_solutions entry.
Proof.
  unfold entry_improved, entry_worsened, refined_solver_improved, refined_solver_worsened.
  destruct (dict_get problems (fst entry)) as [p|]; [|auto].
  destruct (dict_get refined_solutions (fst entry)) as [refined|]; [|auto].
  split; symmetry; apply existsb_with_refined; intros item M;
    apply (unrefined_solver_never_flips p refined item M).
Qed.

Lemma filter_ext_len {A : Type} (f g : A -> bool) (l : list A) :
  (forall x, f x = g x) -> len (filter f l) = len (filter g l).
Proof. intros H. now rewrite (filter_ext f g H). Qed.

(** C10: in [calculate_improvement_rate], a solver without a refined
    candidate is scored as if its refined answer were its original answer,
    so it never makes the problem count as improved or worsened, and the
    problem is counted all the same.  For a problem that is in [problems]
    and in the refined collection: scoring such a solver is scoring it
    against a refined collection that repeats its answer, and leaves the
    pair (any_improved, any_worsened) as it was; the step of the loop
    counts the problem in [total_with_refinement] and puts it in the
    bucket that the solvers with a refined candidate decide, improved
    first; when no solver of the problem has a refined candidate, the
    problem is counted as unchanged.  For the whole function:
    [total_with_refinement] is the number of first-stage problems that
    are in [problems] and in the refined collection, and the three
    buckets count these problems by the solvers with a refined candidate
    alone. *)
Theorem unrefined_agent_counts_as_unchanged
    (problems : dict problem) (refined_solutions : dict (dict solution))
    (problem_id : string) (p : problem) (solutions refined : dict solution)
    (Hp : dict_get problems problem_id = Some p)
    (Hr : dict_get refined_solutions problem_id = Some refined) :
  (forall solver_id original flags,
      dict_get refined solver_id = None ->
      score_solver p (answers_of refined) flags (solver_id, original)
      = score_solver p [(solver_id, original)] flags (solver_id, original)
      /\ score_solver p (answers_of refined) flags (solver_id, original)
         = (_ <- answers_match original (correct_answer p) (answer_type p) ;; Ok flags))
  /\ (forall tot imp wors unch st',
      improvement_step problems refined_solutions (tot, imp, wors, unch)
                       (problem_id, solutions) = Ok st' ->
      st' = if existsb (solver_improved p (answers_of refined))
                       (with_refined (answers_of refined) (answers_of solutions))
            then (tot + 1, imp + 1, wors, unch)
            else if existsb (solver_worsened p (answers_of refined))
                            (with_refined (answers_of refined) (answers_of solutions))
            then (tot + 1, imp, wors + 1, unch)
            else (tot + 1, imp, wors, unch + 1))
  /\ ((forall solver_id original,
          dict_get (answers_of solutions) solver_id = Some original ->
          dict_get refined solver_id = None) ->
      forall tot imp wors unch st',
        improvement_step problems refined_solutions (tot, imp, wors, unch)
                         (problem_id, solutions) = Ok st' ->
        st' = (tot + 1, imp, wors, unch + 1))
  /\ (forall stage1_solutions m,
      calculate_improvement_rate problems stage1_solutions refined_solutions = Ok m ->
      total_with_refinement m
      = len (improvement_eligible problems refined_solutions stage1_solutions)
      /\ improved m
         = len (filter (refined_solver_improved problems refined_solutions)
                       (improvement_eligible problems refined_solutions stage1_solutions))
      /\ worsened m
         = len (filter (fun entry =>
                          negb (refined_solver_improved problems refined_solutions entry)
                          && refined_solver_worsened problems refined_solutions entry)
                       (improvement_eligible problems refined_solutions stage1_solutions))
      /\ unchanged m
         = len (filter (fun entry =>
                          negb (refined_solver_improved problems refined_solutions entry)
                          && negb (refined_solver_worsened problems refined_solutions entry))
                       (improvement_eligible problems refined_solutions stage1_solutions))).
Proof.
  assert (Step : forall tot imp wors unch st',
      improvement_step problems refined_solutions (tot, imp, wors, unch)
                       (problem_id, solutions) = Ok st' ->
      st' = if existsb (solver_improved p (answers_of refined))
                       (with_refined (answers_of refined) (answers_of solutions))
            then (tot + 1, imp + 1, wors, unch)
            else if existsb (solver_worsened p (answers_of refined))
                            (with_refined (answers_of refined) (answers_of solutions))
            then (tot + 1, imp, wors + 1, unch)
            else (tot + 1, imp, wors, unch + 1)).
  { intros tot imp wors unch st'. unfold improvement_step. rewrite Hp, Hr.
    destruct (for_each _ _ _) as [[ai aw]|e] eqn:E; cbn [bind]; [|discriminate].
    apply score_loop_flags in E. cbn [orb] in E. destruct E as [Ei Ew].
    rewrite !existsb_with_refined
      by (intros item M; apply (unrefined_solver_never_flips p refined item M)).
    rewrite <- Ei, <- Ew.
    destruct ai; [|destruct aw]; intros H; inversion H; reflexivity. }
  split; [|split; [exact Step|split]].
  - intros solver_id original flags H.
    rewrite (score_solver_without_refined p refined flags solver_id original H).
    split; [|reflexivity].
    unfold score_solver. destruct flags as [i w]. cbn [dict_get].
    rewrite String.eqb_refl.
    destruct (answers_match original _ _) as [[|]|e]; reflexivity.
  - intros Hnone tot imp wors unch st' H. apply Step in H.
    assert (E : with_refined (answers_of refined) (answers_of solutions) = []).
    { unfold with_refined.
      assert (F : forall l : dict string,
                 (forall k a, In (k, a) l -> dict_get refined k = None) ->
                 filter (fun kv => dict_mem (answers_of refined) (fst kv)) l = []).
      { induction l as [|[k a] l IH]; intros Hl; cbn [filter fst]; [reflexivity|].
        unfold dict_mem at 1.
        rewrite (proj2 (answers_of_None refined k) (Hl k a (or_introl eq_refl))).
        apply IH. intros k' a' I. apply (Hl k' a'). now right. }
      apply F. intros k a I. apply (Hnone k a).
      apply In_dict_get; [apply answers_of_NoDup | exact I]. }
    rewrite E in H. exact H.
  - intros stage1_solutions m. unfold calculate_improvement_rate.
    destruct (for_each _ _ _) as [[[[t i] w] u]|e] eqn:E; cbn [bind]; [|discriminate].
    intros H. inversion H. subst m. clear H.
    cbn [total_with_refinement improved worsened unchanged].
    pose proof (improvement_loop_counts _ _ _ _ _ _ _ _ _ _ _ E) as [Ht _].
    apply improvement_loop_closed_form in E. destruct E as [Ei [Ew Eu]].
    rewrite Ht, Ei, Ew, Eu, !Z.add_0_l.
    split; [reflexivity|].
    split; [|split]; apply filter_ext_len; intros entry;
      destruct (entry_improved_by_refined problems refined_solutions entry) as [Q1 Q2];
      rewrite ?Q1, ?Q2; reflexivity.
Qed.

(** The theorem at a problem with two solvers (35, then the correct 34).
    When only the first has a refined candidate (34), the second leaves
    the flags alone and the problem is counted as improved through the
    first; when neither has one, the problem is counted, as unchanged. *)
Lemma unrefined_agent_counts_as_unchanged_witness :
  dict_get one_problem "math_001" = Some math_001
  /\ dict_get [("math_001", refined_math_001)] "math_001" = Some refined_math_001
  /\ dict_get refined_math_001 "solver_2" = None
  /\ score_solver math_001 (answers_of refined_math_001) (false, false) ("solver_2", "34")
     = Ok (false, false)
  /\ improvement_step one_problem [("math_001", refined_math_001)]
       (0, 0, 0, 0) ("math_001", stage1_math_001) = Ok (0 + 1, 0 + 1, 0, 0)
  /\ dict_get refined_nobody "math_001" = Some []
  /\ improvement_step one_problem refined_nobody
       (0, 0, 0, 0) ("math_001", stage1_math_001) = Ok (0 + 1, 0, 0, 0 + 1)
  /\ exists m : improvement_metrics,
       calculate_improvement_rate one_problem [("math_001", stage1_math_001)] refined_nobody
       = Ok m
       /\ total_with_refinement m = 1 /\ improved m = 0 /\ worsened m = 0
       /\ unchanged m = 1.
Proof.
  assert (Hp : dict_get one_problem "math_001" = Some math_001) by reflexivity.
  assert (Hr : dict_get [("math_001", refined_math_001)] "math_001"
               = Some refined_math_001) by reflexivity.
  assert (Hn : dict_get refined_nobody "math_001" = Some []) by reflexivity.
  destruct (unrefined_agent_counts_as_unchanged one_problem
              [("math_001", refined_math_001)] "math_001" math_001
              stage1_math_001 refined_math_001 Hp Hr) as [H1 [H2 _]].
  destruct (unrefined_agent_counts_as_unchanged one_problem refined_nobody
              "math_001" math_001 stage1_math_001 [] Hp Hn) as [_ [_ [H3 H4]]].
  split; [exact Hp|]. split; [exact Hr|]. split; [reflexivity|].
  split; [|split; [|split; [exact Hn|split]]].
  - rewrite (proj2 (H1 "solver_2" "34" (false, false) eq_refl)). vm_compute. reflexivity.
  - destruct (improvement_step one_problem [("math_001", refined_math_001)]
                (0, 0, 0, 0) ("math_001", stage1_math_001)) as [st|e] eqn:E;
      [|vm_compute in E; discriminate].
    rewrite (H2 0 0 0 0 st E). vm_compute. reflexivity.
  - destruct (improvement_step one_problem refined_nobody
                (0, 0, 0, 0) ("math_001", stage1_math_001)) as [st|e] eqn:E;
      [|vm_compute in E; discriminate].
    rewrite (H3 (fun _ _ _ => eq_refl) 0 0 0 0 st E). reflexivity.
  - destruct (calculate_improvement_rate one_problem [("math_001", stage1_math_001)]
                refined_nobody) as [m|e] eqn:E; [|vm_compute in E; discriminate].
    exists m. split; [reflexivity|].
    destruct (H4 [("math_001", stage1_math_001)] m E) as [Ht [Hi [Hw Hu]]].
    rewrite Ht, Hi, Hw, Hu. repeat split; vm_compute; reflexivity.
Defined.
